(** * Flight-search backend: offer normalisation and search orchestration

    A shallow embedding of the Express handler [POST /search_flights] and of
    [mapOfferToOption] (the revision with per-segment fare attribution and
    the [travelClass] hint), together with the earlier single-leg revision
    of the handler kept in [app.js].

    JavaScript values are embedded as they reach the program: request and
    provider bodies are parsed JSON, so a value is [undefined], [null], a
    boolean, a number (IEEE-754 binary64, as [spec_float]), a string, an
    array or an object.  Exceptions are explicit ([Completion]); the two
    provider calls are events of a trace, answered by an [Upstream] oracle.

    Modelling conventions:
    - on a parsed value, property reads consult own properties, array
      indices and [length]; methods inherited from built-in prototypes are
      not values of the model (the program reads [map], [forEach] and
      [filter] only to call them, which is modelled at the call sites);
    - [segmentFareMap], the object literal used as a dictionary, is read
      under keys taken from the data: it is modelled with its prototype
      chain, a lookup answering an own binding, a member of the prototype,
      or a built-in inherited from [Object.prototype];
    - the string <-> number conversions of the engine ([parseFloat],
      [Number::toString], [StringToNumber]) are an interface
      ([NumericConversions]); the development is parametric in it, and a
      reference instance is given for evaluation. *)

From Stdlib Require Import ZArith String Ascii List DecimalString.
From Stdlib Require Import Floats.SpecFloat.
From stdpp Require Import base option list strings gmap.

Set Warnings "-register-all".

Local Open Scope string_scope.
Local Open Scope list_scope.

(** ** Numbers *)

Abbreviation number := spec_float.

Definition NaN : number := S754_nan.
Definition num_of_Z (z : Z) : number := binary_normalize 53 1024 z 0 false.
Definition num_of_nat (n : nat) : number := num_of_Z (Z.of_nat n).

(** [x <= y] on numbers: false as soon as one side is NaN. *)
Definition num_le (x y : number) : bool := SFleb x y.

(** ** Values *)

Inductive JsVal : Type :=
| VUndef
| VNull
| VBool (b : bool)
| VNum (n : number)
| VStr (s : string)
| VArr (elems : list JsVal)
| VObj (props : list (string * JsVal)).

(** An object is its list of properties in creation order; a key that is
    repeated denotes the first binding. *)
Fixpoint lookup_prop (k : string) (ps : list (string * JsVal)) : option JsVal :=
  match ps with
  | [] => None
  | (k', v) :: rest => if String.eqb k k' then Some v else lookup_prop k rest
  end.

(** [obj.k = v] on an ordinary object: overwrite in place or append. *)
Fixpoint set_prop (k : string) (v : JsVal) (ps : list (string * JsVal))
  : list (string * JsVal) :=
  match ps with
  | [] => [(k, v)]
  | (k', v') :: rest =>
      if String.eqb k k' then (k, v) :: rest else (k', v') :: set_prop k v rest
  end.

Inductive JsError : Type :=
| TypeError (message : string)
| RequestError (response_data : JsVal) (message : string).

Inductive Completion (A : Type) : Type :=
| Normal (a : A)
| Throw (e : JsError).
Arguments Normal {A} a.
Arguments Throw {A} e.

#[global] Instance Completion_ret : MRet Completion := fun A a => Normal a.
#[global] Instance Completion_bind : MBind Completion := fun A B f c =>
  match c with
  | Normal a => f a
  | Throw e => Throw e
  end.

Definition is_normal {A} (c : Completion A) : bool :=
  match c with Normal _ => true | Throw _ => false end.

(** ** Truthiness and the short-circuit operators *)

Definition truthy (v : JsVal) : bool :=
  match v with
  | VUndef | VNull => false
  | VBool b => b
  | VNum (S754_zero _) | VNum S754_nan => false
  | VNum _ => true
  | VStr s => negb (String.eqb s EmptyString)
  | VArr _ | VObj _ => true
  end.

Definition nullish (v : JsVal) : bool :=
  match v with VUndef | VNull => true | _ => false end.

(** [a || b] and [a ?? b] with an effect-free right operand. *)
Definition or_else (a b : JsVal) : JsVal := if truthy a then a else b.
Definition nullish_else (a b : JsVal) : JsVal := if nullish a then b else a.

(** Destructuring default [{ k = d }]: only [undefined] is replaced. *)
Definition with_default (v d : JsVal) : JsVal :=
  match v with VUndef => d | _ => v end.

(** ** Property access *)

(** A canonical array index written as a property key. *)
Definition index_of_key (k : string) : option N :=
  match NilEmpty.uint_of_string k with
  | Some u =>
      let n := N.of_uint u in
      if String.eqb (NilEmpty.string_of_uint (N.to_uint n)) k then Some n else None
  | None => None
  end.

Fixpoint nth_elem {A} (l : list A) (n : N) : option A :=
  match l with
  | [] => None
  | x :: rest => if N.eqb n 0 then Some x else nth_elem rest (N.pred n)
  end.

Definition string_of_ascii (c : ascii) : string := String c EmptyString.

(** [v?.k]: the property of a value that is not nullish, [undefined] for a
    nullish one. *)
Definition prop (v : JsVal) (k : string) : JsVal :=
  match v with
  | VObj ps => default VUndef (lookup_prop k ps)
  | VArr l =>
      if String.eqb k "length" then VNum (num_of_nat (length l))
      else match index_of_key k with
           | Some i => default VUndef (nth_elem l i)
           | None => VUndef
           end
  | VStr s =>
      if String.eqb k "length" then VNum (num_of_nat (String.length s))
      else match index_of_key k with
           | Some i =>
               default VUndef
                 (VStr <$> (string_of_ascii <$> nth_elem (list_ascii_of_string s) i))
           | None => VUndef
           end
  | _ => VUndef
  end.

(** [v.k]: reading a property of [undefined] or [null] throws. *)
Definition Get (v : JsVal) (k : string) : Completion JsVal :=
  if nullish v
  then Throw (TypeError ("Cannot read properties of undefined or null (reading '" +:+ k +:+ "')"))
  else Normal (prop v k).

(** ** Conversions *)

Class NumericConversions : Type := {
  parseFloat_string : string -> number;
  Number_toString : number -> string;
  StringToNumber : string -> number
}.

Section Conversions.
Context `{NumericConversions}.

(** [ToString].  A parsed JSON object has no callable member of its own, so
    an own [toString] property makes the conversion fail; otherwise
    [Object.prototype.toString] answers.  Arrays are joined with commas,
    [null] and [undefined] elements printing as the empty string. *)
Fixpoint ToString (v : JsVal) : Completion string :=
  match v with
  | VUndef => Normal "undefined"
  | VNull => Normal "null"
  | VBool b => Normal (if b then "true" else "false")
  | VNum n => Normal (Number_toString n)
  | VStr s => Normal s
  | VArr l =>
      (fix join (l : list JsVal) : Completion string :=
         match l with
         | [] => Normal EmptyString
         | x :: rest =>
             s ← (match x with
                  | VUndef | VNull => Normal EmptyString
                  | _ => ToString x
                  end);
             match rest with
             | [] => Normal s
             | _ => r ← join rest; Normal (s +:+ "," +:+ r)
             end
         end) l
  | VObj ps =>
      match lookup_prop "toString" ps with
      | Some _ => Throw (TypeError "Cannot convert object to primitive value")
      | None => Normal "[object Object]"
      end
  end.

Definition ToPropertyKey (v : JsVal) : Completion string := ToString v.

Definition ToNumber (v : JsVal) : Completion number :=
  match v with
  | VUndef => Normal NaN
  | VNull => Normal (S754_zero false)
  | VBool b => Normal (if b then num_of_Z 1 else S754_zero false)
  | VNum n => Normal n
  | VStr s => Normal (StringToNumber s)
  | VArr _ | VObj _ => s ← ToString v; Normal (StringToNumber s)
  end.

(** The global [parseFloat]: its argument is converted to a string first. *)
Definition parseFloat (v : JsVal) : Completion JsVal :=
  s ← ToString v; Normal (VNum (parseFloat_string s)).

End Conversions.

(** ** Relational comparison *)

Definition string_le (s t : string) : bool :=
  match String.compare s t with Gt => false | _ => true end.

Section Comparison.
Context `{NumericConversions}.

Definition ToPrimitive (v : JsVal) : Completion JsVal :=
  match v with
  | VArr _ | VObj _ => s ← ToString v; Normal (VStr s)
  | _ => Normal v
  end.

(** [a <= b]: both operands are made primitive, left one first; two strings
    are compared as strings, anything else as numbers. *)
Definition js_le (a b : JsVal) : Completion bool :=
  pa ← ToPrimitive a;
  pb ← ToPrimitive b;
  match pa, pb with
  | VStr s, VStr t => Normal (string_le s t)
  | _, _ => x ← ToNumber pa; y ← ToNumber pb; Normal (num_le x y)
  end.

End Comparison.

(** ** Array methods called by the program *)

(** The receiver of [.map], [.forEach] or [.filter] has to be an array: no
    other value of the model has a callable member of that name. *)
Definition array_elements (callee : string) (v : JsVal) : Completion (list JsVal) :=
  match v with
  | VArr l => Normal l
  | _ => Throw (TypeError (callee +:+ " is not a function"))
  end.

Fixpoint map_array {A} (f : JsVal -> Completion A) (l : list JsVal)
  : Completion (list A) :=
  match l with
  | [] => Normal []
  | x :: rest => y ← f x; ys ← map_array f rest; Normal (y :: ys)
  end.

Fixpoint filter_array (p : JsVal -> Completion bool) (l : list JsVal)
  : Completion (list JsVal) :=
  match l with
  | [] => Normal []
  | x :: rest =>
      keep ← p x; kept ← filter_array p rest;
      Normal (if keep : bool then x :: kept else kept)
  end.

(** ** [mapOfferToOption] *)

(** The names of the members that an object literal inherits from
    [Object.prototype]. *)
Definition inherited_names : list string :=
  [ "constructor"; "hasOwnProperty"; "isPrototypeOf"; "propertyIsEnumerable";
    "toLocaleString"; "toString"; "valueOf"; "__proto__";
    "__defineGetter__"; "__defineSetter__"; "__lookupGetter__"; "__lookupSetter__" ].

(** [segmentFareMap], an object literal used as a dictionary.  Its own
    properties are the bindings written by the resolver.  Its prototype is
    [Object.prototype] ([None]) until an assignment to [__proto__], which
    binds nothing, replaces it by the object literal assigned (kept as its
    members). *)
Record FareMap : Type := {
  own : gmap string JsVal;
  prototype : option (list (string * JsVal))
}.

Definition emptyFareMap : FareMap := {| own := ∅; prototype := None |}.

(** What reading [segmentFareMap[key]] finds: a value, or a built-in object
    reached through the prototype chain (a method of [Object.prototype], or
    [Object.prototype] itself), which is truthy and has none of the fare
    members. *)
Inductive Member : Type :=
| Value (v : JsVal)
| Builtin.

(** [member.k] and [member?.k], for [k] a fare member. *)
Definition member_prop (member : Member) (k : string) : JsVal :=
  match member with
  | Value v => prop v k
  | Builtin => VUndef
  end.

(** [member || b] *)
Definition member_or_else (member : Member) (b : JsVal) : Member :=
  match member with
  | Value v => Value (or_else v b)
  | Builtin => Builtin
  end.

(** [segmentFareMap[key] = { ...members }] *)
Definition fareMap_set (key : string) (members : list (string * JsVal))
    (segmentFareMap : FareMap) : FareMap :=
  if String.eqb key "__proto__"
  then {| own := own segmentFareMap; prototype := Some members |}
  else {| own := <[key := VObj members]> (own segmentFareMap);
          prototype := prototype segmentFareMap |}.

(** A member found on [Object.prototype], the end of the chain. *)
Definition objectPrototype_member (key : string) : Member :=
  if existsb (String.eqb key) inherited_names then Builtin else Value VUndef.

(** [segmentFareMap[key]]: an own property, else a member of the prototype,
    else one of [Object.prototype]; [__proto__] answers the prototype. *)
Definition fareLookup (segmentFareMap : FareMap) (key : string) : Member :=
  if String.eqb key "__proto__" then
    match prototype segmentFareMap with
    | Some members => Value (VObj members)
    | None => Builtin
    end
  else
    match own segmentFareMap !! key with
    | Some v => Value v
    | None =>
        match prototype segmentFareMap with
        | Some members =>
            match lookup_prop key members with
            | Some v => Value v
            | None => objectPrototype_member key
            end
        | None => objectPrototype_member key
        end
    end.

Section Normalizer.
Context `{NumericConversions}.

(** The members of the object literal stored for one fare-detail entry [fd]
    ([fd] is not nullish where this is evaluated). *)
Definition fareMembers (fd : JsVal) : list (string * JsVal) :=
  [ ("cabin", or_else (prop fd "cabin") VNull);
    ("class", or_else (prop fd "class") VNull);
    ("brandedFare", or_else (prop fd "brandedFare") VNull);
    ("fareBasis", or_else (prop fd "fareBasis") VNull);
    ("checkedBags",
      nullish_else (prop (prop fd "includedCheckedBags") "quantity") VNull) ].

Definition fareAttribution (fd : JsVal) : JsVal := VObj (fareMembers fd).

(** [fareDetails.forEach((fd) => { segmentFareMap[fd.segmentId] = {...} })] *)
Fixpoint forEach_fareDetails (fareDetails : list JsVal)
    (segmentFareMap : FareMap) : Completion FareMap :=
  match fareDetails with
  | [] => Normal segmentFareMap
  | fd :: rest =>
      segId ← Get fd "segmentId";
      key ← ToPropertyKey segId;
      forEach_fareDetails rest (fareMap_set key (fareMembers fd) segmentFareMap)
  end.

(** [(offer.travelerPricings?.[0] || {}).fareDetailsBySegment || []] *)
Definition fareDetailsOf (travelerPricings : JsVal) : JsVal :=
  let traveler := or_else (prop travelerPricings "0") (VObj []) in
  or_else (prop traveler "fareDetailsBySegment") (VArr []).

(** The fare attribution resolver: the part of [mapOfferToOption] that
    builds [segmentFareMap]. *)
Definition segmentFareMapOf (offer : JsVal) : Completion FareMap :=
  travelerPricings ← Get offer "travelerPricings";
  fareDetails ← array_elements "fareDetails.forEach" (fareDetailsOf travelerPricings);
  forEach_fareDetails fareDetails emptyFareMap.

Definition fallbackFare : JsVal :=
  VObj [ ("cabin", VNull); ("class", VNull); ("brandedFare", VNull);
         ("fareBasis", VNull); ("checkedBags", VNull) ].

(** [segmentFareMap[segments[0].id]?.field ?? null] *)
Definition firstSegmentFare (segmentFareMap : FareMap)
    (segments : JsVal) (field : string) : Completion JsVal :=
  s0 ← Get segments "0";
  id ← Get s0 "id";
  key ← ToPropertyKey id;
  Normal (nullish_else (member_prop (fareLookup segmentFareMap key) field) VNull).

(** The callback of [segments.map]. *)
Definition mapSegment (segmentFareMap : FareMap) (s : JsVal)
  : Completion JsVal :=
  id ← Get s "id";
  key ← ToPropertyKey id;
  let fareInfo := member_or_else (fareLookup segmentFareMap key) fallbackFare in
  from ← Get (prop s "departure") "iataCode";
  to ← Get (prop s "arrival") "iataCode";
  departureTime ← Get (prop s "departure") "at";
  arrivalTime ← Get (prop s "arrival") "at";
  Normal (VObj [ ("from", from); ("to", to);
                 ("departureTime", departureTime); ("arrivalTime", arrivalTime);
                 ("carrier", prop s "carrierCode");
                 ("flightNumber", prop s "number");
                 ("cabin", member_prop fareInfo "cabin");
                 ("class", member_prop fareInfo "class");
                 ("brandedFare", member_prop fareInfo "brandedFare");
                 ("fareBasis", member_prop fareInfo "fareBasis");
                 ("checkedBags", member_prop fareInfo "checkedBags") ]).

Definition mapOfferToOption (offer : JsVal) : Completion JsVal :=
  itineraries ← Get offer "itineraries";
  firstItinerary ← Get itineraries "0";
  segments ← Get firstItinerary "segments";
  segmentFareMap ← segmentFareMapOf offer;
  total ← Get (prop offer "price") "total";
  price ← parseFloat total;
  currency ← Get (prop offer "price") "currency";
  s0 ← Get segments "0";
  cabin ← firstSegmentFare segmentFareMap segments "cabin";
  brandedFare ← firstSegmentFare segmentFareMap segments "brandedFare";
  fareBasis ← firstSegmentFare segmentFareMap segments "fareBasis";
  checkedBags ← firstSegmentFare segmentFareMap segments "checkedBags";
  segs ← array_elements "segments.map" segments;
  segs' ← map_array (mapSegment segmentFareMap) segs;
  Normal (VObj [ ("id", prop offer "id");
                 ("price", price);
                 ("currency", currency);
                 ("duration", prop firstItinerary "duration");
                 ("airline", prop s0 "carrierCode");
                 ("cabin", cabin);
                 ("brandedFare", brandedFare);
                 ("fareBasis", fareBasis);
                 ("checkedBags", checkedBags);
                 ("segments", VArr segs') ]).

(** [options.filter((o) => o.price <= maxPrice)] *)
Definition budgetFilter (maxPrice : JsVal) (options : list JsVal)
  : Completion (list JsVal) :=
  filter_array (fun o => price ← Get o "price"; js_le price maxPrice) options.

End Normalizer.

(** ** The provider, as seen from the handler *)

Inductive Event : Type :=
| TokenRequest
| OfferSearch (authorization : string) (params : JsVal).

(** What the provider answers: the body of the token response, and the body
    of the n-th flight-offer search (counting from 0) given its
    [Authorization] header and query parameters; either can be a rejection. *)
Record Upstream : Type := {
  token_response : Completion JsVal;
  search_response : nat -> string -> JsVal -> Completion JsVal
}.

Definition is_search (e : Event) : bool :=
  match e with OfferSearch _ _ => true | TokenRequest => false end.

Definition searches (trace : list Event) : list Event := List.filter is_search trace.

(** A handler computation: reads the provider, extends the trace of calls,
    and completes normally or throws. *)
Definition Run (A : Type) : Type :=
  Upstream -> list Event -> list Event * Completion A.

#[global] Instance Run_ret : MRet Run := fun A a _ trace => (trace, Normal a).
#[global] Instance Run_bind : MBind Run := fun A B f m up trace =>
  match m up trace with
  | (trace', Normal a) => f a up trace'
  | (trace', Throw e) => (trace', Throw e)
  end.

Definition liftC {A} (c : Completion A) : Run A := fun _ trace => (trace, c).

(** A response: its status and the value handed to [res.json].  In the JSON
    text a property holding [undefined] is left out, and a number that is
    not finite is written [null]. *)
Record Response : Type := { status : nat; body : JsVal }.

Definition res_json (code : nat) (v : JsVal) : Response :=
  {| status := code; body := v |}.

Definition error_body (message : string) : JsVal := VObj [("error", VStr message)].

(** [error.response?.data || error.message] *)
Definition error_details (e : JsError) : JsVal :=
  match e with
  | TypeError message => VStr message
  | RequestError data message => or_else data (VStr message)
  end.

Definition strict_eq_string (v : JsVal) (s : string) : bool :=
  match v with VStr t => String.eqb t s | _ => false end.

Section Handler.
Context `{NumericConversions}.

Definition getAccessToken : Run JsVal := fun up trace =>
  (trace ++ [TokenRequest],
   data ← token_response up; Get data "access_token").

(** [axios.get(url, { headers: { Authorization: `Bearer ${token}` }, params })],
    returning [response.data]. *)
Definition axios_get (token : JsVal) (params : JsVal) : Run JsVal := fun up trace =>
  match ToString token with
  | Throw e => (trace, Throw e)
  | Normal t =>
      let authorization := "Bearer " +:+ t in
      (trace ++ [OfferSearch authorization params],
       search_response up (length (searches trace)) authorization params)
  end.

(** Request fields shared by every leg. *)
Record Shared : Type := {
  adults : JsVal; currency : JsVal; max : JsVal;
  maxPrice : JsVal; travelClass : JsVal
}.

(** [if (maxPrice) params.maxPrice = maxPrice;
     if (travelClass) params.travelClass = travelClass;] *)
Definition add_optional (sh : Shared) (params : list (string * JsVal))
  : list (string * JsVal) :=
  let params :=
    if truthy (maxPrice sh) then set_prop "maxPrice" (maxPrice sh) params else params in
  if truthy (travelClass sh) then set_prop "travelClass" (travelClass sh) params
  else params.

(** What follows the provider call of a leg: [data.data || []],
    [.map(mapOfferToOption)], and the budget filter under [if (maxPrice)]. *)
Definition normalizeOffers (sh : Shared) (data : JsVal) : Completion (list JsVal) :=
  offers ← Get data "data";
  offers ← array_elements "offers.map" (or_else offers (VArr []));
  options ← map_array mapOfferToOption offers;
  if truthy (maxPrice sh) then budgetFilter (maxPrice sh) options
  else Normal options.

(** The provider call of one leg, then [normalizeOffers]. *)
Definition fetchOptions (token : JsVal) (sh : Shared) (params : list (string * JsVal))
  : Run (list JsVal) :=
  data ← axios_get token (VObj params);
  liftC (normalizeOffers sh data).

Definition segment_error : string :=
  "Each segment must include origin, destination, and date (YYYY-MM-DD)".

(** The query parameters of the multi-city leg [seg]. *)
Definition legParams (sh : Shared) (seg : JsVal) : list (string * JsVal) :=
  add_optional sh
    [ ("originLocationCode", prop seg "origin");
      ("destinationLocationCode", prop seg "destination");
      ("departureDate", prop seg "date");
      ("adults", adults sh);
      ("currencyCode", currency sh);
      ("max", max sh) ].

(** The object pushed on [legs] at loop index [i]. *)
Definition legEntry (i : nat) (seg : JsVal) (legOptions : list JsVal) : JsVal :=
  VObj [ ("legIndex", VNum (num_of_nat (i + 1)));
         ("origin", prop seg "origin");
         ("destination", prop seg "destination");
         ("date", prop seg "date");
         ("options", VArr legOptions) ].

(** The [for] loop of the multi-city branch, from index [i] on, [legs] being
    the legs pushed so far; [inl] is the early [return res.status(400)]. *)
Fixpoint multiLegs (token : JsVal) (sh : Shared) (segments : list JsVal)
    (i : nat) (legs : list JsVal) : Run (Response + list JsVal) :=
  match segments with
  | [] => mret (inr legs)
  | seg :: rest =>
      origin ← liftC (Get seg "origin");
      if negb (truthy origin) || negb (truthy (prop seg "destination"))
         || negb (truthy (prop seg "date"))
      then mret (inl (res_json 400 (error_body segment_error)))
      else
        legOptions ← fetchOptions token sh (legParams sh seg);
        multiLegs token sh rest (S i) (legs ++ [legEntry i seg legOptions])
  end.

(** The request fields, destructured with their defaults. *)
Record Request : Type := {
  tripType : JsVal; origin : JsVal; destination : JsVal;
  departureDate : JsVal; returnDate : JsVal; segments : JsVal;
  shared : Shared
}.

Definition sharedFields (req_body : JsVal) : Shared :=
  {| adults := with_default (prop req_body "adults") (VNum (num_of_Z 1));
     currency := with_default (prop req_body "currency") (VStr "KWD");
     max := with_default (prop req_body "max") (VNum (num_of_Z 5));
     maxPrice := prop req_body "maxPrice";
     travelClass := prop req_body "travelClass" |}.

Definition destructure (req_body : JsVal) : Completion Request :=
  tripType ← Get req_body "tripType";
  Normal {| tripType := with_default tripType (VStr "oneway");
            origin := prop req_body "origin";
            destination := prop req_body "destination";
            departureDate := prop req_body "departureDate";
            returnDate := prop req_body "returnDate";
            segments := prop req_body "segments";
            shared := sharedFields req_body |}.

(** The branch [tripType === 'oneway' || tripType === 'roundtrip']. *)
Definition singleLeg (rq : Request) (token : JsVal) : Run Response :=
  if negb (truthy (origin rq)) || negb (truthy (destination rq))
     || negb (truthy (departureDate rq))
  then mret (res_json 400
               (error_body "origin, destination, and departureDate are required"))
  else
    let params :=
      [ ("originLocationCode", origin rq);
        ("destinationLocationCode", destination rq);
        ("departureDate", departureDate rq);
        ("adults", adults (shared rq));
        ("currencyCode", currency (shared rq));
        ("max", max (shared rq)) ] in
    let checked :=
      if strict_eq_string (tripType rq) "roundtrip" then
        if negb (truthy (returnDate rq))
        then inl (res_json 400
                    (error_body "returnDate is required for roundtrip searches"))
        else inr (set_prop "returnDate" (returnDate rq) params)
      else inr params in
    match checked with
    | inl early => mret early
    | inr params =>
        options ← fetchOptions token (shared rq) (add_optional (shared rq) params);
        mret (res_json 200
                (VObj [ ("tripType", tripType rq);
                        ("origin", origin rq);
                        ("destination", destination rq);
                        ("departureDate", departureDate rq);
                        ("returnDate",
                          if strict_eq_string (tripType rq) "roundtrip"
                          then returnDate rq else VUndef);
                        ("options", VArr options) ]))
    end.

(** The branch [tripType === 'multi']. *)
Definition multiCity (rq : Request) (token : JsVal) : Run Response :=
  match segments rq with
  | VArr (seg :: rest) =>
      outcome ← multiLegs token (shared rq) (seg :: rest) 0 [];
      match outcome with
      | inl early => mret early
      | inr legs =>
          mret (res_json 200
                  (VObj [ ("tripType", VStr "multi");
                          ("adults", adults (shared rq));
                          ("currency", currency (shared rq));
                          ("max", max (shared rq));
                          ("maxPrice", or_else (maxPrice (shared rq)) VUndef);
                          ("legs", VArr legs) ]))
      end
  | _ => mret (res_json 400
                 (error_body "segments array is required for multi-city searches"))
  end.

(** The three-way test on [tripType]. *)
Definition dispatch (rq : Request) (token : JsVal) : Run Response :=
  if strict_eq_string (tripType rq) "oneway"
     || strict_eq_string (tripType rq) "roundtrip"
  then singleLeg rq token
  else if strict_eq_string (tripType rq) "multi" then multiCity rq token
  else mret (res_json 400
               (error_body "tripType must be 'oneway', 'roundtrip', or 'multi'")).

(** The body of the [try] block. *)
Definition search_flights_try (req_body : JsVal) : Run Response :=
  rq ← liftC (destructure req_body);
  token ← getAccessToken;
  dispatch rq token.

(** The [catch] block. *)
Definition on_error (e : JsError) : Response :=
  res_json 500 (VObj [ ("error", VStr "Failed to search flights");
                       ("details", error_details e) ]).

Definition catch_errors (r : list Event * Completion Response)
  : list Event * Response :=
  match r with
  | (trace, Normal response) => (trace, response)
  | (trace, Throw e) => (trace, on_error e)
  end.

(** The handler: the calls issued to the provider and the response sent. *)
Definition search_flights (up : Upstream) (req_body : JsVal) : list Event * Response :=
  catch_errors (search_flights_try req_body up []).

End Handler.

(** ** The earlier revision of the handler ([app.js]) *)

Module AppJs.
Section Handler.
Context `{NumericConversions}.

(** The callback of [offers.map]. *)
Definition mapOffer (offer : JsVal) : Completion JsVal :=
  price ← Get offer "price";
  total ← Get price "total";
  currencyCode ← Get price "currency";
  itineraries ← Get offer "itineraries";
  firstItinerary ← Get itineraries "0";
  segments ← Get firstItinerary "segments";
  price ← parseFloat total;
  s0 ← Get segments "0";
  segs ← array_elements "segments.map" segments;
  segs' ← map_array (fun s =>
             from ← Get (prop s "departure") "iataCode";
             to ← Get (prop s "arrival") "iataCode";
             departureTime ← Get (prop s "departure") "at";
             arrivalTime ← Get (prop s "arrival") "at";
             Normal (VObj [ ("from", from); ("to", to);
                            ("departureTime", departureTime);
                            ("arrivalTime", arrivalTime);
                            ("carrier", prop s "carrierCode");
                            ("flightNumber", prop s "number") ])) segs;
  Normal (VObj [ ("id", prop offer "id");
                 ("price", price);
                 ("currency", currencyCode);
                 ("duration", prop firstItinerary "duration");
                 ("airline", prop s0 "carrierCode");
                 ("segments", VArr segs') ]).

Definition search_flights_try (req_body : JsVal) : Run Response :=
  origin ← liftC (Get req_body "origin");
  let destination := prop req_body "destination" in
  let departureDate := prop req_body "departureDate" in
  let adults := with_default (prop req_body "adults") (VNum (num_of_Z 1)) in
  let currency := with_default (prop req_body "currency") (VStr "KWD") in
  let max := with_default (prop req_body "max") (VNum (num_of_Z 5)) in
  if negb (truthy origin) || negb (truthy destination) || negb (truthy departureDate)
  then mret (res_json 400
               (error_body "origin, destination, and departureDate are required"))
  else
    token ← getAccessToken;
    data ← axios_get token
             (VObj [ ("originLocationCode", origin);
                     ("destinationLocationCode", destination);
                     ("departureDate", departureDate);
                     ("adults", adults);
                     ("currencyCode", currency);
                     ("max", max) ]);
    options ← liftC (offers ← Get data "data";
                     offers ← array_elements "offers.map" (or_else offers (VArr []));
                     map_array mapOffer offers);
    mret (res_json 200 (VObj [ ("options", VArr options) ])).

Definition search_flights (up : Upstream) (req_body : JsVal) : list Event * Response :=
  catch_errors (search_flights_try req_body up []).

End Handler.
End AppJs.

(** ** A reference implementation of the numeric conversions

    Decimal literals are read and numbers are printed exactly, by integer
    arithmetic: reading rounds to the nearest binary64 (ties to even),
    printing emits the shortest digit string that reads back as the same
    number.  Strings are sequences of bytes (UTF-8). *)

Module Reference.

Local Open Scope Z_scope.

Definition is_digit (c : ascii) : bool :=
  let n := Z.of_N (N_of_ascii c) in (48 <=? n) && (n <=? 57).

Definition digit_value (c : ascii) : Z := Z.of_N (N_of_ascii c) - 48.

(** Reads decimal digits in front of [s]: the value accumulated on [acc],
    how many were read (added to [n]), and what follows them. *)
Fixpoint read_digits (s : string) (acc n : Z) : Z * Z * string :=
  match s with
  | String c rest =>
      if is_digit c then read_digits rest (10 * acc + digit_value c) (n + 1)
      else (acc, n, s)
  | EmptyString => (acc, n, s)
  end.

(** Length in bytes of the white space or line terminator in front of [s]. *)
Definition white_space_length (s : string) : nat :=
  let starts p := String.prefix p s in
  match s with
  | String c _ =>
      let n := Z.of_N (N_of_ascii c) in
      if (n =? 9) || (n =? 10) || (n =? 11) || (n =? 12) || (n =? 13) || (n =? 32)
      then 1%nat
      else if starts (String "194" (String "160" EmptyString))                        (* U+00A0 *)
      then 2%nat
      else if starts (String "225" (String "154" (String "128" EmptyString)))        (* U+1680 *)
              || starts (String "226" (String "128" (String "168" EmptyString)))     (* U+2028 *)
              || starts (String "226" (String "128" (String "169" EmptyString)))     (* U+2029 *)
              || starts (String "226" (String "128" (String "175" EmptyString)))     (* U+202F *)
              || starts (String "226" (String "129" (String "159" EmptyString)))     (* U+205F *)
              || starts (String "227" (String "128" (String "128" EmptyString)))     (* U+3000 *)
              || starts (String "239" (String "187" (String "191" EmptyString)))     (* U+FEFF *)
      then 3%nat
      else match s with
           | String "226" (String "128" (String c3 _)) =>                   (* U+2000..200A *)
               let n3 := Z.of_N (N_of_ascii c3) in
               if (128 <=? n3) && (n3 <=? 138) then 3%nat else 0%nat
           | _ => 0%nat
           end
  | EmptyString => 0%nat
  end.

Fixpoint drop_bytes (n : nat) (s : string) : string :=
  match n, s with
  | S n', String _ rest => drop_bytes n' rest
  | _, _ => s
  end.

Fixpoint trim_start_fuel (fuel : nat) (s : string) : string :=
  match fuel with
  | O => s
  | S fuel' =>
      match white_space_length s with
      | O => s
      | n => trim_start_fuel fuel' (drop_bytes n s)
      end
  end.

Definition trim_start (s : string) : string := trim_start_fuel (String.length s) s.

Inductive Literal : Type :=
| LitInfinity
| LitDecimal (mantissa exponent10 : Z).

(** [ExponentPart], when one is there. *)
Definition read_exponent (s : string) : Z * string :=
  match s with
  | String c rest =>
      if Ascii.eqb c "e" || Ascii.eqb c "E" then
        let '(neg, digits) :=
          match rest with
          | String "+" r => (false, r)
          | String "-" r => (true, r)
          | _ => (false, rest)
          end in
        let '(e, n, after) := read_digits digits 0 0 in
        if n =? 0 then (0, s) else (if neg : bool then - e else e, after)
      else (0, s)
  | EmptyString => (0, s)
  end.

(** The longest prefix of [s] that is a [StrUnsignedDecimalLiteral]. *)
Definition read_unsigned (s : string) : option (Literal * string) :=
  if String.prefix "Infinity" s then Some (LitInfinity, drop_bytes 8 s)
  else
    let '(i, ni, r1) := read_digits s 0 0 in
    let '(m, nf, r2) :=
      match r1 with
      | String "." r =>
          let '(m, nf, r2) := read_digits r i 0 in
          if (ni =? 0) && (nf =? 0) then (i, 0, r1) else (m, nf, r2)
      | _ => (i, 0, r1)
      end in
    if (ni =? 0) && (nf =? 0) then None
    else let '(e, r3) := read_exponent r2 in Some (LitDecimal m (e - nf), r3).

Definition read_signed (s : string) : option (bool * Literal * string) :=
  let '(neg, r) :=
    match s with
    | String "+" r => (false, r)
    | String "-" r => (true, r)
    | _ => (false, s)
    end in
  match read_unsigned r with
  | Some (lit, rest) => Some (neg, lit, rest)
  | None => None
  end.

(** The binary64 nearest to [m * 10 ^ e10] ([0 <= m]). *)
Definition round_decimal (neg : bool) (m e10 : Z) : number :=
  if m =? 0 then S754_zero neg
  else
    let bits := Z.log2 m + 1 in
    if 310 <=? e10 + (bits - 1) * 3 / 10 then S754_infinity neg
    else if e10 + bits / 3 + 1 <=? -330 then S754_zero neg
    else if 0 <=? e10 then binary_normalize 53 1024 ((if neg then -1 else 1) * m * 10 ^ e10) 0 neg
    else
      let '(q, e, loc) := SFdiv_core_binary 53 1024 m 0 (10 ^ (- e10)) 0 in
      binary_round_aux 53 1024 neg q e loc.

Definition number_of_literal (neg : bool) (lit : Literal) : number :=
  match lit with
  | LitInfinity => S754_infinity neg
  | LitDecimal m e10 => round_decimal neg m e10
  end.

Definition parse_float (s : string) : number :=
  match read_signed (trim_start s) with
  | Some (neg, lit, _) => number_of_literal neg lit
  | None => NaN
  end.

(** Digits of a [NonDecimalIntegerLiteral] in base [2 ^ shift]. *)
Definition radix_digit (c : ascii) : option Z :=
  let n := Z.of_N (N_of_ascii c) in
  if (48 <=? n) && (n <=? 57) then Some (n - 48)
  else if (97 <=? n) && (n <=? 102) then Some (n - 87)
  else if (65 <=? n) && (n <=? 70) then Some (n - 55)
  else None.

Fixpoint read_radix (base : Z) (s : string) (acc n : Z) : Z * Z * string :=
  match s with
  | String c rest =>
      match radix_digit c with
      | Some d => if d <? base then read_radix base rest (base * acc + d) (n + 1)
                  else (acc, n, s)
      | None => (acc, n, s)
      end
  | EmptyString => (acc, n, s)
  end.

Definition radix_of_prefix (s : string) : option (Z * string) :=
  match s with
  | String "0" (String c rest) =>
      if Ascii.eqb c "x" || Ascii.eqb c "X" then Some (16, rest)
      else if Ascii.eqb c "o" || Ascii.eqb c "O" then Some (8, rest)
      else if Ascii.eqb c "b" || Ascii.eqb c "B" then Some (2, rest)
      else None
  | _ => None
  end.

Definition only_white_space (s : string) : bool := String.eqb (trim_start s) EmptyString.

Definition string_to_number (s : string) : number :=
  let t := trim_start s in
  if String.eqb t EmptyString then S754_zero false
  else
    match radix_of_prefix t with
    | Some (base, digits) =>
        let '(v, n, rest) := read_radix base digits 0 0 in
        if (0 <? n) && only_white_space rest then binary_normalize 53 1024 v 0 false
        else NaN
    | None =>
        match read_signed t with
        | Some (neg, lit, rest) =>
            if only_white_space rest then number_of_literal neg lit else NaN
        | None => NaN
        end
    end.

(** *** Printing *)

Definition decimal_string (n : Z) : string :=
  NilEmpty.string_of_uint (N.to_uint (Z.to_N n)).

Fixpoint zeros (n : nat) : string :=
  match n with O => EmptyString | S n' => String "0" (zeros n') end.

(** [10 ^ a] as a fraction. *)
Definition pow10 (a : Z) : Z * Z := if 0 <=? a then (10 ^ a, 1) else (1, 10 ^ (- a)).
Definition pow2 (a : Z) : Z * Z := if 0 <=? a then (2 ^ a, 1) else (1, 2 ^ (- a)).

(** The least [n] from [start] on with [v < 10 ^ n], for [v = vn / vd]. *)
Fixpoint decimal_exponent (fuel : nat) (vn vd n : Z) : Z :=
  match fuel with
  | O => n
  | S fuel' =>
      let '(pn, pd) := pow10 n in
      if vn * pd <? vd * pn then n else decimal_exponent fuel' vn vd (n + 1)
  end.

(** Shortest digits of the positive number [m * 2 ^ e]: the digit string
    [s], its length being [k], and [n], such that [s * 10 ^ (n - k)] reads
    back as the number, with [k] least and [s] nearest.  Quantities are
    counted in units of [2 ^ (e - 2)], a quarter of the last place. *)
Fixpoint shortest_digits (fuel : nat) (m e n0 k : Z) : Z * Z :=
  let '(un, ud) := pow2 (e - 2) in
  let v := 4 * m in
  let hi := v + 2 in
  let lo := if (m =? 2 ^ 52) && (-1074 <? e) then v - 1 else v - 2 in
  let closed := Z.even m in
  let '(pn, pd) := pow10 (n0 - k) in
  let x := un * pd in
  let y := pn * ud in
  let inside c :=
    if closed then (lo * x <=? c * y) && (c * y <=? hi * x)
    else (lo * x <? c * y) && (c * y <? hi * x) in
  let c1 := (v * x) / y in
  let c2 := c1 + 1 in
  let pick c := if c =? 10 ^ k then (10 ^ (k - 1), n0 + 1) else (c, n0) in
  match fuel with
  | O => (c1, n0)
  | S fuel' =>
      match inside c1, inside c2 with
      | true, true =>
          match (v * x - c1 * y) ?= (c2 * y - v * x) with
          | Lt => pick c1
          | Gt => pick c2
          | Eq => if Z.even c1 then pick c1 else pick c2
          end
      | true, false => pick c1
      | false, true => pick c2
      | false, false => shortest_digits fuel' m e n0 (k + 1)
      end
  end.

Definition format_digits (s : string) (n : Z) : string :=
  let k := Z.of_nat (String.length s) in
  if (k <=? n) && (n <=? 21) then s +:+ zeros (Z.to_nat (n - k))
  else if (0 <? n) && (n <=? 21) then
    String.substring 0 (Z.to_nat n) s +:+ "." +:+
    String.substring (Z.to_nat n) (Z.to_nat (k - n)) s
  else if (-6 <? n) && (n <=? 0) then "0." +:+ zeros (Z.to_nat (- n)) +:+ s
  else
    let e := n - 1 in
    let exponent := (if e <? 0 then "e-" else "e+") +:+ decimal_string (Z.abs e) in
    if k =? 1 then s +:+ exponent
    else String.substring 0 1 s +:+ "." +:+
         String.substring 1 (Z.to_nat (k - 1)) s +:+ exponent.

Definition number_to_string (x : number) : string :=
  match x with
  | S754_nan => "NaN"
  | S754_zero _ => "0"
  | S754_infinity neg => if neg then "-Infinity" else "Infinity"
  | S754_finite neg m e =>
      let m := Z.pos m in
      let '(un, ud) := pow2 e in
      let estimate := (Z.log2 m + e) * 30103 / 100000 - 1 in
      let n0 := decimal_exponent 8 (m * un) ud estimate in
      let '(s, n) := shortest_digits 17 m e n0 1 in
      (if neg then "-" else EmptyString) +:+ format_digits (decimal_string s) n
  end.

Definition conversions : NumericConversions := {|
  parseFloat_string := parse_float;
  Number_toString := number_to_string;
  StringToNumber := string_to_number
|}.

End Reference.

(** ** Shapes of provider data *)

Definition is_primitive (v : JsVal) : bool :=
  match v with VArr _ | VObj _ => false | _ => true end.

(** A fare-detail record: an object whose [segmentId] is a string. *)
Definition is_fare_detail (fd : JsVal) : bool :=
  match fd with
  | VObj ps =>
      match lookup_prop "segmentId" ps with Some (VStr _) => true | _ => false end
  | _ => false
  end.

(** What the normaliser needs of a segment: an identifier that is not an
    object, and a departure and an arrival to read from. *)
Definition segment_ok (s : JsVal) : bool :=
  negb (nullish s) && is_primitive (prop s "id")
  && negb (nullish (prop s "departure")) && negb (nullish (prop s "arrival")).

(** A fare-detail entry that the resolver can walk: neither [null] nor
    [undefined], with a [segmentId] that converts to a property key. *)
Definition usable_entry `{NumericConversions} (fd : JsVal) : bool :=
  negb (nullish fd) && is_normal (ToPropertyKey (prop fd "segmentId")).

(** The attribution of a fare-detail entry is the entry's present fields,
    [null] standing for an absent one. *)
Definition presentOrNull (present : JsVal -> bool) (v : JsVal) : JsVal :=
  if present v then v else VNull.

(** The entry holds the field, whatever its value. *)
Definition held (v : JsVal) : bool :=
  match v with VUndef => false | _ => true end.

(** Follows the specification as worded: a field is present when the entry
    holds it. *)
Definition claimedAttribution (fd : JsVal) : JsVal :=
  VObj [ ("cabin", presentOrNull held (prop fd "cabin"));
         ("class", presentOrNull held (prop fd "class"));
         ("brandedFare", presentOrNull held (prop fd "brandedFare"));
         ("fareBasis", presentOrNull held (prop fd "fareBasis"));
         ("checkedBags",
           presentOrNull held (prop (prop fd "includedCheckedBags") "quantity")) ].

(** Follows the specification as amended: a textual member is present when
    it holds a truthy value (an empty string is not), the bag count when
    [includedCheckedBags.quantity] is neither [undefined] nor [null]. *)
Definition specAttribution (fd : JsVal) : JsVal :=
  VObj [ ("cabin", presentOrNull truthy (prop fd "cabin"));
         ("class", presentOrNull truthy (prop fd "class"));
         ("brandedFare", presentOrNull truthy (prop fd "brandedFare"));
         ("fareBasis", presentOrNull truthy (prop fd "fareBasis"));
         ("checkedBags",
           presentOrNull (fun q => negb (nullish q))
             (prop (prop fd "includedCheckedBags") "quantity")) ].

(** The part of an offer that the normaliser reads without a guard: a
    first itinerary with at least one segment, each of them [segment_ok],
    and a price whose total is not an object. *)
Definition itinerary_ok (offer : JsVal) : bool :=
  match prop (prop (prop offer "itineraries") "0") "segments" with
  | VArr (s0 :: rest) => forallb segment_ok (s0 :: rest)
  | _ => false
  end
  && negb (nullish (prop offer "price"))
  && is_primitive (prop (prop offer "price") "total").

Definition fare_details_ok (offer : JsVal) : bool :=
  match fareDetailsOf (prop offer "travelerPricings") with
  | VArr fds => forallb is_fare_detail fds
  | _ => false
  end.

Definition well_formed_offer (offer : JsVal) : bool :=
  itinerary_ok offer && fare_details_ok offer.

(** No traveler-pricing record at all, or a first one without fare-detail
    entries. *)
Definition lacks_fare_details (travelerPricings : JsVal) : Prop :=
  travelerPricings = VUndef \/ travelerPricings = VNull \/
  travelerPricings = VArr [] \/
  exists tp rest,
    travelerPricings = VArr (VObj tp :: rest) /\
    (lookup_prop "fareDetailsBySegment" tp = None \/
     lookup_prop "fareDetailsBySegment" tp = Some (VArr [])).

(** The five fare members of a normalised segment, or of an attribution. *)
Definition all_null_fare (v : JsVal) : Prop :=
  prop v "cabin" = VNull /\ prop v "class" = VNull /\
  prop v "brandedFare" = VNull /\ prop v "fareBasis" = VNull /\
  prop v "checkedBags" = VNull.

(** The five fare members of a normalised segment are all missing. *)
Definition all_undefined_fare (v : JsVal) : Prop :=
  prop v "cabin" = VUndef /\ prop v "class" = VUndef /\
  prop v "brandedFare" = VUndef /\ prop v "fareBasis" = VUndef /\
  prop v "checkedBags" = VUndef.

(** The normalised form of a segment, given the key its identifier
    converts to. *)
Definition normalizedSegment (segmentFareMap : FareMap)
    (s : JsVal) (key : string) : JsVal :=
  let fareInfo := member_or_else (fareLookup segmentFareMap key) fallbackFare in
  VObj [ ("from", prop (prop s "departure") "iataCode");
         ("to", prop (prop s "arrival") "iataCode");
         ("departureTime", prop (prop s "departure") "at");
         ("arrivalTime", prop (prop s "arrival") "at");
         ("carrier", prop s "carrierCode");
         ("flightNumber", prop s "number");
         ("cabin", member_prop fareInfo "cabin");
         ("class", member_prop fareInfo "class");
         ("brandedFare", member_prop fareInfo "brandedFare");
         ("fareBasis", member_prop fareInfo "fareBasis");
         ("checkedBags", member_prop fareInfo "checkedBags") ].

(** ** Vocabulary for the handler *)

(** A leg spec with a non-empty origin, destination and date. *)
Definition leg_valid (seg : JsVal) : bool :=
  truthy (prop seg "origin") && truthy (prop seg "destination")
  && truthy (prop seg "date").

Definition bearer (t : string) : string := "Bearer " +:+ t.

Section HandlerVocabulary.
Context `{NumericConversions}.

(** The provider call issued for the multi-city leg [seg]. *)
Definition searchEvent (t : string) (sh : Shared) (seg : JsVal) : Event :=
  OfferSearch (bearer t) (VObj (legParams sh seg)).

(** What the n-th search yields for query [params]: the provider's answer,
    normalised and filtered. *)
Definition replyOptions (up : Upstream) (sh : Shared) (t : string) (n : nat)
    (params : list (string * JsVal)) : Completion (list JsVal) :=
  data ← search_response up n (bearer t) (VObj params);
  normalizeOffers sh data.

(** The token call succeeds and its token can be spliced in the
    [Authorization] header as [t]. *)
Definition token_ok (up : Upstream) (token : JsVal) (t : string) : Prop :=
  (data ← token_response up; Get data "access_token") = Normal token /\
  ToString token = Normal t.

(** The request takes the single-leg branch. *)
Definition is_single (rq : Request) : bool :=
  strict_eq_string (tripType rq) "oneway" || strict_eq_string (tripType rq) "roundtrip".

(** The single-leg request passes validation. *)
Definition single_valid (rq : Request) : bool :=
  truthy (origin rq) && truthy (destination rq) && truthy (departureDate rq)
  && (if strict_eq_string (tripType rq) "roundtrip" then truthy (returnDate rq)
      else true).

(** The query of the single-leg branch. *)
Definition singleParams (rq : Request) : list (string * JsVal) :=
  let params :=
    [ ("originLocationCode", origin rq);
      ("destinationLocationCode", destination rq);
      ("departureDate", departureDate rq);
      ("adults", adults (shared rq));
      ("currencyCode", currency (shared rq));
      ("max", max (shared rq)) ] in
  add_optional (shared rq)
    (if strict_eq_string (tripType rq) "roundtrip"
     then set_prop "returnDate" (returnDate rq) params else params).

(** The success body of the single-leg branch. *)
Definition singleBody (rq : Request) (options : list JsVal) : JsVal :=
  VObj [ ("tripType", tripType rq);
         ("origin", origin rq);
         ("destination", destination rq);
         ("departureDate", departureDate rq);
         ("returnDate",
           if strict_eq_string (tripType rq) "roundtrip"
           then returnDate rq else VUndef);
         ("options", VArr options) ].

(** The success body of the multi-city branch. *)
Definition multiBody (rq : Request) (legs : list JsVal) : JsVal :=
  VObj [ ("tripType", VStr "multi");
         ("adults", adults (shared rq));
         ("currency", currency (shared rq));
         ("max", max (shared rq));
         ("maxPrice", or_else (maxPrice (shared rq)) VUndef);
         ("legs", VArr legs) ].

(** The request body without its property [k]. *)
Fixpoint remove_prop (k : string) (ps : list (string * JsVal))
  : list (string * JsVal) :=
  match ps with
  | [] => []
  | (k', v) :: rest =>
      if String.eqb k k' then remove_prop k rest else (k', v) :: remove_prop k rest
  end.

Definition without_prop (k : string) (v : JsVal) : JsVal :=
  match v with
  | VObj ps => VObj (remove_prop k ps)
  | _ => v
  end.

(** [normalizeOffers] with no budget filter. *)
Definition normalizeUnfiltered (data : JsVal) : Completion (list JsVal) :=
  offers ← Get data "data";
  offers ← array_elements "offers.map" (or_else offers (VArr []));
  map_array mapOfferToOption offers.

(** The three ways a request can go: rejected while reading the body, failed
    at the token call, or dispatched on its trip type. *)
Inductive HandlerRun (up : Upstream) (req_body : JsVal) : Prop :=
| BodyRejected e :
    destructure req_body = Throw e ->
    search_flights up req_body = ([], on_error e) ->
    HandlerRun up req_body
| TokenFailed rq e :
    destructure req_body = Normal rq ->
    (data ← token_response up; Get data "access_token") = Throw e ->
    search_flights up req_body = ([TokenRequest], on_error e) ->
    HandlerRun up req_body
| Dispatched rq token :
    destructure req_body = Normal rq ->
    (data ← token_response up; Get data "access_token") = Normal token ->
    search_flights up req_body = catch_errors (dispatch rq token up [TokenRequest]) ->
    HandlerRun up req_body.

End HandlerVocabulary.

(** Two settings of the shared fields that differ at most by falsy values
    of [maxPrice]. *)
Definition agree_but_maxPrice (sh sh' : Shared) : Prop :=
  adults sh = adults sh' /\ currency sh = currency sh' /\ max sh = max sh' /\
  travelClass sh = travelClass sh' /\
  truthy (maxPrice sh) = false /\ truthy (maxPrice sh') = false.

(** The leg entry [leg] answers leg spec [seg] at 1-based index [index]. *)
Definition leg_matches (index : nat) (seg leg : JsVal) : Prop :=
  prop leg "legIndex" = VNum (num_of_nat index) /\
  prop leg "origin" = prop seg "origin" /\
  prop leg "destination" = prop seg "destination" /\
  prop leg "date" = prop seg "date".

(** An offer with no itinerary, or whose first itinerary has no segment. *)
Definition lacks_segments (offer : JsVal) : Prop :=
  prop offer "itineraries" = VArr [] \/
  prop (prop (prop offer "itineraries") "0") "segments" = VArr [].

(** The request is turned down by validation (a nullish first leg, which
    makes the loop throw instead, is not counted). *)
Definition fails_validation (rq : Request) : bool :=
  if is_single rq then negb (single_valid rq)
  else if strict_eq_string (tripType rq) "multi" then
    match segments rq with
    | VArr (seg :: _) => negb (nullish seg) && negb (leg_valid seg)
    | _ => true
    end
  else true.

(** An Option's price is within the ceiling [c]. *)
Definition price_within (c : number) (o : JsVal) : bool :=
  match prop o "price" with
  | VNum p => num_le p c
  | _ => false
  end.

(** An Option, as far as the budget filter looks at it: an object carrying
    a numeric price. *)
Definition has_price (o : JsVal) : bool :=
  match o with
  | VObj _ => match prop o "price" with VNum _ => true | _ => false end
  | _ => false
  end.

(** ** Sample data *)

Module Samples.

Definition segment (id from to : string) : JsVal :=
  VObj [ ("id", VStr id); ("carrierCode", VStr "KU"); ("number", VStr "101");
         ("departure", VObj [("iataCode", VStr from); ("at", VStr "2025-06-01T10:00:00")]);
         ("arrival", VObj [("iataCode", VStr to); ("at", VStr "2025-06-01T12:00:00")]) ].

Definition businessFare : JsVal :=
  VObj [ ("segmentId", VStr "1"); ("cabin", VStr "BUSINESS") ].

Definition firstTraveler : list (string * JsVal) :=
  [ ("fareDetailsBySegment", VArr [businessFare]) ].

(** Price "542.30", one itinerary of two segments, one fare detail (for
    segment 1, cabin BUSINESS). *)
Definition offerWithFare : JsVal :=
  VObj [ ("id", VStr "1");
         ("price", VObj [("total", VStr "542.30"); ("currency", VStr "KWD")]);
         ("itineraries",
           VArr [VObj [ ("duration", VStr "PT5H");
                        ("segments", VArr [segment "1" "KWI" "DXB";
                                           segment "2" "DXB" "LHR"]) ]]);
         ("travelerPricings", VArr [VObj firstTraveler]) ].

(** An offer of one segment and no traveler pricing, with the given total. *)
Definition offerPriced (total : string) : JsVal :=
  VObj [ ("id", VStr "7");
         ("price", VObj [("total", VStr total); ("currency", VStr "KWD")]);
         ("itineraries",
           VArr [VObj [ ("duration", VStr "PT2H");
                        ("segments", VArr [segment "1" "KWI" "DXB"]) ]]) ].

(** An offer whose only itinerary has no segment. *)
Definition offerWithoutSegments : JsVal :=
  VObj [ ("id", VStr "9");
         ("price", VObj [("total", VStr "100"); ("currency", VStr "KWD")]);
         ("itineraries", VArr [VObj [ ("duration", VStr "PT0H"); ("segments", VArr []) ]]) ].

(** A provider that grants the token "tok" and answers every search with
    the given offers. *)
Definition provider (offers : list JsVal) : Upstream :=
  {| token_response := Normal (VObj [("access_token", VStr "tok")]);
     search_response := fun _ _ _ => Normal (VObj [("data", VArr offers)]) |}.

(** A provider whose token endpoint rejects the call. *)
Definition providerDown : Upstream :=
  {| token_response :=
       Throw (RequestError (VObj [("error", VStr "invalid_client")])
                           "Request failed with status code 401");
     search_response := fun _ _ _ => Normal (VObj [("data", VArr [])]) |}.

Definition leg (from to date : string) : JsVal :=
  VObj [ ("origin", VStr from); ("destination", VStr to); ("date", VStr date) ].

Definition oneway (maxPrice : JsVal) : JsVal :=
  VObj [ ("tripType", VStr "oneway"); ("origin", VStr "KWI");
         ("destination", VStr "DXB"); ("departureDate", VStr "2025-06-01");
         ("maxPrice", maxPrice) ].

Definition onewayNoDestination : JsVal :=
  VObj [ ("tripType", VStr "oneway"); ("origin", VStr "KWI");
         ("departureDate", VStr "2025-06-01") ].

Definition roundtrip : JsVal :=
  VObj [ ("tripType", VStr "roundtrip"); ("origin", VStr "KWI");
         ("destination", VStr "LHR"); ("departureDate", VStr "2025-07-01");
         ("returnDate", VStr "2025-07-15"); ("travelClass", VStr "BUSINESS") ].

Definition multi (legs : list JsVal) (maxPrice : JsVal) : JsVal :=
  VObj [ ("tripType", VStr "multi"); ("segments", VArr legs); ("maxPrice", maxPrice) ].

Definition twoLegs : list JsVal :=
  [ leg "KWI" "DXB" "2025-01-01"; leg "DXB" "LHR" "2025-01-05" ].

(** A leg spec with no destination and no date. *)
Definition legWithoutDate : JsVal := VObj [ ("origin", VStr "LHR") ].

(** An offer of one segment, with the given segment identifier and fare
    details in its first traveler-pricing record. *)
Definition offerWithDetails (id : string) (fareDetails : list JsVal) : JsVal :=
  VObj [ ("id", VStr "5");
         ("price", VObj [("total", VStr "120"); ("currency", VStr "KWD")]);
         ("itineraries",
           VArr [VObj [ ("duration", VStr "PT2H");
                        ("segments", VArr [segment id "KWI" "DXB"]) ]]);
         ("travelerPricings",
           VArr [VObj [("fareDetailsBySegment", VArr fareDetails)]]) ].

(** An offer of one segment with the given identifier and no traveler
    pricing. *)
Definition offerWithSegmentId (id : string) : JsVal :=
  VObj [ ("id", VStr "6");
         ("price", VObj [("total", VStr "120"); ("currency", VStr "KWD")]);
         ("itineraries",
           VArr [VObj [ ("duration", VStr "PT2H");
                        ("segments", VArr [segment id "KWI" "DXB"]) ]]) ].

(** A fare detail for segment 1 whose cabin is the empty string. *)
Definition emptyCabinFare : JsVal :=
  VObj [ ("segmentId", VStr "1"); ("cabin", VStr EmptyString) ].

Definition economyFare : JsVal :=
  VObj [ ("segmentId", VStr "1"); ("cabin", VStr "ECONOMY") ].

(** A fare detail whose segment identifier is [__proto__]. *)
Definition protoFare : JsVal :=
  VObj [ ("segmentId", VStr "__proto__"); ("cabin", VStr "ECONOMY") ].

(** An Option reduced to its price. *)
Definition pricedOption (price : Z) : JsVal := VObj [("price", VNum (num_of_Z price))].

End Samples.

(** ** Vocabulary for further properties *)

(** [b] holds under each of [keys] what [a] holds. *)
Definition same_fields (keys : list string) (a b : JsVal) : Prop :=
  Forall (fun k => prop b k = prop a k) keys.

Definition summaryFields : list string :=
  ["id"; "price"; "currency"; "duration"; "airline"].

Definition segmentFields : list string :=
  ["from"; "to"; "departureTime"; "arrivalTime"; "carrier"; "flightNumber"].

Definition offerFareFields : list string :=
  ["cabin"; "brandedFare"; "fareBasis"; "checkedBags"].

(** The normalised segment [s'] copies the itinerary segment [s]. *)
Definition segment_copied (s s' : JsVal) : Prop :=
  prop s' "from" = prop (prop s "departure") "iataCode" /\
  prop s' "to" = prop (prop s "arrival") "iataCode" /\
  prop s' "departureTime" = prop (prop s "departure") "at" /\
  prop s' "arrivalTime" = prop (prop s "arrival") "at" /\
  prop s' "carrier" = prop s "carrierCode" /\
  prop s' "flightNumber" = prop s "number".

(** The request body with property [k] set to [v]. *)
Definition with_prop (k : string) (v : JsVal) (body : JsVal) : JsVal :=
  match body with
  | VObj ps => VObj (set_prop k v ps)
  | _ => body
  end.

(** The defaults of the destructuring pattern of the handler. *)
Definition handlerDefaults : list (string * JsVal) :=
  [ ("tripType", VStr "oneway"); ("adults", VNum (num_of_Z 1));
    ("currency", VStr "KWD"); ("max", VNum (num_of_Z 5)) ].

(** The number of leg specs of a request. *)
Definition legCount (req_body : JsVal) : nat :=
  match prop req_body "segments" with
  | VArr legs => length legs
  | _ => 0
  end.

(** The request passes the validation of the earlier revision. *)
Definition appJs_valid (req_body : JsVal) : bool :=
  truthy (prop req_body "origin") && truthy (prop req_body "destination")
  && truthy (prop req_body "departureDate").

(** The query of the earlier revision. *)
Definition appJs_params (req_body : JsVal) : list (string * JsVal) :=
  [ ("originLocationCode", prop req_body "origin");
    ("destinationLocationCode", prop req_body "destination");
    ("departureDate", prop req_body "departureDate");
    ("adults", with_default (prop req_body "adults") (VNum (num_of_Z 1)));
    ("currencyCode", with_default (prop req_body "currency") (VStr "KWD"));
    ("max", with_default (prop req_body "max") (VNum (num_of_Z 5))) ].

(** A fare-detail list that the resolver cannot walk: not an array, or an
    array holding [null] or [undefined]. *)
Definition fare_details_unusable (fareDetails : JsVal) : bool :=
  match fareDetails with
  | VArr fds => existsb nullish fds
  | _ => true
  end.

(** The five fare members of a normalised segment. *)
Definition segmentFareFields : list string :=
  ["cabin"; "class"; "brandedFare"; "fareBasis"; "checkedBags"].

Definition elements_of (v : JsVal) : list JsVal :=
  match v with VArr l => l | _ => [] end.

(** The identifier [v] converts to a key that names no member inherited
    from [Object.prototype]. *)
Definition plain_key `{NumericConversions} (v : JsVal) : bool :=
  match ToPropertyKey v with
  | Normal key => negb (existsb (String.eqb key) inherited_names)
  | Throw _ => true
  end.

(** The identifiers under which the resolver of an offer is written (the
    [segmentId] of its fare details) and read (the [id] of the segments of
    its first itinerary) are plain keys. *)
Definition plain_identifiers `{NumericConversions} (offer : JsVal) : bool :=
  forallb (fun fd => plain_key (prop fd "segmentId"))
          (elements_of (fareDetailsOf (prop offer "travelerPricings")))
  && forallb (fun s => plain_key (prop s "id"))
             (elements_of (prop (prop (prop offer "itineraries") "0") "segments")).

(** The request field [k] is not read on the branch that [tripType]
    selects. *)
Definition unread_field (tripType : JsVal) (k : string) : bool :=
  if strict_eq_string tripType "oneway" then
    String.eqb k "returnDate" || String.eqb k "segments"
  else if strict_eq_string tripType "roundtrip" then String.eqb k "segments"
  else if strict_eq_string tripType "multi" then
    String.eqb k "origin" || String.eqb k "destination"
    || String.eqb k "departureDate" || String.eqb k "returnDate"
  else false.

(** What the earlier revision makes of a search answer. *)
Definition appJs_options `{NumericConversions} (data : JsVal) : Completion (list JsVal) :=
  offers ← Get data "data";
  offers ← array_elements "offers.map" (or_else offers (VArr []));
  map_array AppJs.mapOffer offers.

Module MoreSamples.

(** An offer whose fare-detail list holds [null]. *)
Definition offerWithNullFare : JsVal :=
  VObj [ ("id", VStr "3");
         ("price", VObj [("total", VStr "80"); ("currency", VStr "KWD")]);
         ("itineraries",
           VArr [VObj [ ("duration", VStr "PT2H");
                        ("segments", VArr [Samples.segment "1" "KWI" "DXB"]) ]]);
         ("travelerPricings",
           VArr [VObj [("fareDetailsBySegment", VArr [VNull])]]) ].

(** A provider that grants the token and rejects every search. *)
Definition providerRejecting : Upstream :=
  {| token_response := Normal (VObj [("access_token", VStr "tok")]);
     search_response := fun _ _ _ =>
       Throw (RequestError (VObj [("errors", VStr "quota")])
                           "Request failed with status code 429") |}.

(** A provider whose token answer holds no [access_token]. *)
Definition providerWithoutToken : Upstream :=
  {| token_response := Normal (VObj [("token_type", VStr "Bearer")]);
     search_response := fun _ _ _ => Normal (VObj [("data", VArr [])]) |}.

(** A request of the earlier revision's shape. *)
Definition onewayPlain : JsVal :=
  VObj [ ("origin", VStr "KWI"); ("destination", VStr "DXB");
         ("departureDate", VStr "2025-06-01") ].

(** The Option of [Samples.offerWithFare]. *)
Definition optionWithFare : JsVal :=
  match @mapOfferToOption Reference.conversions Samples.offerWithFare with
  | Normal option => option
  | Throw _ => VUndef
  end.

(** What the resolver holds for [Samples.offerWithFare]. *)
Definition fareMapWithFare : FareMap :=
  {| own := <["1" := fareAttribution Samples.businessFare]> ∅; prototype := None |}.

Definition quotaExceeded : JsError :=
  RequestError (VObj [("errors", VStr "quota")]) "Request failed with status code 429".

End MoreSamples.

(** * Properties *)

Ltac unfold_monad :=
  unfold mbind, mret, Run_bind, Run_ret, Completion_bind, Completion_ret, liftC in *.

(** ** The fare attribution resolver *)

Section Resolver.
Context `{NumericConversions}.

Lemma Get_inv v k x : Get v k = Normal x -> nullish v = false /\ x = prop v k.
Proof. unfold Get. destruct (nullish v); [done|]. by intros [= <-]. Qed.

Lemma array_elements_inv callee v l : array_elements callee v = Normal l -> v = VArr l.
Proof. destruct v; simpl; try done. by intros [= <-]. Qed.

Lemma fareAttribution_spec fd : fareAttribution fd = specAttribution fd.
Proof.
  unfold fareAttribution, fareMembers, specAttribution, presentOrNull, or_else,
    nullish_else.
  by destruct (nullish (prop (prop fd "includedCheckedBags") "quantity")).
Qed.

Lemma fare_detail_key fd :
  is_fare_detail fd = true ->
  exists id, Get fd "segmentId" = Normal (VStr id) /\ prop fd "segmentId" = VStr id.
Proof.
  destruct fd as [| | | | |?|ps]; simpl; try discriminate.
  unfold Get; simpl. destruct (lookup_prop "segmentId" ps) as [[]|]; try discriminate.
  eauto.
Qed.

Lemma forEach_fareDetails_total fds m :
  Forall (fun fd => is_fare_detail fd = true) fds ->
  exists m', forEach_fareDetails fds m = Normal m'.
Proof.
  intros Hfds. revert m. induction Hfds as [|fd fds Hfd _ IH]; intros m;
    cbn [forEach_fareDetails].
  - eauto.
  - destruct (fare_detail_key fd Hfd) as (id & -> & _). unfold_monad.
    cbn [ToPropertyKey ToString]. apply IH.
Qed.

(** The loop completes exactly on usable entries. *)
Lemma forEach_fareDetails_normal fds m :
  is_normal (forEach_fareDetails fds m) = forallb usable_entry fds.
Proof.
  revert m. induction fds as [|fd fds IH]; intros m; cbn [forEach_fareDetails forallb];
    [done|].
  unfold_monad. unfold usable_entry at 1, Get.
  destruct (nullish fd); [done|]. cbn [negb andb].
  destruct (ToPropertyKey (prop fd "segmentId")) as [key|]; [|done]. apply IH.
Qed.

Lemma forEach_fareDetails_app l1 l2 m :
  forEach_fareDetails (l1 ++ l2) m
  = (m1 ← forEach_fareDetails l1 m; forEach_fareDetails l2 m1).
Proof.
  revert m. induction l1 as [|fd l1 IH]; intros m; simpl; [done|].
  unfold_monad. destruct (Get fd "segmentId") as [segId|]; [|done].
  destruct (ToPropertyKey segId) as [key|]; [|done]. apply IH.
Qed.

Lemma own_fareMap_set_eq key members m :
  key <> "__proto__" -> own (fareMap_set key members m) !! key = Some (VObj members).
Proof.
  intros Hkey%String.eqb_neq. unfold fareMap_set. rewrite Hkey. cbn [own].
  apply lookup_insert_eq.
Qed.

Lemma own_fareMap_set_ne key key' members m :
  key <> key' -> own (fareMap_set key members m) !! key' = own m !! key'.
Proof.
  intros Hne. unfold fareMap_set. destruct (String.eqb key "__proto__"); cbn [own];
    [done|]. by apply lookup_insert_ne.
Qed.

Lemma own_fareMap_set_proto key members m :
  own (fareMap_set key members m) !! "__proto__" = own m !! "__proto__".
Proof.
  unfold fareMap_set. destruct (String.eqb key "__proto__") eqn:Hkey; cbn [own];
    [done|]. apply lookup_insert_ne. by apply String.eqb_neq.
Qed.

(** Entries for other segments leave the binding of [S] alone. *)
Lemma forEach_fareDetails_other S fds : forall m m',
  Forall (fun fd => ToPropertyKey (prop fd "segmentId") <> Normal S) fds ->
  forEach_fareDetails fds m = Normal m' ->
  own m' !! S = own m !! S.
Proof.
  induction fds as [|fd fds IH]; intros m m' Hne; cbn [forEach_fareDetails].
  - by intros [= ->].
  - unfold_monad. destruct (Get fd "segmentId") as [segId|] eqn:Hid; [|done].
    apply Get_inv in Hid as [_ ->].
    destruct (ToPropertyKey (prop fd "segmentId")) as [key|] eqn:Hkey; [|done].
    apply Forall_cons in Hne as [Hne1 Hne]. intros Hrun.
    rewrite (IH _ _ Hne Hrun). apply own_fareMap_set_ne. congruence.
Qed.

(** No entry binds [__proto__]. *)
Lemma forEach_fareDetails_proto fds : forall m m',
  forEach_fareDetails fds m = Normal m' ->
  own m' !! "__proto__" = own m !! "__proto__".
Proof.
  induction fds as [|fd fds IH]; intros m m'; cbn [forEach_fareDetails].
  - by intros [= ->].
  - unfold_monad. destruct (Get fd "segmentId") as [segId|]; [|done].
    destruct (ToPropertyKey segId) as [key|]; [|done]. intros Hrun.
    rewrite (IH _ _ Hrun). apply own_fareMap_set_proto.
Qed.

(** C1, as the code has it.  On an offer whose first traveler-pricing
    record lists the fare details [fds], the resolver completes exactly
    when every entry is usable: neither [null] nor [undefined], with a
    segment identifier that converts to a property key; otherwise it
    throws.  When it completes, every segment identifier [S] borne by an
    entry, [__proto__] apart, is a key of the mapping and reads as the five
    members built from the last entry [fd] bearing [S] (an earlier entry
    for [S] is overwritten): cabin, class, brandedFare and fareBasis are
    the entry's values when truthy and [null] otherwise, checkedBags is
    [includedCheckedBags.quantity] unless that is [undefined] or [null].
    The identifier [__proto__] is never a key. *)
Theorem resolver_maps_entry_fields (offer : JsVal) (fds : list JsVal) :
  nullish offer = false ->
  fareDetailsOf (prop offer "travelerPricings") = VArr fds ->
  (is_normal (segmentFareMapOf offer) = true <-> forallb usable_entry fds = true) /\
  forall segmentFareMap,
    segmentFareMapOf offer = Normal segmentFareMap ->
    own segmentFareMap !! "__proto__" = None /\
    forall before fd after S,
      fds = before ++ fd :: after ->
      ToPropertyKey (prop fd "segmentId") = Normal S ->
      Forall (fun fd' => ToPropertyKey (prop fd' "segmentId") <> Normal S) after ->
      S <> "__proto__" ->
      own segmentFareMap !! S = Some (specAttribution fd) /\
      fareLookup segmentFareMap S = Value (specAttribution fd).
Proof.
  intros Hoffer Hfds.
  assert (Hrun : segmentFareMapOf offer = forEach_fareDetails fds emptyFareMap).
  { unfold segmentFareMapOf, Get. rewrite Hoffer. unfold_monad. by rewrite Hfds. }
  rewrite Hrun. split; [by rewrite forEach_fareDetails_normal|].
  intros m Hm. split.
  { by rewrite (forEach_fareDetails_proto _ _ _ Hm). }
  intros before fd after S -> HS Hafter Hplain.
  rewrite forEach_fareDetails_app in Hm. unfold_monad.
  destruct (forEach_fareDetails before emptyFareMap) as [m1|]; [|done].
  cbn [forEach_fareDetails] in Hm. unfold_monad.
  destruct (Get fd "segmentId") as [segId|] eqn:Hid; [|done].
  apply Get_inv in Hid as [_ ->]. rewrite HS in Hm.
  assert (Hown : own m !! S = Some (specAttribution fd)).
  { rewrite (forEach_fareDetails_other S after _ _ Hafter Hm).
    rewrite own_fareMap_set_eq by done. f_equal. apply fareAttribution_spec. }
  split; [done|]. unfold fareLookup.
  apply String.eqb_neq in Hplain. by rewrite Hplain, Hown.
Qed.

End Resolver.

(** ** The offer normaliser *)

Section NormalizerFacts.
Context `{NumericConversions}.

Lemma Get_normal v k : nullish v = false -> Get v k = Normal (prop v k).
Proof. unfold Get. by intros ->. Qed.

Lemma Get_nullish v k : nullish v = true -> exists e, Get v k = Throw e.
Proof. unfold Get. intros ->. eauto. Qed.

Lemma prop_defined v k : prop v k <> VUndef -> nullish v = false.
Proof. destruct v; simpl; congruence. Qed.

Lemma prop_index0 x l : prop (VArr (x :: l)) "0" = x.
Proof. reflexivity. Qed.

Lemma prop_index0_nil : prop (VArr []) "0" = VUndef.
Proof. reflexivity. Qed.

Lemma ToString_primitive v :
  is_primitive v = true -> exists t, ToString v = Normal t.
Proof. destruct v; simpl; try discriminate; eauto. Qed.

Lemma segment_ok_inv s :
  segment_ok s = true ->
  nullish s = false /\ (exists key, ToPropertyKey (prop s "id") = Normal key) /\
  nullish (prop s "departure") = false /\ nullish (prop s "arrival") = false.
Proof.
  unfold segment_ok. rewrite !andb_true_iff, !negb_true_iff.
  intros [[[? ?] ?] ?]. repeat split; try done. by apply ToString_primitive.
Qed.

Lemma mapSegment_normal m s :
  segment_ok s = true ->
  exists key, ToPropertyKey (prop s "id") = Normal key /\
              mapSegment m s = Normal (normalizedSegment m s key).
Proof.
  intros (Hs & [key Hkey] & Hdep & Harr)%segment_ok_inv.
  exists key. split; [done|]. unfold mapSegment. unfold_monad.
  rewrite (Get_normal s) by done. cbv beta iota. rewrite Hkey. cbv beta iota.
  by rewrite !Get_normal.
Qed.

Lemma map_segments_normal m segs :
  Forall (fun s => segment_ok s = true) segs ->
  exists segs',
    map_array (mapSegment m) segs = Normal segs' /\
    Forall2 (fun s s' => exists key, ToPropertyKey (prop s "id") = Normal key /\
                                     s' = normalizedSegment m s key) segs segs'.
Proof.
  induction 1 as [|s segs Hs _ (segs' & IH & Hall)]; simpl.
  - exists []. by split.
  - destruct (mapSegment_normal m s Hs) as (key & Hkey & ->). unfold_monad.
    rewrite IH. eexists. split; [done|]. constructor; eauto.
Qed.

(** On an offer whose itinerary and price are in order the normaliser
    completes, once the resolver does. *)
Lemma mapOfferToOption_normal offer s0 rest m t :
  prop (prop (prop offer "itineraries") "0") "segments" = VArr (s0 :: rest) ->
  Forall (fun s => segment_ok s = true) (s0 :: rest) ->
  nullish (prop offer "price") = false ->
  ToString (prop (prop offer "price") "total") = Normal t ->
  segmentFareMapOf offer = Normal m ->
  exists key0 segs',
    ToPropertyKey (prop s0 "id") = Normal key0 /\
    Forall2 (fun s s' => exists key, ToPropertyKey (prop s "id") = Normal key /\
                                     s' = normalizedSegment m s key)
            (s0 :: rest) segs' /\
    mapOfferToOption offer =
      Normal (VObj [ ("id", prop offer "id");
                     ("price", VNum (parseFloat_string t));
                     ("currency", prop (prop offer "price") "currency");
                     ("duration", prop (prop (prop offer "itineraries") "0") "duration");
                     ("airline", prop s0 "carrierCode");
                     ("cabin", nullish_else (member_prop (fareLookup m key0) "cabin") VNull);
                     ("brandedFare",
                       nullish_else (member_prop (fareLookup m key0) "brandedFare") VNull);
                     ("fareBasis",
                       nullish_else (member_prop (fareLookup m key0) "fareBasis") VNull);
                     ("checkedBags",
                       nullish_else (member_prop (fareLookup m key0) "checkedBags") VNull);
                     ("segments", VArr segs') ]).
Proof.
  intros Hsegs Hok Hprice Htotal Hmap.
  assert (H1 : nullish (prop (prop offer "itineraries") "0") = false).
  { apply (prop_defined _ "segments"). by rewrite Hsegs. }
  assert (H2 : nullish (prop offer "itineraries") = false).
  { apply (prop_defined _ "0"). by destruct (prop (prop offer "itineraries") "0"). }
  assert (H3 : nullish offer = false).
  { apply (prop_defined _ "itineraries"). by destruct (prop offer "itineraries"). }
  destruct (map_segments_normal m _ Hok) as (segs' & Hmapseg & Hall).
  pose proof Hok as Hs0. apply Forall_cons in Hs0 as [Hs0 _].
  apply segment_ok_inv in Hs0 as (Hs0 & [key0 Hkey0] & _).
  exists key0, segs'. split; [done|]. split; [done|].
  unfold mapOfferToOption, parseFloat, firstSegmentFare. unfold_monad.
  rewrite (Get_normal offer) by done. cbv beta iota.
  rewrite (Get_normal (prop offer "itineraries")) by done. cbv beta iota.
  rewrite (Get_normal (prop (prop offer "itineraries") "0")), Hsegs, Hmap by done.
  cbv beta iota.
  rewrite !(Get_normal (prop offer "price")), Htotal by done. cbv beta iota.
  rewrite (Get_normal (VArr (s0 :: rest))), prop_index0 by done. cbv beta iota.
  rewrite (Get_normal s0), Hkey0 by done. cbv beta iota.
  simpl array_elements. cbv beta iota. by rewrite Hmapseg.
Qed.

Lemma forallb_Forall_true {A} (f : A -> bool) l :
  forallb f l = true -> Forall (fun x => f x = true) l.
Proof.
  induction l as [|x l IH]; simpl; [done|].
  intros [? ?]%andb_true_iff. constructor; auto.
Qed.

Lemma itinerary_ok_inv offer :
  itinerary_ok offer = true ->
  exists s0 rest t,
    prop (prop (prop offer "itineraries") "0") "segments" = VArr (s0 :: rest) /\
    Forall (fun s => segment_ok s = true) (s0 :: rest) /\
    nullish (prop offer "price") = false /\
    ToString (prop (prop offer "price") "total") = Normal t.
Proof.
  unfold itinerary_ok. rewrite !andb_true_iff, negb_true_iff.
  intros [[Hsegs Hprice] Htotal].
  destruct (prop (prop (prop offer "itineraries") "0") "segments")
    as [| | | | |[|s0 rest]|]; try discriminate.
  destruct (ToString_primitive _ Htotal) as [t Ht].
  exists s0, rest, t. repeat split; try done.
  by apply forallb_Forall_true.
Qed.

Lemma lacks_fare_details_empty tps :
  lacks_fare_details tps -> fareDetailsOf tps = VArr [].
Proof.
  intros [-> | [-> | [-> | (tp & rest & -> & [Hfd | Hfd])]]]; try reflexivity;
    unfold fareDetailsOf; cbn; by rewrite Hfd.
Qed.

Lemma fallbackFare_null : all_null_fare fallbackFare.
Proof. by repeat split. Qed.

(** An offer with no itinerary, or whose first itinerary has no segment,
    makes the normaliser throw. *)
Lemma mapOfferToOption_malformed offer :
  prop offer "itineraries" = VArr [] \/
  prop (prop (prop offer "itineraries") "0") "segments" = VArr [] ->
  exists e, mapOfferToOption offer = Throw e.
Proof.
  intros Hbad. unfold mapOfferToOption, firstSegmentFare. unfold_monad.
  destruct (Get offer "itineraries") as [its|e] eqn:Hits; [|eauto].
  assert (its = prop offer "itineraries") as ->.
  { unfold Get in Hits. destruct (nullish offer); congruence. }
  destruct Hbad as [Hbad | Hbad].
  - rewrite Hbad. cbn. eauto.
  - destruct (Get (prop offer "itineraries") "0") as [first|e] eqn:Hfirst; [|eauto].
    assert (first = prop (prop offer "itineraries") "0") as ->.
    { unfold Get in Hfirst. destruct (nullish (prop offer "itineraries")); congruence. }
    destruct (Get (prop (prop offer "itineraries") "0") "segments")
      as [segments|e] eqn:Hsegs; [|eauto].
    assert (segments = VArr []) as ->.
    { unfold Get in Hsegs.
      destruct (nullish (prop (prop offer "itineraries") "0")); congruence. }
    destruct (segmentFareMapOf offer); [|eauto].
    destruct (Get (prop offer "price") "total"); [|eauto].
    destruct (parseFloat _); [|eauto].
    destruct (Get (prop offer "price") "currency"); [|eauto].
    cbn. eauto.
Qed.

Lemma fareLookup_empty key : fareLookup emptyFareMap key = objectPrototype_member key.
Proof.
  unfold fareLookup. destruct (String.eqb key "__proto__") eqn:Hkey.
  - by apply String.eqb_eq in Hkey as ->.
  - cbn [own prototype emptyFareMap]. by rewrite lookup_empty.
Qed.

Lemma objectPrototype_member_null key f :
  nullish_else (member_prop (objectPrototype_member key) f) VNull = VNull.
Proof.
  unfold objectPrototype_member. by destruct (existsb _ _).
Qed.

(** The fare members of a segment normalised against the empty mapping. *)
Lemma normalizedSegment_empty s key :
  ToPropertyKey (prop s "id") = Normal key ->
  (plain_key (prop s "id") = true -> all_null_fare (normalizedSegment emptyFareMap s key)) /\
  (plain_key (prop s "id") = false ->
   all_undefined_fare (normalizedSegment emptyFareMap s key)).
Proof.
  intros Hkey. unfold plain_key, normalizedSegment. rewrite Hkey, fareLookup_empty.
  unfold objectPrototype_member.
  destruct (existsb (String.eqb key) inherited_names); split; intros Hplain;
    try discriminate Hplain; by repeat split.
Qed.

(** C7, as the code has it.  An offer with no traveler-pricing record, or
    whose first one has no fare-detail entry, gets the empty mapping from
    the resolver, and the normaliser still completes on it (its itinerary
    and price being in order).  The Option copies the identifier, currency
    and duration of the offer, holds the parsed total as price and the
    first segment's carrier as airline; its offer-level cabin, brandedFare,
    fareBasis and checkedBags are [null], and it has no offer-level class.
    It has one segment per segment of the itinerary, in order, each copying
    the airports, times, carrier and flight number; the five fare members
    of a segment are [null] when its identifier names no member inherited
    from [Object.prototype], and missing ([undefined]) when it does. *)
Theorem no_fare_details_all_null (offer : JsVal) :
  itinerary_ok offer = true ->
  lacks_fare_details (prop offer "travelerPricings") ->
  segmentFareMapOf offer = Normal emptyFareMap /\
  exists option segments segments' total,
    mapOfferToOption offer = Normal option /\
    ToString (prop (prop offer "price") "total") = Normal total /\
    prop option "id" = prop offer "id" /\
    prop option "price" = VNum (parseFloat_string total) /\
    prop option "currency" = prop (prop offer "price") "currency" /\
    prop option "duration" = prop (prop (prop offer "itineraries") "0") "duration" /\
    prop option "airline" = prop (prop (VArr segments) "0") "carrierCode" /\
    prop option "cabin" = VNull /\ prop option "brandedFare" = VNull /\
    prop option "fareBasis" = VNull /\ prop option "checkedBags" = VNull /\
    prop option "class" = VUndef /\
    prop (prop (prop offer "itineraries") "0") "segments" = VArr segments /\
    prop option "segments" = VArr segments' /\
    Forall2 (fun s s' =>
               segment_copied s s' /\
               (plain_key (prop s "id") = true -> all_null_fare s') /\
               (plain_key (prop s "id") = false -> all_undefined_fare s'))
            segments segments'.
Proof.
  intros (s0 & rest & t & Hsegs & Hok & Hprice & Htotal)%itinerary_ok_inv Hlacks.
  assert (Hoffer : nullish offer = false).
  { destruct offer; simpl in *; done. }
  assert (Hmap : segmentFareMapOf offer = Normal emptyFareMap).
  { unfold segmentFareMapOf. rewrite Get_normal by done. unfold_monad.
    by rewrite lacks_fare_details_empty. }
  split; [done|].
  destruct (mapOfferToOption_normal offer s0 rest emptyFareMap t
              Hsegs Hok Hprice Htotal Hmap) as (key0 & segs' & _ & Hall & ->).
  eexists _, (s0 :: rest), segs', t. split; [done|]. split; [done|].
  cbn [prop lookup_prop String.eqb Ascii.eqb Bool.eqb default].
  rewrite fareLookup_empty, !objectPrototype_member_null.
  do 12 (split; [done|]).
  clear -Hall. induction Hall as [|s s' l l' (key & Hkey & ->) _ IH];
    constructor; [|done].
  split; [by repeat split|]. by apply normalizedSegment_empty.
Qed.

End NormalizerFacts.

(** ** The budget filter *)

Section BudgetFilter.
Context `{NumericConversions}.

Lemma js_le_number p C c :
  ToNumber C = Normal c -> js_le (VNum p) C = Normal (num_le p c).
Proof.
  intros HC. unfold js_le, ToPrimitive, ToNumber in *. unfold_monad.
  destruct C; try (injection HC as <-; reflexivity).
  - destruct (ToString (VArr elems)); [|done]. by injection HC as <-.
  - destruct (ToString (VObj props)); [|done]. by injection HC as <-.
Qed.

(** With a ceiling that converts to the number [c], the filter keeps the
    Options whose numeric price is at most [c]. *)
Lemma budgetFilter_filter C c options :
  ToNumber C = Normal c ->
  Forall (fun o => has_price o = true) options ->
  budgetFilter C options = Normal (List.filter (price_within c) options).
Proof.
  intros HC. unfold budgetFilter. induction 1 as [|o options Ho _ IH]; [done|].
  simpl. unfold_monad. unfold has_price in Ho. unfold price_within.
  destruct o as [| | | | | |ps]; try done. rewrite Get_normal by done.
  destruct (prop (VObj ps) "price") as [| | |p| | |]; try done.
  rewrite (js_le_number p C c HC), IH. by destruct (num_le p c).
Qed.

(** [List.filter] keeps exactly the elements that pass, in their order: it
    is a sub-list, with the right members, and the largest such. *)
Lemma filter_exactly {A} (f : A -> bool) (l : list A) :
  List.filter f l `sublist_of` l /\
  (forall x, x ∈ List.filter f l <-> x ∈ l /\ f x = true) /\
  (forall l', l' `sublist_of` l -> Forall (fun x => f x = true) l' ->
              l' `sublist_of` List.filter f l).
Proof.
  split; [|split].
  - induction l as [|x l IH]; simpl; [done|].
    destruct (f x); by constructor.
  - intros x. rewrite !list_elem_of_In. apply List.filter_In.
  - intros l' Hsub. induction Hsub as [|x l1 l2 _ IH|x l1 l2 _ IH]; intros Hall.
    + apply sublist_nil_l.
    + apply Forall_cons in Hall as [Hx Hall]. simpl. rewrite Hx.
      constructor. by apply IH.
    + simpl. destruct (f x); [constructor|]; by apply IH.
Qed.

Lemma map_array_Forall {A} (f : JsVal -> Completion A) (P : A -> Prop) l l' :
  (forall x y, f x = Normal y -> P y) ->
  map_array f l = Normal l' -> Forall P l'.
Proof.
  intros Hf. revert l'. induction l as [|x l IH]; intros l'; simpl; unfold_monad.
  - by intros [= <-].
  - destruct (f x) as [y|] eqn:Hy; [|done].
    destruct (map_array f l) as [ys|]; [|done]. intros [= <-].
    constructor; eauto.
Qed.

Lemma parseFloat_number v x : parseFloat v = Normal x -> exists n, x = VNum n.
Proof.
  unfold parseFloat. unfold_monad. destruct (ToString v); [|done].
  intros [= <-]. eauto.
Qed.

Lemma mapOfferToOption_has_price offer option :
  mapOfferToOption offer = Normal option -> has_price option = true.
Proof.
  unfold mapOfferToOption. unfold_monad.
  repeat match goal with
         | |- context [match ?c with Normal _ => _ | Throw _ => _ end] =>
             destruct c eqn:?; [|discriminate]
         end.
  intros [= <-].
  match goal with
  | Hp : parseFloat _ = Normal _ |- _ => apply parseFloat_number in Hp as [n ->]
  end.
  reflexivity.
Qed.

Lemma normalizeUnfiltered_has_price data normalised :
  normalizeUnfiltered data = Normal normalised ->
  Forall (fun o => has_price o = true) normalised.
Proof.
  unfold normalizeUnfiltered. unfold_monad.
  destruct (Get data "data"); [|done]. destruct (array_elements _ _); [|done].
  apply map_array_Forall. apply mapOfferToOption_has_price.
Qed.

(** Under a truthy ceiling, the options of a leg are the normalised offers
    of the provider's answer, filtered. *)
Lemma normalizeOffers_filtered sh c data options :
  truthy (maxPrice sh) = true -> ToNumber (maxPrice sh) = Normal c ->
  normalizeOffers sh data = Normal options ->
  exists normalised,
    normalizeUnfiltered data = Normal normalised /\
    options = List.filter (price_within c) normalised.
Proof.
  intros Hm Hc. unfold normalizeOffers, normalizeUnfiltered. unfold_monad.
  rewrite Hm. destruct (Get data "data"); [|done].
  destruct (array_elements _ _); [|done].
  destruct (map_array mapOfferToOption _) as [normalised|] eqn:Hmap; [|done].
  rewrite (budgetFilter_filter _ c) by
    first [done | by eapply map_array_Forall, Hmap; apply mapOfferToOption_has_price].
  intros [= <-]. eauto.
Qed.

End BudgetFilter.

(** ** The handler, step by step *)

Section HandlerFacts.
Context `{NumericConversions}.

Lemma leg_valid_not_nullish seg : leg_valid seg = true -> nullish seg = false.
Proof. by destruct seg. Qed.

Lemma leg_check seg :
  negb (truthy (prop seg "origin")) || negb (truthy (prop seg "destination"))
  || negb (truthy (prop seg "date")) = negb (leg_valid seg).
Proof.
  unfold leg_valid.
  by destruct (truthy (prop seg "origin")), (truthy (prop seg "destination")),
       (truthy (prop seg "date")).
Qed.

Lemma fetchOptions_run token sh params up tr t :
  ToString token = Normal t ->
  fetchOptions token sh params up tr
  = (tr ++ [OfferSearch (bearer t) (VObj params)],
     replyOptions up sh t (length (searches tr)) params).
Proof.
  intros Ht. unfold fetchOptions, axios_get, replyOptions. unfold_monad.
  rewrite Ht. fold (bearer t).
  by destruct (search_response up _ _ _).
Qed.

Lemma fetchOptions_no_header token sh params up tr e :
  ToString token = Throw e ->
  fetchOptions token sh params up tr = (tr, Throw e).
Proof.
  intros Ht. unfold fetchOptions, axios_get. unfold_monad. by rewrite Ht.
Qed.

Lemma multiLegs_nullish token sh seg rest i legs up tr :
  nullish seg = true ->
  exists e, multiLegs token sh (seg :: rest) i legs up tr = (tr, Throw e).
Proof.
  intros Hseg. cbn [multiLegs]. unfold_monad. unfold Get. rewrite Hseg. eauto.
Qed.

Lemma multiLegs_invalid token sh seg rest i legs up tr :
  nullish seg = false -> leg_valid seg = false ->
  multiLegs token sh (seg :: rest) i legs up tr
  = (tr, Normal (inl (res_json 400 (error_body segment_error)))).
Proof.
  intros Hseg Hbad. cbn [multiLegs]. unfold_monad. rewrite Get_normal by done.
  cbv beta iota. by rewrite leg_check, Hbad.
Qed.

Lemma multiLegs_valid token sh seg rest i legs up tr t :
  leg_valid seg = true -> ToString token = Normal t ->
  multiLegs token sh (seg :: rest) i legs up tr
  = match replyOptions up sh t (length (searches tr)) (legParams sh seg) with
    | Normal legOptions =>
        multiLegs token sh rest (S i) (legs ++ [legEntry i seg legOptions]) up
          (tr ++ [searchEvent t sh seg])
    | Throw e => (tr ++ [searchEvent t sh seg], Throw e)
    end.
Proof.
  intros Hok Ht. pose proof (leg_valid_not_nullish _ Hok) as Hseg.
  cbn [multiLegs]. unfold_monad. rewrite Get_normal by done. cbv beta iota.
  rewrite leg_check, Hok. cbn [negb]. cbv beta iota.
  rewrite (fetchOptions_run _ _ _ _ _ t) by done. unfold searchEvent.
  by destruct (replyOptions up sh t _ _).
Qed.

Lemma multiLegs_no_header token sh seg rest i legs up tr e :
  leg_valid seg = true -> ToString token = Throw e ->
  multiLegs token sh (seg :: rest) i legs up tr = (tr, Throw e).
Proof.
  intros Hok Ht. pose proof (leg_valid_not_nullish _ Hok) as Hseg.
  cbn [multiLegs]. unfold_monad. rewrite Get_normal by done. cbv beta iota.
  rewrite leg_check, Hok. cbn [negb]. cbv beta iota.
  by rewrite (fetchOptions_no_header _ _ _ _ _ e).
Qed.

(** *** Query parameters *)

Lemma lookup_set_prop_eq k v ps : lookup_prop k (set_prop k v ps) = Some v.
Proof.
  induction ps as [|[k' v'] ps IH]; simpl.
  - by rewrite String.eqb_refl.
  - destruct (String.eqb k k') eqn:E; simpl; [by rewrite String.eqb_refl|].
    by rewrite E.
Qed.

Lemma lookup_set_prop_ne k k' v ps :
  k <> k' -> lookup_prop k' (set_prop k v ps) = lookup_prop k' ps.
Proof.
  intros Hne. induction ps as [|[k0 v0] ps IH]; simpl.
  - by apply String.eqb_neq in Hne as Hne'; rewrite String.eqb_sym, Hne'.
  - destruct (String.eqb k k0) eqn:E; simpl.
    + apply String.eqb_eq in E as <-.
      apply not_eq_sym, String.eqb_neq in Hne. by rewrite Hne.
    + by rewrite IH.
Qed.

Lemma add_optional_maxPrice sh ps :
  lookup_prop "maxPrice" (add_optional sh ps)
  = if truthy (maxPrice sh) then Some (maxPrice sh) else lookup_prop "maxPrice" ps.
Proof.
  unfold add_optional.
  destruct (truthy (travelClass sh)); [rewrite lookup_set_prop_ne by done|];
    (destruct (truthy (maxPrice sh)); [apply lookup_set_prop_eq|done]).
Qed.

Lemma add_optional_travelClass sh ps :
  lookup_prop "travelClass" (add_optional sh ps)
  = if truthy (travelClass sh) then Some (travelClass sh)
    else lookup_prop "travelClass" ps.
Proof.
  unfold add_optional.
  destruct (truthy (travelClass sh)); [apply lookup_set_prop_eq|].
  destruct (truthy (maxPrice sh)); [by rewrite lookup_set_prop_ne|done].
Qed.

Lemma add_optional_other sh ps k :
  k <> "maxPrice" -> k <> "travelClass" ->
  lookup_prop k (add_optional sh ps) = lookup_prop k ps.
Proof.
  intros H1 H2. unfold add_optional.
  destruct (truthy (travelClass sh)); [rewrite lookup_set_prop_ne by done|];
    (destruct (truthy (maxPrice sh)); [by rewrite lookup_set_prop_ne|done]).
Qed.

(** *** The trace of the multi-city loop *)

Lemma multiLegs_trace token sh t up segs :
  ToString token = Normal t ->
  forall i legs tr tr' c,
    multiLegs token sh segs i legs up tr = (tr', c) ->
    exists k, k <= length segs /\
              tr' = tr ++ (searchEvent t sh <$> take k segs).
Proof.
  intros Ht. induction segs as [|seg rest IH]; intros i legs tr tr' c Hrun.
  - exists 0. split; [done|]. simpl in *. unfold_monad.
    injection Hrun as <- _. by rewrite app_nil_r.
  - destruct (nullish seg) eqn:Hseg.
    { destruct (multiLegs_nullish token sh seg rest i legs up tr Hseg) as [e He].
      rewrite He in Hrun. injection Hrun as <- _.
      exists 0. split; [lia|]. by rewrite app_nil_r. }
    destruct (leg_valid seg) eqn:Hok.
    2:{ rewrite multiLegs_invalid in Hrun by done. injection Hrun as <- _.
        exists 0. split; [lia|]. by rewrite app_nil_r. }
    rewrite (multiLegs_valid _ _ _ _ _ _ _ _ t) in Hrun by done.
    destruct (replyOptions up sh t _ _) as [opts|e].
    + apply IH in Hrun as (k & Hk & ->). exists (S k). split; [simpl; lia|].
      by rewrite <- app_assoc.
    + injection Hrun as <- _. exists 1. split; [simpl; lia|]. done.
Qed.

Lemma multiLegs_trace_no_header token sh e up segs :
  ToString token = Throw e ->
  forall i legs tr tr' c,
    multiLegs token sh segs i legs up tr = (tr', c) -> tr' = tr.
Proof.
  intros Ht. destruct segs as [|seg rest]; intros i legs tr tr' c Hrun.
  - simpl in *. unfold_monad. by injection Hrun as <- _.
  - destruct (nullish seg) eqn:Hseg.
    { destruct (multiLegs_nullish token sh seg rest i legs up tr Hseg) as [e' He].
      rewrite He in Hrun. by injection Hrun as <- _. }
    destruct (leg_valid seg) eqn:Hok.
    + rewrite (multiLegs_no_header _ _ _ _ _ _ _ _ e) in Hrun by done.
      by injection Hrun as <- _.
    + rewrite multiLegs_invalid in Hrun by done. by injection Hrun as <- _.
Qed.

(** *** The handler as a whole *)

Lemma search_flights_run up req_body : HandlerRun up req_body.
Proof.
  destruct (destructure req_body) as [rq|e] eqn:Hrq.
  - destruct (data ← token_response up; Get data "access_token")
      as [token|e] eqn:Htoken.
    + eapply Dispatched; [done..|].
      unfold search_flights, search_flights_try, getAccessToken. unfold_monad.
      rewrite Hrq. cbv beta iota. simpl app. by rewrite Htoken.
    + eapply TokenFailed; [done..|].
      unfold search_flights, search_flights_try, getAccessToken. unfold_monad.
      rewrite Hrq. cbv beta iota. simpl app. by rewrite Htoken.
  - eapply BodyRejected; [done|].
    unfold search_flights, search_flights_try. unfold_monad. by rewrite Hrq.
Qed.

Lemma destructure_inv req_body rq :
  destructure req_body = Normal rq ->
  nullish req_body = false /\
  tripType rq = with_default (prop req_body "tripType") (VStr "oneway") /\
  origin rq = prop req_body "origin" /\
  destination rq = prop req_body "destination" /\
  departureDate rq = prop req_body "departureDate" /\
  returnDate rq = prop req_body "returnDate" /\
  segments rq = prop req_body "segments" /\
  maxPrice (shared rq) = prop req_body "maxPrice" /\
  travelClass (shared rq) = prop req_body "travelClass".
Proof.
  unfold destructure, Get. unfold_monad.
  destruct (nullish req_body); [done|]. intros [= <-]. by repeat split.
Qed.

Lemma destructure_shared req_body rq :
  destructure req_body = Normal rq -> shared rq = sharedFields req_body.
Proof.
  unfold destructure, Get. unfold_monad.
  destruct (nullish req_body); [done|]. intros [= <-]. by repeat split.
Qed.

(** *** The single-leg branch *)

Lemma singleLeg_invalid rq token up tr :
  single_valid rq = false ->
  exists message,
    singleLeg rq token up tr = (tr, Normal (res_json 400 (error_body message))).
Proof.
  unfold single_valid, singleLeg. unfold_monad.
  destruct (truthy (origin rq)), (truthy (destination rq)),
    (truthy (departureDate rq)); cbn [negb orb andb]; eauto.
  destruct (strict_eq_string (tripType rq) "roundtrip"); [|done].
  intros ->. cbn [negb]. eauto.
Qed.

Lemma singleLeg_valid rq token up tr :
  single_valid rq = true ->
  singleLeg rq token up tr
  = match fetchOptions token (shared rq) (singleParams rq) up tr with
    | (tr', Normal options) => (tr', Normal (res_json 200 (singleBody rq options)))
    | (tr', Throw e) => (tr', Throw e)
    end.
Proof.
  unfold single_valid, singleLeg, singleParams, singleBody. unfold_monad.
  destruct (truthy (origin rq)), (truthy (destination rq)),
    (truthy (departureDate rq)); cbn [negb orb andb]; try done.
  destruct (strict_eq_string (tripType rq) "roundtrip"); [intros ->|]; done.
Qed.

Lemma singleLeg_trace rq token up tr tr' c :
  singleLeg rq token up tr = (tr', c) ->
  tr' = tr /\ (single_valid rq = false \/ exists e, ToString token = Throw e) \/
  single_valid rq = true /\
  exists t, ToString token = Normal t /\
            tr' = tr ++ [OfferSearch (bearer t) (VObj (singleParams rq))].
Proof.
  destruct (single_valid rq) eqn:Hv.
  - rewrite singleLeg_valid by done.
    destruct (ToString token) as [t|e] eqn:Ht.
    + rewrite (fetchOptions_run _ _ _ _ _ t) by done.
      destruct (replyOptions _ _ _ _ _); intros [= <- _]; right; eauto.
    + rewrite (fetchOptions_no_header _ _ _ _ _ e) by done.
      intros [= <- _]. left. eauto.
  - destruct (singleLeg_invalid rq token up tr Hv) as [msg ->].
    intros [= <- _]. left. eauto.
Qed.

(** *** The multi-city branch *)

Lemma multiCity_trace rq token up tr tr' c :
  multiCity rq token up tr = (tr', c) ->
  tr' = tr \/
  exists t segs k,
    ToString token = Normal t /\ segments rq = VArr segs /\
    tr' = tr ++ (searchEvent t (shared rq) <$> take k segs).
Proof.
  unfold multiCity.
  destruct (segments rq) as [| | | | |[|seg rest]|] eqn:Hsegs;
    try (unfold_monad; intros [= <- _]; by left).
  unfold_monad.
  destruct (multiLegs token (shared rq) (seg :: rest) 0 [] up tr)
    as [tr1 c1] eqn:Hrun.
  intros Hout. assert (tr' = tr1) as ->.
  { destruct c1 as [[early|legs]|e]; by injection Hout as <- _. }
  destruct (ToString token) as [t|e] eqn:Ht.
  - destruct (multiLegs_trace token (shared rq) t up _ Ht _ _ _ _ _ Hrun)
      as (k & _ & ->).
    right. by exists t, (seg :: rest), k.
  - left. by eapply multiLegs_trace_no_header.
Qed.

(** *** Dispatch *)

Lemma catch_errors_trace r : (catch_errors r).1 = r.1.
Proof. by destruct r as [tr [resp|e]]. Qed.

Lemma dispatch_trace rq token up tr tr' c :
  dispatch rq token up tr = (tr', c) ->
  tr' = tr /\
  (is_single rq = true -> single_valid rq = true -> exists e, ToString token = Throw e) \/
  (is_single rq = true /\ single_valid rq = true /\
   exists t, ToString token = Normal t /\
             tr' = tr ++ [OfferSearch (bearer t) (VObj (singleParams rq))]) \/
  (is_single rq = false /\ strict_eq_string (tripType rq) "multi" = true /\
   exists t segs k,
     ToString token = Normal t /\ segments rq = VArr segs /\
     tr' = tr ++ (searchEvent t (shared rq) <$> take k segs)).
Proof.
  unfold dispatch. fold (is_single rq). destruct (is_single rq) eqn:Hs.
  - intros [[-> Hwhy] | Hrun]%singleLeg_trace.
    + left. split; [done|]. intros _ Hv. destruct Hwhy; [congruence|done].
    + right; left. by split.
  - destruct (strict_eq_string (tripType rq) "multi") eqn:Hm.
    + intros [-> | Hrun]%multiCity_trace; [by left|]. right; right. by split.
    + unfold_monad. intros [= <- _]. by left.
Qed.

Lemma roundtrip_tripType req_body rq :
  destructure req_body = Normal rq ->
  strict_eq_string (tripType rq) "roundtrip"
  = strict_eq_string (prop req_body "tripType") "roundtrip".
Proof.
  intros (_ & -> & _)%destructure_inv. by destruct (prop req_body "tripType").
Qed.

Lemma singleParams_returnDate rq :
  lookup_prop "returnDate" (singleParams rq)
  = if strict_eq_string (tripType rq) "roundtrip" then Some (returnDate rq) else None.
Proof.
  unfold singleParams. rewrite add_optional_other by done.
  destruct (strict_eq_string (tripType rq) "roundtrip"); [|done].
  apply lookup_set_prop_eq.
Qed.

Lemma singleParams_maxPrice rq :
  lookup_prop "maxPrice" (singleParams rq)
  = if truthy (maxPrice (shared rq)) then Some (maxPrice (shared rq)) else None.
Proof.
  unfold singleParams. rewrite add_optional_maxPrice.
  destruct (truthy (maxPrice (shared rq))); [done|].
  destruct (strict_eq_string (tripType rq) "roundtrip"); [|done].
  by rewrite lookup_set_prop_ne.
Qed.

Lemma singleParams_travelClass rq :
  lookup_prop "travelClass" (singleParams rq)
  = if truthy (travelClass (shared rq)) then Some (travelClass (shared rq)) else None.
Proof.
  unfold singleParams. rewrite add_optional_travelClass.
  destruct (truthy (travelClass (shared rq))); [done|].
  destruct (strict_eq_string (tripType rq) "roundtrip"); [|done].
  by rewrite lookup_set_prop_ne.
Qed.

Lemma legParams_maxPrice sh seg :
  lookup_prop "maxPrice" (legParams sh seg)
  = if truthy (maxPrice sh) then Some (maxPrice sh) else None.
Proof. unfold legParams. rewrite add_optional_maxPrice. by destruct (truthy _). Qed.

Lemma legParams_travelClass sh seg :
  lookup_prop "travelClass" (legParams sh seg)
  = if truthy (travelClass sh) then Some (travelClass sh) else None.
Proof. unfold legParams. rewrite add_optional_travelClass. by destruct (truthy _). Qed.

Lemma legParams_returnDate sh seg : lookup_prop "returnDate" (legParams sh seg) = None.
Proof. unfold legParams. by rewrite add_optional_other. Qed.

Lemma searches_app tr1 tr2 : searches (tr1 ++ tr2) = searches tr1 ++ searches tr2.
Proof. apply List.filter_app. Qed.

(** C9.  Every query sent to the provider carries [maxPrice] and
    [travelClass] only when the request has them, with the request's
    (truthy) value, so an absent optional field is left out and none is
    sent as null or empty; [returnDate] is in the query exactly for a
    round trip, which issues at most one search, and exactly one, carrying
    the request's return date, once validation and the token call pass. *)
Theorem optional_fields_and_roundtrip_query (up : Upstream) (req_body : JsVal) :
  let trace := (search_flights up req_body).1 in
  let roundtrip := strict_eq_string (prop req_body "tripType") "roundtrip" in
  (forall authorization params,
     OfferSearch authorization params ∈ trace ->
     exists ps, params = VObj ps /\
       (forall v, lookup_prop "maxPrice" ps = Some v ->
                  v = prop req_body "maxPrice" /\ truthy v = true) /\
       (forall v, lookup_prop "travelClass" ps = Some v ->
                  v = prop req_body "travelClass" /\ truthy v = true) /\
       lookup_prop "returnDate" ps
       = if roundtrip then Some (prop req_body "returnDate") else None) /\
  (roundtrip = true -> length (searches trace) <= 1) /\
  (forall token t,
     roundtrip = true ->
     truthy (prop req_body "origin") = true ->
     truthy (prop req_body "destination") = true ->
     truthy (prop req_body "departureDate") = true ->
     truthy (prop req_body "returnDate") = true ->
     token_ok up token t ->
     exists ps, searches trace = [OfferSearch (bearer t) (VObj ps)] /\
                lookup_prop "returnDate" ps = Some (prop req_body "returnDate")).
Proof.
  intros trace roundtrip. subst trace roundtrip.
  destruct (search_flights_run up req_body)
    as [e Hrq ->|rq e Hrq Htok ->|rq token Hrq Htok ->]; cbn [fst].
  - split; [intros ?? []%elem_of_nil|]. split; [simpl; lia|].
    intros token t Hrt. exfalso. unfold destructure, Get in Hrq. unfold_monad.
    destruct req_body; simpl in *; done.
  - split; [intros ?? [=]%list_elem_of_singleton|]. split; [simpl; lia|].
    intros token t _ _ _ _ _ [Htok' _]. congruence.
  - rewrite catch_errors_trace.
    destruct (dispatch rq token up [TokenRequest]) as [tr' c] eqn:Hrun.
    cbn [fst]. pose proof (roundtrip_tripType _ _ Hrq) as Hrt.
    pose proof (destructure_inv _ _ Hrq)
      as (_ & _ & Ho & Hd & Hdd & Hrd & _ & Hmp & Htc).
    assert (Hvalid : strict_eq_string (prop req_body "tripType") "roundtrip" = true ->
                     truthy (prop req_body "origin") = true ->
                     truthy (prop req_body "destination") = true ->
                     truthy (prop req_body "departureDate") = true ->
                     truthy (prop req_body "returnDate") = true ->
                     is_single rq = true /\ single_valid rq = true).
    { intros Hround Hvo Hvd Hvdd Hvrd. rewrite <- Hrt in Hround.
      unfold is_single, single_valid.
      rewrite Ho, Hd, Hdd, Hrd, Hvo, Hvd, Hvdd, Hvrd, Hround.
      split; [apply orb_true_r|done]. }
    apply dispatch_trace in Hrun
        as [[-> Hwhy] | [(Hs & Hv & t & Ht & ->)
                        | (Hs & Hm & t & segs & k & Ht & Hsegs & ->)]].
    + split; [intros ?? [=]%list_elem_of_singleton|]. split; [simpl; lia|].
      intros token' t' Hround Hvo Hvd Hvdd Hvrd [Htok' Ht'].
      destruct (Hvalid Hround Hvo Hvd Hvdd Hvrd) as [Hs Hv].
      destruct (Hwhy Hs Hv) as [e He]. congruence.
    + split; [|split].
      * intros a params [[=]%list_elem_of_singleton | Hin%list_elem_of_singleton]%elem_of_app.
        injection Hin as -> ->. eexists. split; [done|].
        rewrite singleParams_maxPrice, singleParams_travelClass,
          singleParams_returnDate, Hmp, Htc, Hrt, Hrd.
        split; [|split; [|done]].
        -- intros v. destruct (truthy (prop req_body "maxPrice")) eqn:E; [|done].
           by intros [= <-].
        -- intros v. destruct (truthy (prop req_body "travelClass")) eqn:E; [|done].
           by intros [= <-].
      * intros _. simpl. lia.
      * intros token' t' Hround _ _ _ _ [Htok' Ht'].
        assert (token' = token) as -> by congruence.
        assert (t' = t) as -> by congruence.
        eexists. split; [done|].
        by rewrite singleParams_returnDate, Hrt, Hround, Hrd.
    + assert (Hnot : strict_eq_string (prop req_body "tripType") "roundtrip" = false).
      { rewrite <- Hrt. unfold is_single in Hs. by apply orb_false_iff in Hs as [_ ?]. }
      rewrite Hnot. split; [|split; [done|done]].
      intros a params [[=]%list_elem_of_singleton | Hin]%elem_of_app.
      apply list_elem_of_fmap in Hin as (seg & Hev & _). unfold searchEvent in Hev.
      injection Hev as -> ->. eexists. split; [done|].
      rewrite legParams_maxPrice, legParams_travelClass, legParams_returnDate, Hmp, Htc.
      split; [|split; [|done]].
      * intros v. destruct (truthy (prop req_body "maxPrice")) eqn:E; [|done].
        by intros [= <-].
      * intros v. destruct (truthy (prop req_body "travelClass")) eqn:E; [|done].
        by intros [= <-].
Qed.

(** *** Results of the branches *)

Lemma multiCity_run rq token up tr :
  multiCity rq token up tr
  = match segments rq with
    | VArr (seg :: rest) =>
        match multiLegs token (shared rq) (seg :: rest) 0 [] up tr with
        | (tr', Normal (inl early)) => (tr', Normal early)
        | (tr', Normal (inr legs)) => (tr', Normal (res_json 200 (multiBody rq legs)))
        | (tr', Throw e) => (tr', Throw e)
        end
    | _ => (tr, Normal (res_json 400
              (error_body "segments array is required for multi-city searches")))
    end.
Proof.
  unfold multiCity, multiBody.
  destruct (segments rq) as [| | | | |[|seg rest]|]; try done.
  unfold_monad. by destruct (multiLegs _ _ _ _ _ _ _) as [tr' [[early|legs]|e]].
Qed.

Lemma multiLegs_early token sh up segs :
  forall i legs tr tr' early,
    multiLegs token sh segs i legs up tr = (tr', Normal (inl early)) ->
    early = res_json 400 (error_body segment_error).
Proof.
  induction segs as [|seg rest IH]; intros i legs tr tr' early Hrun.
  - simpl in Hrun. unfold_monad. done.
  - destruct (nullish seg) eqn:Hseg.
    { destruct (multiLegs_nullish token sh seg rest i legs up tr Hseg) as [e He].
      congruence. }
    destruct (leg_valid seg) eqn:Hok.
    2:{ rewrite multiLegs_invalid in Hrun by done. congruence. }
    destruct (ToString token) as [t|e] eqn:Ht.
    + rewrite (multiLegs_valid _ _ _ _ _ _ _ _ t) in Hrun by done.
      destruct (replyOptions up sh t _ _); [by eapply IH|done].
    + rewrite (multiLegs_no_header _ _ _ _ _ _ _ _ e) in Hrun by done. done.
Qed.

(** What the handler can answer. *)
Lemma dispatch_response rq token up tr tr' response :
  dispatch rq token up tr = (tr', Normal response) ->
  (exists message, response = res_json 400 (error_body message)) \/
  (is_single rq = true /\ exists options, response = res_json 200 (singleBody rq options)) \/
  (is_single rq = false /\ exists legs, response = res_json 200 (multiBody rq legs)).
Proof.
  unfold dispatch. fold (is_single rq). destruct (is_single rq) eqn:Hs.
  - destruct (single_valid rq) eqn:Hv.
    + rewrite singleLeg_valid by done.
      destruct (fetchOptions _ _ _ _ _) as [tr1 [options|e]]; [|done].
      intros [= <- <-]. right; left. eauto.
    + destruct (singleLeg_invalid rq token up tr Hv) as [msg ->].
      intros [= <- <-]. left. eauto.
  - destruct (strict_eq_string (tripType rq) "multi").
    + rewrite multiCity_run.
      destruct (segments rq) as [| | | | |[|seg rest]|];
        try (intros [= <- <-]; left; eauto).
      destruct (multiLegs _ _ _ _ _ _ _) as [tr1 [[early|legs]|e]] eqn:Hrun;
        [| |done].
      * intros [= <- <-]. left. apply multiLegs_early in Hrun. eauto.
      * intros [= <- <-]. right; right. eauto.
    + unfold_monad. intros [= <- <-]. left. eauto.
Qed.

(** *** A falsy [maxPrice] *)

Lemma lookup_remove_prop_eq k ps : lookup_prop k (remove_prop k ps) = None.
Proof.
  induction ps as [|[k' v] ps IH]; simpl; [done|].
  destruct (String.eqb k k') eqn:E; [done|]. simpl. by rewrite E.
Qed.

Lemma lookup_remove_prop_ne k k' ps :
  k <> k' -> lookup_prop k' (remove_prop k ps) = lookup_prop k' ps.
Proof.
  intros Hne. induction ps as [|[k0 v] ps IH]; simpl; [done|].
  destruct (String.eqb k k0) eqn:E; simpl.
  - apply String.eqb_eq in E as <-.
    apply not_eq_sym, String.eqb_neq in Hne. by rewrite Hne.
  - by rewrite IH.
Qed.

Lemma prop_without_eq k v : prop (without_prop k v) k = VUndef \/ prop (without_prop k v) k = prop v k.
Proof.
  destruct v; simpl; try by right. left. by rewrite lookup_remove_prop_eq.
Qed.

Lemma prop_without_ne k k' v : k <> k' -> prop (without_prop k v) k' = prop v k'.
Proof.
  intros Hne. destruct v; simpl; try done. by rewrite lookup_remove_prop_ne.
Qed.

Lemma nullish_without k v : nullish (without_prop k v) = nullish v.
Proof. by destruct v. Qed.

Lemma add_optional_agree sh sh' ps :
  agree_but_maxPrice sh sh' -> add_optional sh ps = add_optional sh' ps.
Proof.
  intros (_ & _ & _ & Htc & Hm & Hm'). unfold add_optional.
  by rewrite Hm, Hm', Htc.
Qed.

Lemma legParams_agree sh sh' seg :
  agree_but_maxPrice sh sh' -> legParams sh seg = legParams sh' seg.
Proof.
  intros Hagree. unfold legParams. rewrite (add_optional_agree sh sh') by done.
  destruct Hagree as (-> & -> & -> & _). done.
Qed.

Lemma normalizeOffers_unfiltered sh data :
  truthy (maxPrice sh) = false -> normalizeOffers sh data = normalizeUnfiltered data.
Proof.
  intros Hm. unfold normalizeOffers, normalizeUnfiltered. unfold_monad. rewrite Hm.
  destruct (Get data "data"); [|done]. destruct (array_elements _ _); [|done].
  by destruct (map_array _ _).
Qed.

Lemma fetchOptions_agree token sh sh' params up tr :
  agree_but_maxPrice sh sh' ->
  fetchOptions token sh params up tr = fetchOptions token sh' params up tr.
Proof.
  intros (_ & _ & _ & _ & Hm & Hm'). unfold fetchOptions. unfold_monad.
  destruct (axios_get _ _ _ _) as [tr' [data|e]]; [|done].
  by rewrite !normalizeOffers_unfiltered.
Qed.

Lemma multiLegs_agree token sh sh' up segs :
  agree_but_maxPrice sh sh' ->
  forall i legs tr,
    multiLegs token sh segs i legs up tr = multiLegs token sh' segs i legs up tr.
Proof.
  intros Hagree. induction segs as [|seg rest IH]; intros i legs tr; [done|].
  cbn [multiLegs]. unfold_monad.
  destruct (Get seg "origin") as [o|e]; [|done].
  destruct (negb (truthy o) || _ || _); [done|].
  rewrite (legParams_agree sh sh'), (fetchOptions_agree token sh sh') by done.
  destruct (fetchOptions _ _ _ _ _) as [tr' [opts|e]]; [apply IH|done].
Qed.

Lemma dispatch_agree rq rq' token up tr :
  tripType rq = tripType rq' -> origin rq = origin rq' ->
  destination rq = destination rq' -> departureDate rq = departureDate rq' ->
  returnDate rq = returnDate rq' -> segments rq = segments rq' ->
  agree_but_maxPrice (shared rq) (shared rq') ->
  dispatch rq token up tr = dispatch rq' token up tr.
Proof.
  destruct rq as [tt o d dd rd segs sh], rq' as [tt' o' d' dd' rd' segs' sh'].
  cbn [tripType origin destination departureDate returnDate segments shared].
  intros <- <- <- <- <- <- Hagree.
  unfold dispatch, singleLeg, multiCity.
  cbn [tripType origin destination departureDate returnDate segments shared].
  pose proof Hagree as (Ha & Hc & Hx & _ & Hm & Hm').
  rewrite <- Ha, <- Hc, <- Hx.
  destruct (_ || _).
  - destruct (_ || _ || _); [done|].
    destruct (if strict_eq_string tt "roundtrip" then _ else _) as [early|params]; [done|].
    unfold_monad.
    rewrite (add_optional_agree sh sh'), (fetchOptions_agree token sh sh') by done.
    done.
  - destruct (strict_eq_string tt "multi"); [|done].
    destruct segs as [| | | | |[|seg rest]|]; try done.
    unfold_monad. rewrite (multiLegs_agree token sh sh') by done.
    unfold or_else. by rewrite Hm, Hm'.
Qed.

Lemma destructure_without req_body rq :
  destructure req_body = Normal rq ->
  truthy (maxPrice (shared rq)) = false ->
  exists rq',
    destructure (without_prop "maxPrice" req_body) = Normal rq' /\
    tripType rq = tripType rq' /\ origin rq = origin rq' /\
    destination rq = destination rq' /\ departureDate rq = departureDate rq' /\
    returnDate rq = returnDate rq' /\ segments rq = segments rq' /\
    agree_but_maxPrice (shared rq) (shared rq').
Proof.
  unfold destructure, Get. unfold_monad. rewrite nullish_without.
  destruct (nullish req_body); [done|]. intros [= <-]. cbn [shared maxPrice].
  intros Hm. eexists. split; [done|].
  cbn [tripType origin destination departureDate returnDate segments shared].
  rewrite !(prop_without_ne "maxPrice") by done.
  repeat (split; [done|]). unfold agree_but_maxPrice, sharedFields.
  cbn [adults currency max travelClass maxPrice].
  rewrite !(prop_without_ne "maxPrice") by done.
  repeat (split; [done|]).
  by destruct (prop_without_eq "maxPrice" req_body) as [-> | ->].
Qed.

Lemma search_flights_without_maxPrice up req_body :
  truthy (prop req_body "maxPrice") = false ->
  search_flights up req_body = search_flights up (without_prop "maxPrice" req_body).
Proof.
  intros Hm. unfold search_flights, search_flights_try, getAccessToken. unfold_monad.
  destruct (destructure req_body) as [rq|e] eqn:Hrq.
  - assert (Hm' : truthy (maxPrice (shared rq)) = false).
    { by apply destructure_inv in Hrq as (_ & _ & _ & _ & _ & _ & _ & -> & _). }
    destruct (destructure_without _ _ Hrq Hm') as (rq' & -> & Hfields).
    cbv beta iota. destruct Hfields as (? & ? & ? & ? & ? & ? & ?).
    destruct (token_response up) as [data|e]; [|done].
    destruct (Get data "access_token") as [token|e]; [|done].
    by rewrite (dispatch_agree rq rq').
  - assert (destructure (without_prop "maxPrice" req_body) = Throw e) as ->; [|done].
    unfold destructure, Get in *. unfold_monad. rewrite nullish_without.
    by destruct (nullish req_body).
Qed.

(** The shapes of the response. *)
Lemma search_flights_response up req_body :
  (exists e, (search_flights up req_body).2 = on_error e) \/
  exists rq,
    destructure req_body = Normal rq /\
    ((exists message,
        (search_flights up req_body).2 = res_json 400 (error_body message)) \/
     (is_single rq = true /\ exists options,
        (search_flights up req_body).2 = res_json 200 (singleBody rq options)) \/
     (is_single rq = false /\ exists legs,
        (search_flights up req_body).2 = res_json 200 (multiBody rq legs))).
Proof.
  destruct (search_flights_run up req_body)
    as [e Hrq ->|rq e Hrq Htok ->|rq token Hrq Htok ->]; [left; eauto..|].
  destruct (dispatch rq token up [TokenRequest]) as [tr' [response|e]] eqn:Hrun;
    [|left; eauto].
  right. exists rq. split; [done|]. by eapply dispatch_response.
Qed.

(** The queries of a run are those of its branch. *)
Lemma search_flights_queries up req_body authorization params :
  OfferSearch authorization params ∈ (search_flights up req_body).1 ->
  exists rq,
    destructure req_body = Normal rq /\
    (params = VObj (singleParams rq) \/
     exists seg, params = VObj (legParams (shared rq) seg)).
Proof.
  destruct (search_flights_run up req_body)
    as [e Hrq ->|rq e Hrq Htok ->|rq token Hrq Htok ->]; cbn [fst].
  - intros []%elem_of_nil.
  - intros [=]%list_elem_of_singleton.
  - rewrite catch_errors_trace.
    destruct (dispatch rq token up [TokenRequest]) as [tr' c] eqn:Hrun. cbn [fst].
    apply dispatch_trace in Hrun
        as [[-> _] | [(_ & _ & t & _ & ->) | (_ & _ & t & segs & k & _ & _ & ->)]].
    + intros [=]%list_elem_of_singleton.
    + intros [[=]%list_elem_of_singleton | Hin%list_elem_of_singleton]%elem_of_app.
      injection Hin as -> ->. exists rq. split; [done|]. by left.
    + intros [[=]%list_elem_of_singleton | Hin]%elem_of_app.
      apply list_elem_of_fmap in Hin as (seg & Hev & _). unfold searchEvent in Hev.
      injection Hev as -> ->. exists rq. split; [done|]. right. eauto.
Qed.

(** C10.  A request whose [maxPrice] is falsy (0, null, false, the empty
    string, or absent) is handled exactly as the same request without that
    field: same provider calls, same response.  In particular no query
    carries [maxPrice], the options of a leg are all the normalised offers
    (no budget filter), and the response holds no [maxPrice] (a property
    holding [undefined] is left out of the JSON text). *)
Theorem falsy_maxPrice_as_absent (up : Upstream) (req_body : JsVal) :
  truthy (prop req_body "maxPrice") = false ->
  search_flights up req_body = search_flights up (without_prop "maxPrice" req_body) /\
  (forall authorization params,
     OfferSearch authorization params ∈ (search_flights up req_body).1 ->
     exists ps, params = VObj ps /\ lookup_prop "maxPrice" ps = None) /\
  (forall rq data,
     destructure req_body = Normal rq ->
     normalizeOffers (shared rq) data = normalizeUnfiltered data) /\
  prop (body (search_flights up req_body).2) "maxPrice" = VUndef.
Proof.
  intros Hm. split; [by apply search_flights_without_maxPrice|].
  assert (Hsh : forall rq, destructure req_body = Normal rq ->
                           truthy (maxPrice (shared rq)) = false).
  { intros rq Hrq.
    by apply destructure_inv in Hrq as (_ & _ & _ & _ & _ & _ & _ & -> & _). }
  split; [|split].
  - intros a params (rq & Hrq & [-> | [seg ->]])%search_flights_queries;
      eexists; (split; [done|]).
    + by rewrite singleParams_maxPrice, (Hsh rq).
    + by rewrite legParams_maxPrice, (Hsh rq).
  - intros rq data Hrq. by apply normalizeOffers_unfiltered, Hsh.
  - destruct (search_flights_response up req_body)
      as [[e ->] | (rq & Hrq & [[msg ->] | [(_ & opts & ->) | (_ & legs & ->)]])];
      try done.
    cbn. unfold or_else. by rewrite (Hsh rq).
Qed.

(** *** The multi-city loop on valid legs *)

Lemma searches_fmap_searchEvent t sh (l : list JsVal) :
  searches (searchEvent t sh <$> l) = (searchEvent t sh <$> l).
Proof.
  unfold searches. induction l as [|seg l IH]; [done|].
  rewrite fmap_cons. cbn [List.filter searchEvent is_search]. by rewrite IH.
Qed.

Lemma searches_snoc_search tr a params :
  length (searches (tr ++ [OfferSearch a params])) = S (length (searches tr)).
Proof. rewrite searches_app, length_app. simpl. lia. Qed.

(** When every leg is valid the loop either throws or pushes one entry per
    leg, in order: entry [j] is built from leg [j] and from the provider's
    answer to the search that the loop issued for it. *)
Lemma multiLegs_all_valid token sh t up segs :
  ToString token = Normal t ->
  Forall (fun seg => leg_valid seg = true) segs ->
  forall i legs tr tr' c,
    multiLegs token sh segs i legs up tr = (tr', c) ->
    (exists e, c = Throw e) \/
    exists news,
      c = Normal (inr (legs ++ news)) /\
      tr' = tr ++ (searchEvent t sh <$> segs) /\
      length news = length segs /\
      forall j seg, segs !! j = Some seg ->
        exists legOptions,
          news !! j = Some (legEntry (i + j) seg legOptions) /\
          replyOptions up sh t (length (searches tr) + j) (legParams sh seg)
          = Normal legOptions.
Proof.
  intros Ht Hvalid. induction Hvalid as [|seg rest Hok _ IH];
    intros i legs tr tr' c Hrun.
  - right. exists []. simpl in Hrun. unfold_monad. injection Hrun as <- <-.
    rewrite !app_nil_r. by repeat split.
  - rewrite (multiLegs_valid _ _ _ _ _ _ _ _ t) in Hrun by done.
    destruct (replyOptions up sh t _ _) as [opts|e] eqn:Hreply.
    2:{ left. injection Hrun as _ <-. eauto. }
    apply IH in Hrun as [Hthrow | (news & -> & -> & Hlen & Hnews)]; [by left|].
    right. exists (legEntry i seg opts :: news).
    rewrite <- !app_assoc. split; [done|]. split; [done|]. split; [simpl; lia|].
    intros [|j] seg' Hseg'; simpl in Hseg'.
    + injection Hseg' as <-. exists opts. rewrite !Nat.add_0_r. by split.
    + destruct (Hnews j seg' Hseg') as (opts' & Hlook & Hrep).
      exists opts'. split.
      * simpl. by rewrite <- Nat.add_succ_comm.
      * unfold searchEvent in Hrep. rewrite searches_snoc_search in Hrep.
        by rewrite <- Nat.add_succ_comm.
Qed.

Lemma multiLegs_completes token sh t up segs :
  ToString token = Normal t ->
  Forall (fun seg => leg_valid seg = true) segs ->
  (forall n params, is_normal (replyOptions up sh t n params) = true) ->
  forall i legs tr,
    exists tr' legs', multiLegs token sh segs i legs up tr = (tr', Normal (inr legs')).
Proof.
  intros Ht Hvalid Hreplies. induction Hvalid as [|seg rest Hok _ IH];
    intros i legs tr.
  - simpl. unfold_monad. eauto.
  - rewrite (multiLegs_valid _ _ _ _ _ _ _ _ t) by done.
    specialize (Hreplies (length (searches tr)) (legParams sh seg)).
    destruct (replyOptions up sh t _ _) as [opts|e]; [apply IH|done].
Qed.

Lemma legEntry_matches i seg legOptions : leg_matches (i + 1) seg (legEntry i seg legOptions).
Proof. by repeat split. Qed.

(** C8.  A multi-city request whose N leg specs are all valid is answered
    either by a failure (500) or by a success whose [legs] has exactly N
    entries, the i-th carrying [legIndex] i (counting from 1) and the
    origin, destination and date of the i-th leg spec; the success is what
    is answered when the token call succeeds and every search answer
    normalises. *)
Theorem multi_city_legs (up : Upstream) (req_body : JsVal) (segs : list JsVal) :
  prop req_body "tripType" = VStr "multi" ->
  prop req_body "segments" = VArr segs ->
  segs <> [] ->
  Forall (fun seg => leg_valid seg = true) segs ->
  let response := (search_flights up req_body).2 in
  (status response = 200 \/ status response = 500) /\
  (status response = 200 ->
   exists legs,
     prop (body response) "legs" = VArr legs /\
     length legs = length segs /\
     forall i seg, segs !! i = Some seg ->
       exists leg, legs !! i = Some leg /\ leg_matches (i + 1) seg leg) /\
  (forall token t,
     token_ok up token t ->
     (forall n params,
        is_normal (replyOptions up (sharedFields req_body) t n params) = true) ->
     status response = 200).
Proof.
  intros Htt Hsegs Hne Hvalid response. subst response.
  assert (Hbody : nullish req_body = false).
  { destruct req_body; simpl in *; done. }
  destruct (search_flights_run up req_body)
    as [e Hrq ->|rq e Hrq Htok ->|rq token Hrq Htok ->]; cbn [snd].
  { unfold destructure in Hrq. rewrite Get_normal in Hrq by done. done. }
  { split; [by right|]. split; [done|]. intros token t [Htok' _]. congruence. }
  pose proof (destructure_shared _ _ Hrq) as Hsh.
  apply destructure_inv in Hrq as (_ & Htt' & _ & _ & _ & _ & Hsegs' & _).
  rewrite Htt in Htt'. rewrite Hsegs in Hsegs'. cbn in Htt'.
  unfold dispatch. rewrite Htt'. cbn [strict_eq_string String.eqb Ascii.eqb Bool.eqb orb].
  rewrite multiCity_run, Hsegs'.
  destruct segs as [|seg rest]; [done|].
  destruct (multiLegs token (shared rq) (seg :: rest) 0 [] up [TokenRequest])
    as [tr' c] eqn:Hrun.
  destruct (ToString token) as [t|e] eqn:Ht.
  - destruct (multiLegs_all_valid token (shared rq) t up _ Ht Hvalid _ _ _ _ _ Hrun)
      as [[e ->] | (news & -> & _ & Hlen & Hnews)]; cbn [catch_errors snd status].
    + split; [by right|]. split; [done|]. intros token' t' [Htok' Ht'] Hreplies.
      assert (token' = token) as -> by congruence.
      assert (t' = t) as -> by congruence. rewrite <- Hsh in Hreplies.
      destruct (multiLegs_completes token (shared rq) t up _ Ht Hvalid Hreplies
                  0 [] [TokenRequest]) as (? & ? & Hdone).
      congruence.
    + split; [by left|]. split; [|done]. intros _. exists news.
      split; [done|]. split; [done|]. intros i seg' Hseg'.
      destruct (Hnews i seg' Hseg') as (opts & Hlook & _).
      eexists. split; [done|]. apply legEntry_matches.
  - rewrite (multiLegs_no_header _ _ _ _ _ _ _ _ e) in Hrun; [|by inversion Hvalid|done].
    injection Hrun as <- <-. cbn [catch_errors snd status].
    split; [by right|]. split; [done|]. intros token' t' [Htok' Ht'] _. congruence.
Qed.

(** *** The multi-city loop up to an invalid leg *)

Lemma multiLegs_first_invalid token sh up good bad rest :
  Forall (fun seg => leg_valid seg = true) good ->
  nullish bad = false -> leg_valid bad = false ->
  forall i legs tr tr' c,
    multiLegs token sh (good ++ bad :: rest) i legs up tr = (tr', c) ->
    length (searches tr') <= length (searches tr) + length good /\
    ((exists e, c = Throw e) \/
     c = Normal (inl (res_json 400 (error_body segment_error))) /\
     length (searches tr') = length (searches tr) + length good).
Proof.
  intros Hgood Hbad Hinvalid. induction Hgood as [|seg good Hok _ IH];
    intros i legs tr tr' c Hrun; cbn [app] in Hrun.
  - rewrite multiLegs_invalid in Hrun by done. injection Hrun as <- <-.
    simpl. split; [lia|]. right. split; [done|lia].
  - destruct (ToString token) as [t|e] eqn:Ht.
    + rewrite (multiLegs_valid _ _ _ _ _ _ _ _ t) in Hrun by done.
      destruct (replyOptions up sh t _ _) as [opts|e].
      * apply IH in Hrun as [Hle Hc]. unfold searchEvent in *.
        rewrite searches_snoc_search in *. simpl. split; [lia|].
        destruct Hc as [Hc | [Hc Hlen]]; [by left|right]. split; [done|lia].
      * injection Hrun as <- <-. unfold searchEvent.
        rewrite searches_snoc_search. simpl. split; [lia|]. left. eauto.
    + rewrite (multiLegs_no_header _ _ _ _ _ _ _ _ e) in Hrun by done.
      injection Hrun as <- <-. split; [lia|]. left. eauto.
Qed.

Lemma multiLegs_reaches_invalid token sh t up good bad rest :
  ToString token = Normal t ->
  Forall (fun seg => leg_valid seg = true) good ->
  nullish bad = false -> leg_valid bad = false ->
  (forall n params, is_normal (replyOptions up sh t n params) = true) ->
  forall i legs tr,
    exists tr', multiLegs token sh (good ++ bad :: rest) i legs up tr
                = (tr', Normal (inl (res_json 400 (error_body segment_error)))).
Proof.
  intros Ht Hgood Hbad Hinvalid Hreplies. induction Hgood as [|seg good Hok _ IH];
    intros i legs tr; cbn [app].
  - rewrite multiLegs_invalid by done. eauto.
  - rewrite (multiLegs_valid _ _ _ _ _ _ _ _ t) by done.
    specialize (Hreplies (length (searches tr)) (legParams sh seg)).
    destruct (replyOptions up sh t _ _) as [opts|e]; [apply IH|done].
Qed.

(** C5, as the code has it.  In a multi-city request whose first invalid leg
    spec comes after the valid ones [good], the loop validates each leg
    right before its own search: the searches issued are those of the first
    [k] legs of [good], in order, never one for the invalid leg or a later
    leg; the answer is a failure (500) or the validation error (400) with
    its fixed message, which names no index, and then all the legs of
    [good] were searched; no leg result is returned.  The validation error
    is what is answered when the token call and the searches of [good]
    succeed. *)
Theorem first_invalid_leg_aborts (up : Upstream) (req_body : JsVal)
    (good : list JsVal) (bad : JsVal) (rest : list JsVal) :
  prop req_body "tripType" = VStr "multi" ->
  prop req_body "segments" = VArr (good ++ bad :: rest) ->
  Forall (fun seg => leg_valid seg = true) good ->
  nullish bad = false -> leg_valid bad = false ->
  let trace := (search_flights up req_body).1 in
  let response := (search_flights up req_body).2 in
  (exists k t,
     k <= length good /\
     searches trace = (searchEvent t (sharedFields req_body) <$> take k good) /\
     (status response = 500 \/
      response = res_json 400 (error_body segment_error) /\ k = length good)) /\
  (forall token t,
     token_ok up token t ->
     (forall n params,
        is_normal (replyOptions up (sharedFields req_body) t n params) = true) ->
     response = res_json 400 (error_body segment_error)).
Proof.
  intros Htt Hsegs Hgood Hbad Hinvalid trace response. subst trace response.
  assert (Hbody : nullish req_body = false).
  { destruct req_body; simpl in *; done. }
  destruct (search_flights_run up req_body)
    as [e Hrq ->|rq e Hrq Htok ->|rq token Hrq Htok ->]; cbn [fst snd].
  { unfold destructure in Hrq. rewrite Get_normal in Hrq by done. done. }
  { split; [|intros token t [Htok' _]; congruence].
    exists 0, EmptyString. split; [lia|]. split; [done|by left]. }
  pose proof (destructure_shared _ _ Hrq) as Hsh.
  apply destructure_inv in Hrq as (_ & Htt' & _ & _ & _ & _ & Hsegs' & _).
  rewrite Htt in Htt'. rewrite Hsegs in Hsegs'. cbn in Htt'.
  unfold dispatch. rewrite Htt'. cbn [strict_eq_string String.eqb Ascii.eqb Bool.eqb orb].
  rewrite multiCity_run, Hsegs'.
  assert (Hcons : exists seg0 rest0, good ++ bad :: rest = seg0 :: rest0).
  { destruct good; simpl; eauto. }
  destruct Hcons as (seg0 & rest0 & Hcons). rewrite Hcons, <- Hcons.
  destruct (multiLegs token (shared rq) (good ++ bad :: rest) 0 [] up [TokenRequest])
    as [tr' c] eqn:Hrun.
  pose proof (multiLegs_first_invalid token (shared rq) up good bad rest
                Hgood Hbad Hinvalid _ _ _ _ _ Hrun) as [Hle Hc].
  cbn [searches List.filter is_search length Nat.add] in Hle, Hc.
  assert (Htrace : (catch_errors
                      match c with
                      | Normal (inl early) => (tr', Normal early)
                      | Normal (inr legs) =>
                          (tr', Normal (res_json 200 (multiBody rq legs)))
                      | Throw e => (tr', Throw e)
                      end).1 = tr').
  { by destruct c as [[early|legs]|e]. }
  rewrite Htrace. split.
  - assert (Hprefix : exists k t,
              k <= length good /\
              searches tr' = (searchEvent t (shared rq) <$> take k good) /\
              length (searches tr') = k).
    { destruct (ToString token) as [t|e] eqn:Ht.
      - destruct (multiLegs_trace token (shared rq) t up _ Ht _ _ _ _ _ Hrun)
          as (k & Hk & ->).
        rewrite searches_app, searches_fmap_searchEvent in Hle |- *.
        cbn [searches List.filter is_search app] in Hle |- *.
        rewrite length_fmap, length_take in Hle.
        exists k, t. split; [lia|]. split; [by rewrite take_app_le by lia|].
        rewrite length_fmap, length_take. lia.
      - rewrite (multiLegs_trace_no_header token (shared rq) e up _ Ht _ _ _ _ _ Hrun).
        exists 0, EmptyString. split; [lia|]. by split. }
    destruct Hprefix as (k & t & Hk & Hsearches & Hlen).
    exists k, t. rewrite <- Hsh. split; [done|]. split; [done|].
    destruct Hc as [[e ->] | [-> Hlen']]; [by left|right]. split; [done|lia].
  - intros token' t' [Htok' Ht'] Hreplies.
    assert (token' = token) as -> by congruence. rewrite <- Hsh in Hreplies.
    destruct (multiLegs_reaches_invalid token (shared rq) t' up good bad rest
                Ht' Hgood Hbad Hinvalid Hreplies 0 [] [TokenRequest]) as [tr'' Hdone].
    rewrite Hdone in Hrun. by injection Hrun as <- <-.
Qed.

(** *** A search answer that cannot be normalised *)

Lemma map_array_throws {A} (f : JsVal -> Completion A) l x :
  x ∈ l -> (exists e, f x = Throw e) -> exists e, map_array f l = Throw e.
Proof.
  intros Hin [e He]. induction Hin as [x l|x y l _ IH]; simpl; unfold_monad.
  - rewrite He. eauto.
  - destruct (f y); [|eauto]. destruct (IH He) as [e' ->]. eauto.
Qed.

Lemma normalizeOffers_throws sh data offers offer :
  prop data "data" = VArr offers -> offer ∈ offers ->
  (exists e, mapOfferToOption offer = Throw e) ->
  exists e, normalizeOffers sh data = Throw e.
Proof.
  intros Hdata Hin Hthrow. unfold normalizeOffers. unfold_monad.
  rewrite Get_normal, Hdata by (destruct data; simpl in *; done).
  cbn [or_else truthy array_elements].
  destruct (map_array_throws mapOfferToOption offers offer Hin Hthrow) as [e ->].
  eauto.
Qed.

Lemma multiLegs_bad_reply token sh t up n segs :
  ToString token = Normal t ->
  (forall params, exists e, replyOptions up sh t n params = Throw e) ->
  forall i legs tr tr' c,
    multiLegs token sh segs i legs up tr = (tr', c) ->
    length (searches tr) <= n < length (searches tr') ->
    exists e, c = Throw e.
Proof.
  intros Ht Hbad. induction segs as [|seg rest IH]; intros i legs tr tr' c Hrun Hn.
  - simpl in Hrun. unfold_monad. injection Hrun as <- _. lia.
  - destruct (nullish seg) eqn:Hseg.
    { destruct (multiLegs_nullish token sh seg rest i legs up tr Hseg) as [e He].
      rewrite He in Hrun. injection Hrun as <- _. lia. }
    destruct (leg_valid seg) eqn:Hok.
    2:{ rewrite multiLegs_invalid in Hrun by done. injection Hrun as <- _. lia. }
    rewrite (multiLegs_valid _ _ _ _ _ _ _ _ t) in Hrun by done.
    destruct (decide (length (searches tr) = n)) as [<- | Hne].
    + destruct (Hbad (legParams sh seg)) as [e He]. rewrite He in Hrun.
      injection Hrun as _ <-. eauto.
    + destruct (replyOptions up sh t _ _) as [opts|e].
      * eapply IH; [done|]. unfold searchEvent. rewrite searches_snoc_search. lia.
      * injection Hrun as _ <-. eauto.
Qed.

Lemma dispatch_bad_reply rq token up n tr tr' c :
  (forall authorization params,
     exists e, (data ← search_response up n authorization params;
                normalizeOffers (shared rq) data) = Throw e) ->
  dispatch rq token up tr = (tr', c) ->
  length (searches tr) <= n < length (searches tr') ->
  exists e, c = Throw e.
Proof.
  intros Hbad Hrun Hn.
  destruct (ToString token) as [t|e] eqn:Ht.
  2:{ apply dispatch_trace in Hrun
        as [[-> _] | [(_ & _ & t & Ht' & _) | (_ & _ & t & ? & ? & Ht' & _)]];
        [lia|congruence..]. }
  unfold dispatch in Hrun. fold (is_single rq) in Hrun.
  destruct (is_single rq).
  - destruct (single_valid rq) eqn:Hv.
    + rewrite singleLeg_valid, (fetchOptions_run _ _ _ _ _ t) in Hrun by done.
      assert (tr' = tr ++ [OfferSearch (bearer t) (VObj (singleParams rq))]) as ->.
      { destruct (replyOptions _ _ _ _ _); by injection Hrun as <- _. }
      rewrite searches_snoc_search in Hn.
      assert (length (searches tr) = n) as Hidx by lia. rewrite Hidx in Hrun.
      destruct (Hbad (bearer t) (VObj (singleParams rq))) as [e He].
      unfold replyOptions in Hrun. rewrite He in Hrun. injection Hrun as <-. eauto.
    + destruct (singleLeg_invalid rq token up tr Hv) as [msg Hmsg].
      rewrite Hmsg in Hrun. injection Hrun as <- _. lia.
  - destruct (strict_eq_string (tripType rq) "multi").
    2:{ unfold_monad. injection Hrun as <- _. lia. }
    rewrite multiCity_run in Hrun.
    destruct (segments rq) as [| | | | |[|seg rest]|];
      try (injection Hrun as <- _; lia).
    destruct (multiLegs token (shared rq) (seg :: rest) 0 [] up tr)
      as [tr1 c1] eqn:Hloop.
    assert (tr1 = tr') as ->.
    { destruct c1 as [[early|legs]|e]; by injection Hrun as <- _. }
    destruct (multiLegs_bad_reply token (shared rq) t up n _ Ht
                (fun params => Hbad (bearer t) (VObj params)) _ _ _ _ _ Hloop Hn)
      as [e ->].
    injection Hrun as <-. eauto.
Qed.

(** C6.  An offer with no itinerary, or whose first itinerary has no
    segment, makes the normaliser throw instead of returning an Option; a
    search answer that lists such an offer cannot be normalised, and a
    request for which the handler consumes such an answer is answered by
    the failure response (500). *)
Theorem offer_without_segments_fails (offer : JsVal) :
  lacks_segments offer ->
  (exists e, mapOfferToOption offer = Throw e) /\
  (forall sh data offers,
     prop data "data" = VArr offers -> offer ∈ offers ->
     exists e, normalizeOffers sh data = Throw e) /\
  (forall up req_body n,
     (forall authorization params,
        exists data offers,
          search_response up n authorization params = Normal data /\
          prop data "data" = VArr offers /\ offer ∈ offers) ->
     n < length (searches (search_flights up req_body).1) ->
     status (search_flights up req_body).2 = 500).
Proof.
  intros Hbad. pose proof (mapOfferToOption_malformed offer Hbad) as Hthrow.
  split; [done|]. split.
  - intros sh data offers Hdata Hin. by eapply normalizeOffers_throws.
  - intros up req_body n Hreply.
    destruct (search_flights_run up req_body)
      as [e Hrq ->|rq e Hrq Htok ->|rq token Hrq Htok ->]; cbn [fst snd];
      [simpl; lia..|].
    rewrite catch_errors_trace.
    destruct (dispatch rq token up [TokenRequest]) as [tr' c] eqn:Hrun.
    cbn [fst]. intros Hn.
    assert (Hbad' : forall authorization params,
               exists e, (data ← search_response up n authorization params;
                          normalizeOffers (shared rq) data) = Throw e).
    { intros a params. destruct (Hreply a params) as (data & offers & -> & Hd & Hin).
      by eapply normalizeOffers_throws. }
    destruct (dispatch_bad_reply rq token up n _ _ _ Hbad' Hrun) as [e ->];
      [simpl; lia|done].
Qed.

(** *** The budget filter in the handler *)

Lemma replyOptions_filtered up sh t n params c options :
  truthy (maxPrice sh) = true -> ToNumber (maxPrice sh) = Normal c ->
  replyOptions up sh t n params = Normal options ->
  exists data normalised,
    search_response up n (bearer t) (VObj params) = Normal data /\
    normalizeUnfiltered data = Normal normalised /\
    options = List.filter (price_within c) normalised.
Proof.
  intros Hm Hc. unfold replyOptions. unfold_monad.
  destruct (search_response up n _ _) as [data|]; [|done].
  intros (normalised & ? & ?)%(normalizeOffers_filtered _ c); eauto.
Qed.

Lemma multiLegs_completed_valid token sh up segs :
  forall i legs tr tr' legs',
    multiLegs token sh segs i legs up tr = (tr', Normal (inr legs')) ->
    Forall (fun seg => leg_valid seg = true) segs /\
    (segs = [] \/ exists t, ToString token = Normal t).
Proof.
  induction segs as [|seg rest IH]; intros i legs tr tr' legs' Hrun.
  - split; [done|by left].
  - destruct (nullish seg) eqn:Hseg.
    { destruct (multiLegs_nullish token sh seg rest i legs up tr Hseg) as [e He].
      congruence. }
    destruct (leg_valid seg) eqn:Hok.
    2:{ rewrite multiLegs_invalid in Hrun by done. congruence. }
    destruct (ToString token) as [t|e] eqn:Ht.
    + rewrite (multiLegs_valid _ _ _ _ _ _ _ _ t) in Hrun by done.
      destruct (replyOptions up sh t _ _); [|done].
      apply IH in Hrun as [Hrest _]. split; [by constructor|]. right. eauto.
    + rewrite (multiLegs_no_header _ _ _ _ _ _ _ _ e) in Hrun by done. done.
Qed.

(** C2, as the code has it.  On Options (objects with a numeric price) the
    budget filter with a ceiling that converts to the number [c] returns
    exactly the Options whose price is at most [c], in their original
    order.  Whenever the request supplies a truthy ceiling, the options of
    every leg in a successful response, single-leg or multi-city, are the
    normalised offers of the provider's answer for that leg put through
    this filter. *)
Theorem budget_filter_under_truthy_ceiling :
  (forall C c options,
     ToNumber C = Normal c ->
     Forall (fun o => has_price o = true) options ->
     exists kept,
       budgetFilter C options = Normal kept /\
       kept `sublist_of` options /\
       (forall o, o ∈ kept <-> o ∈ options /\ price_within c o = true) /\
       (forall l, l `sublist_of` options ->
                  Forall (fun o => price_within c o = true) l ->
                  l `sublist_of` kept)) /\
  (forall up req_body c,
     truthy (prop req_body "maxPrice") = true ->
     ToNumber (prop req_body "maxPrice") = Normal c ->
     let response := (search_flights up req_body).2 in
     status response = 200 ->
     (forall options,
        prop (body response) "options" = VArr options ->
        exists authorization params data normalised,
          search_response up 0 authorization params = Normal data /\
          normalizeUnfiltered data = Normal normalised /\
          options = List.filter (price_within c) normalised) /\
     (forall legs i leg,
        prop (body response) "legs" = VArr legs -> legs !! i = Some leg ->
        exists authorization params data normalised,
          search_response up i authorization params = Normal data /\
          normalizeUnfiltered data = Normal normalised /\
          prop leg "options" = VArr (List.filter (price_within c) normalised))).
Proof.
  split.
  { intros C c options HC Hopts. eexists. split; [by apply budgetFilter_filter|].
    apply filter_exactly. }
  intros up req_body c Hm Hc response. subst response.
  destruct (search_flights_run up req_body)
    as [e Hrq ->|rq e Hrq Htok ->|rq token Hrq Htok ->]; cbn [snd]; try done.
  pose proof (destructure_inv _ _ Hrq) as (_ & _ & _ & _ & _ & _ & _ & Hmp & _).
  rewrite <- Hmp in Hm, Hc.
  unfold dispatch. fold (is_single rq). destruct (is_single rq).
  - destruct (single_valid rq) eqn:Hv.
    2:{ by destruct (singleLeg_invalid rq token up [TokenRequest] Hv) as [msg ->]. }
    rewrite singleLeg_valid by done.
    destruct (ToString token) as [t|e] eqn:Ht.
    2:{ by rewrite (fetchOptions_no_header _ _ _ _ _ e). }
    rewrite (fetchOptions_run _ _ _ _ _ t) by done.
    destruct (replyOptions up (shared rq) t _ _) as [options|e] eqn:Hreply; [|done].
    cbn [catch_errors snd status body]. intros _. split; [|done].
    intros options' [= <-].
    destruct (replyOptions_filtered _ _ _ _ _ c _ Hm Hc Hreply)
      as (data & normalised & ? & ? & ?).
    by exists (bearer t), (VObj (singleParams rq)), data, normalised.
  - destruct (strict_eq_string (tripType rq) "multi"); [|done].
    rewrite multiCity_run.
    destruct (segments rq) as [| | | | |[|seg rest]|]; try done.
    destruct (multiLegs token (shared rq) (seg :: rest) 0 [] up [TokenRequest])
      as [tr' [[early|legs]|e]] eqn:Hrun; [|cbn [catch_errors snd status body]|done].
    { apply multiLegs_early in Hrun as ->. done. }
    intros _. split; [done|]. intros legs' i leg [= <-] Hleg.
    destruct (multiLegs_completed_valid _ _ _ _ _ _ _ _ _ Hrun)
      as [Hvalid [[=] | [t Ht]]].
    destruct (multiLegs_all_valid token (shared rq) t up _ Ht Hvalid _ _ _ _ _ Hrun)
      as [[e [=]] | (news & [= ->] & _ & Hlen & Hnews)].
    assert (Hi : i < length (seg :: rest)).
    { rewrite <- Hlen. by eapply lookup_lt_Some. }
    destruct (lookup_lt_is_Some_2 _ _ Hi) as [seg' Hseg'].
    destruct (Hnews i seg' Hseg') as (opts & Hlook & Hreply).
    assert (leg = legEntry (0 + i) seg' opts) as -> by congruence.
    destruct (replyOptions_filtered _ _ _ _ _ c _ Hm Hc Hreply)
      as (data & normalised & ? & ? & ->).
    by exists (bearer t), (VObj (legParams (shared rq) seg')), data, normalised.
Qed.

(** *** Well-formed offers *)

Lemma fare_details_ok_resolves offer :
  nullish offer = false -> fare_details_ok offer = true ->
  exists m, segmentFareMapOf offer = Normal m.
Proof.
  intros Hoffer Hfd. unfold segmentFareMapOf, fare_details_ok in *.
  rewrite Get_normal by done. unfold_monad.
  destruct (fareDetailsOf (prop offer "travelerPricings"))
    as [| | | | |fds|]; try done.
  apply forEach_fareDetails_total. by apply forallb_Forall_true.
Qed.

Lemma well_formed_normalizes offer :
  well_formed_offer offer = true ->
  exists t option,
    ToString (prop (prop offer "price") "total") = Normal t /\
    mapOfferToOption offer = Normal option /\
    prop option "price" = VNum (parseFloat_string t).
Proof.
  unfold well_formed_offer. intros [Hit Hfd]%andb_true_iff.
  apply itinerary_ok_inv in Hit as (s0 & rest & t & Hsegs & Hok & Hprice & Htotal).
  assert (Hoffer : nullish offer = false).
  { destruct offer; simpl in *; done. }
  destruct (fare_details_ok_resolves offer Hoffer Hfd) as [m Hm].
  destruct (mapOfferToOption_normal offer s0 rest m t Hsegs Hok Hprice Htotal Hm)
    as (key0 & segs' & _ & _ & ->).
  by eexists t, _.
Qed.

Lemma map_array_total {A} (f : JsVal -> Completion A) l :
  Forall (fun x => exists y, f x = Normal y) l ->
  exists l', map_array f l = Normal l' /\ Forall2 (fun x y => f x = Normal y) l l'.
Proof.
  induction 1 as [|x l [y Hy] _ (l' & IH & Hall)]; simpl; unfold_monad.
  - exists []. by split.
  - rewrite Hy, IH. eexists. split; [done|]. by constructor.
Qed.

Lemma normalizeUnfiltered_well_formed data offers offer option :
  prop data "data" = VArr offers ->
  Forall (fun o => well_formed_offer o = true) offers ->
  offer ∈ offers -> mapOfferToOption offer = Normal option ->
  exists options, normalizeUnfiltered data = Normal options /\ option ∈ options.
Proof.
  intros Hdata Hwf Hin Hopt. unfold normalizeUnfiltered. unfold_monad.
  rewrite Get_normal, Hdata by (destruct data; simpl in *; done).
  cbn [or_else truthy array_elements].
  destruct (map_array_total mapOfferToOption offers) as (options & -> & Hall).
  { eapply Forall_impl; [done|]. intros o (t & opt & _ & -> & _)%well_formed_normalizes.
    eauto. }
  exists options. split; [done|].
  apply list_elem_of_lookup in Hin as [i Hi].
  destruct (Forall2_lookup_l _ _ _ _ _ Hall Hi) as (y & Hy & Hfy).
  apply list_elem_of_lookup. exists i. congruence.
Qed.

(** C3, as the code has it.  An offer whose price string does not parse as a
    number does not make the request fail: the normaliser (no other defect
    being in the offer) emits its Option with the non-number NaN as the
    price, no default being put in its place.  Under a ceiling the budget
    filter drops that Option, NaN being within no ceiling; with no ceiling a
    single-leg request whose search answer lists the offer among well-formed
    ones is answered by a success (200) that carries the Option. *)
Theorem unparsable_price_is_emitted (offer : JsVal) (s : string) :
  well_formed_offer offer = true ->
  prop (prop offer "price") "total" = VStr s ->
  parseFloat_string s = NaN ->
  exists option,
    mapOfferToOption offer = Normal option /\
    prop option "price" = VNum NaN /\
    (forall C c, ToNumber C = Normal c -> budgetFilter C [option] = Normal []) /\
    (forall up req_body rq token t data offers,
       destructure req_body = Normal rq ->
       is_single rq = true -> single_valid rq = true ->
       truthy (prop req_body "maxPrice") = false ->
       token_ok up token t ->
       (forall authorization params,
          search_response up 0 authorization params = Normal data) ->
       prop data "data" = VArr offers ->
       Forall (fun o => well_formed_offer o = true) offers ->
       offer ∈ offers ->
       exists options,
         (search_flights up req_body).2 = res_json 200 (singleBody rq options) /\
         option ∈ options).
Proof.
  intros Hwf Htotal Hnan.
  destruct (well_formed_normalizes offer Hwf) as (t & option & Ht & Hopt & Hprice).
  rewrite Htotal in Ht. injection Ht as <-. rewrite Hnan in Hprice.
  exists option. split; [done|]. split; [done|]. split.
  - intros C c HC. rewrite (budgetFilter_filter C c) by
      first [done | constructor; [by eapply mapOfferToOption_has_price|done]].
    simpl. unfold price_within. rewrite Hprice. by destruct c.
  - intros up req_body rq token t data offers Hrq Hs Hv Hm [Htok Ht] Hreply
      Hdata Hall Hin.
    destruct (normalizeUnfiltered_well_formed data offers offer option
                Hdata Hall Hin Hopt) as (options & Hnorm & Hmem).
    exists options. split; [|done].
    destruct (search_flights_run up req_body)
      as [e Hrq' _|rq' e Hrq' Htok' _|rq' token' Hrq' Htok' ->]; try congruence.
    assert (rq' = rq) as -> by congruence.
    assert (token' = token) as -> by congruence.
    unfold dispatch. fold (is_single rq). rewrite Hs.
    rewrite singleLeg_valid, (fetchOptions_run _ _ _ _ _ t) by done.
    unfold replyOptions. rewrite Hreply. unfold_monad.
    rewrite normalizeOffers_unfiltered, Hnorm; [done|].
    by apply destructure_inv in Hrq as (_ & _ & _ & _ & _ & _ & _ & -> & _).
Qed.

(** *** Validation comes after the token call *)

Lemma validation_after_token up req_body rq :
  destructure req_body = Normal rq ->
  fails_validation rq = true ->
  (search_flights up req_body).1 = [TokenRequest] /\
  (forall token,
     (data ← token_response up; Get data "access_token") = Normal token ->
     exists message,
       (search_flights up req_body).2 = res_json 400 (error_body message)) /\
  (forall e,
     (data ← token_response up; Get data "access_token") = Throw e ->
     (search_flights up req_body).2 = on_error e).
Proof.
  intros Hrq Hfails.
  destruct (search_flights_run up req_body)
    as [e Hrq' _|rq' e Hrq' Htok' ->|rq' token' Hrq' Htok' ->]; try congruence;
    cbn [fst snd].
  { split; [done|]. split; [intros; congruence|]. intros e' He'. congruence. }
  assert (rq' = rq) as -> by congruence.
  assert (exists message,
            dispatch rq token' up [TokenRequest]
            = ([TokenRequest], Normal (res_json 400 (error_body message))))
    as [message ->].
  { unfold fails_validation in Hfails. unfold dispatch. fold (is_single rq).
    destruct (is_single rq).
    - apply singleLeg_invalid. by apply negb_true_iff.
    - destruct (strict_eq_string (tripType rq) "multi"); [|unfold_monad; eauto].
      rewrite multiCity_run.
      destruct (segments rq) as [| | | | |[|seg rest]|]; eauto.
      apply andb_true_iff in Hfails as [Hseg%negb_true_iff Hbad%negb_true_iff].
      rewrite multiLegs_invalid by done. eauto. }
  split; [done|]. split; [eauto|]. intros e He. congruence.
Qed.

End HandlerFacts.

(** ** The earlier revision validates first *)

Section AppJsFacts.
Context `{NumericConversions}.

Lemma AppJs_validation_before_token up req_body :
  nullish req_body = false ->
  truthy (prop req_body "origin") && truthy (prop req_body "destination")
  && truthy (prop req_body "departureDate") = false ->
  AppJs.search_flights up req_body
  = ([], res_json 400
           (error_body "origin, destination, and departureDate are required")).
Proof.
  intros Hbody Hmissing. unfold AppJs.search_flights, AppJs.search_flights_try.
  unfold_monad. rewrite Get_normal by done. cbv beta iota.
  destruct (truthy (prop req_body "origin")),
    (truthy (prop req_body "destination")),
    (truthy (prop req_body "departureDate")); done.
Qed.

End AppJsFacts.

(** * Further properties of the normaliser *)

Section NormalizerMore.
Context `{NumericConversions}.

Lemma mapSegment_inv m s s' :
  mapSegment m s = Normal s' ->
  exists key, nullish s = false /\ ToPropertyKey (prop s "id") = Normal key /\
              s' = normalizedSegment m s key.
Proof.
  unfold mapSegment. unfold_monad.
  destruct (Get s "id") as [id|] eqn:Hid; [|done].
  apply Get_inv in Hid as [Hs ->].
  destruct (ToPropertyKey (prop s "id")) as [key|]; [|done].
  destruct (Get (prop s "departure") "iataCode") as [from|] eqn:H1; [|done].
  destruct (Get (prop s "arrival") "iataCode") as [to|] eqn:H2; [|done].
  destruct (Get (prop s "departure") "at") as [dt|] eqn:H3; [|done].
  destruct (Get (prop s "arrival") "at") as [at'|] eqn:H4; [|done].
  apply Get_inv in H1 as [_ ->]. apply Get_inv in H2 as [_ ->].
  apply Get_inv in H3 as [_ ->]. apply Get_inv in H4 as [_ ->].
  intros [= <-]. by exists key.
Qed.

Lemma map_array_inv {A} (f : JsVal -> Completion A) l l' :
  map_array f l = Normal l' -> Forall2 (fun x y => f x = Normal y) l l'.
Proof.
  revert l'. induction l as [|x l IH]; intros l'; simpl; unfold_monad.
  - intros [= <-]. constructor.
  - destruct (f x) as [y|] eqn:Hy; [|done].
    destruct (map_array f l) as [ys|]; [|done]. intros [= <-].
    constructor; [done|]. by apply IH.
Qed.

(** What a completed normalisation tells about the offer and the Option. *)
Lemma mapOfferToOption_inv offer option :
  mapOfferToOption offer = Normal option ->
  exists s0 rest m t key0 segs',
    prop (prop (prop offer "itineraries") "0") "segments" = VArr (s0 :: rest) /\
    segmentFareMapOf offer = Normal m /\
    nullish (prop offer "price") = false /\
    ToString (prop (prop offer "price") "total") = Normal t /\
    ToPropertyKey (prop s0 "id") = Normal key0 /\
    Forall2 (fun s s' => mapSegment m s = Normal s') (s0 :: rest) segs' /\
    option =
      VObj [ ("id", prop offer "id");
             ("price", VNum (parseFloat_string t));
             ("currency", prop (prop offer "price") "currency");
             ("duration", prop (prop (prop offer "itineraries") "0") "duration");
             ("airline", prop s0 "carrierCode");
             ("cabin", nullish_else (member_prop (fareLookup m key0) "cabin") VNull);
             ("brandedFare",
               nullish_else (member_prop (fareLookup m key0) "brandedFare") VNull);
             ("fareBasis",
               nullish_else (member_prop (fareLookup m key0) "fareBasis") VNull);
             ("checkedBags",
               nullish_else (member_prop (fareLookup m key0) "checkedBags") VNull);
             ("segments", VArr segs') ].
Proof.
  unfold mapOfferToOption, parseFloat, firstSegmentFare. unfold_monad.
  destruct (Get offer "itineraries") as [its|] eqn:H1; [|done].
  apply Get_inv in H1 as [_ ->].
  destruct (Get (prop offer "itineraries") "0") as [first|] eqn:H2; [|done].
  apply Get_inv in H2 as [_ ->].
  destruct (Get (prop (prop offer "itineraries") "0") "segments")
    as [segments|] eqn:H3; [|done].
  apply Get_inv in H3 as [_ ->].
  destruct (segmentFareMapOf offer) as [m|]; [|done].
  destruct (Get (prop offer "price") "total") as [total|] eqn:H4; [|done].
  apply Get_inv in H4 as [Hprice ->].
  destruct (ToString (prop (prop offer "price") "total")) as [t|]; [|done].
  rewrite (Get_normal (prop offer "price")) by done. cbv beta iota.
  destruct (Get (prop (prop (prop offer "itineraries") "0") "segments") "0")
    as [s0|] eqn:H5; [|done].
  apply Get_inv in H5 as [_ ->].
  destruct (Get (prop (prop (prop (prop offer "itineraries") "0") "segments") "0") "id")
    as [id|] eqn:H6; [|done].
  apply Get_inv in H6 as [Hs0 ->].
  destruct (ToPropertyKey _) as [key0|] eqn:Hkey; [|done].
  destruct (array_elements _ _) as [segs|] eqn:Hsegs; [|done].
  apply array_elements_inv in Hsegs.
  destruct (map_array (mapSegment m) segs) as [segs'|] eqn:Hmap; [|done].
  apply map_array_inv in Hmap. intros [= <-].
  rewrite Hsegs in *.
  destruct segs as [|s0 rest]; [done|]. rewrite prop_index0 in *.
  by exists s0, rest, m, t, key0, segs'.
Qed.

Lemma normalizedSegment_copied m s key : segment_copied s (normalizedSegment m s key).
Proof. by repeat split. Qed.

(** *** The resolver's mapping *)

Lemma plain_key_inv v key :
  plain_key v = true -> ToPropertyKey v = Normal key ->
  existsb (String.eqb key) inherited_names = false /\ key <> "__proto__".
Proof.
  unfold plain_key. intros Hplain Hkey. rewrite Hkey in Hplain.
  apply negb_true_iff in Hplain. split; [done|]. intros ->. discriminate Hplain.
Qed.

Lemma plain_identifiers_inv offer :
  plain_identifiers offer = true ->
  (forall fds, fareDetailsOf (prop offer "travelerPricings") = VArr fds ->
     Forall (fun fd => plain_key (prop fd "segmentId") = true) fds) /\
  (forall segs, prop (prop (prop offer "itineraries") "0") "segments" = VArr segs ->
     Forall (fun s => plain_key (prop s "id") = true) segs).
Proof.
  unfold plain_identifiers. intros [Hfds Hsegs]%andb_true_iff. split.
  - intros fds Heq. rewrite Heq in Hfds. by apply forallb_Forall_true.
  - intros segs Heq. rewrite Heq in Hsegs. by apply forallb_Forall_true.
Qed.

Lemma forEach_fareDetails_bindings fds : forall m m',
  Forall (fun fd => plain_key (prop fd "segmentId") = true) fds ->
  forEach_fareDetails fds m = Normal m' ->
  prototype m' = prototype m /\
  (forall key, is_Some (own m !! key) -> is_Some (own m' !! key)) /\
  (forall fd, fd ∈ fds ->
     nullish fd = false /\
     exists key, ToPropertyKey (prop fd "segmentId") = Normal key /\
                 is_Some (own m' !! key)) /\
  (forall key v, own m' !! key = Some v ->
     own m !! key = Some v \/
     exists fd, fd ∈ fds /\ ToPropertyKey (prop fd "segmentId") = Normal key /\
                v = fareAttribution fd).
Proof.
  induction fds as [|fd fds IH]; intros m m' Hplain; cbn [forEach_fareDetails].
  - intros [= <-]. split; [done|]. split; [done|].
    split; [by intros fd []%elem_of_nil|]. eauto.
  - unfold_monad. destruct (Get fd "segmentId") as [segId|] eqn:Hid; [|done].
    apply Get_inv in Hid as [Hfd ->].
    destruct (ToPropertyKey (prop fd "segmentId")) as [k|] eqn:Hk; [|done].
    apply Forall_cons in Hplain as [Hplain1 Hplain].
    destruct (plain_key_inv _ _ Hplain1 Hk) as [_ Hproto].
    assert (Hset : fareMap_set k (fareMembers fd) m
                   = {| own := <[k := fareAttribution fd]> (own m);
                        prototype := prototype m |}).
    { unfold fareMap_set. apply String.eqb_neq in Hproto. by rewrite Hproto. }
    rewrite Hset.
    intros (Hprototype & Hkeep & Hlisted & Hvals)%IH; [|done].
    cbn [own prototype] in *. split; [done|]. split; [|split].
    + intros key Hkey. apply Hkeep.
      destruct (decide (k = key)) as [->|Hne];
        [by rewrite lookup_insert_eq | by rewrite lookup_insert_ne].
    + intros fd' [->|Hin]%elem_of_cons; [|auto].
      split; [done|]. exists k. split; [done|]. apply Hkeep.
      by rewrite lookup_insert_eq.
    + intros key v [Hold | (fd' & Hin & Hkey & ->)]%Hvals.
      * destruct (decide (k = key)) as [->|Hne].
        -- rewrite lookup_insert_eq in Hold. injection Hold as <-.
           right. exists fd. split; [left|done].
        -- rewrite lookup_insert_ne in Hold by done. by left.
      * right. exists fd'. split; [by right|done].
Qed.

Lemma segmentFareMapOf_inv offer m :
  segmentFareMapOf offer = Normal m ->
  exists fds,
    fareDetailsOf (prop offer "travelerPricings") = VArr fds /\
    forEach_fareDetails fds emptyFareMap = Normal m.
Proof.
  unfold segmentFareMapOf. unfold_monad.
  destruct (Get offer "travelerPricings") as [tps|] eqn:Htps; [|done].
  apply Get_inv in Htps as [_ ->].
  destruct (array_elements _ _) as [fds|] eqn:Hfds; [|done].
  apply array_elements_inv in Hfds. eauto.
Qed.

(** X1.  When the resolver completes on an offer with plain identifiers,
    the fare details it walked are an array of entries none of which is
    [null] or [undefined]; the prototype of the mapping is untouched, its
    keys are exactly the segment identifiers (as property keys) of those
    entries, and each key is bound to the attribution built from one of
    the entries bearing that identifier. *)
Theorem resolver_keys_and_values (offer : JsVal) (segmentFareMap : FareMap) :
  plain_identifiers offer = true ->
  segmentFareMapOf offer = Normal segmentFareMap ->
  exists fds,
    fareDetailsOf (prop offer "travelerPricings") = VArr fds /\
    Forall (fun fd => nullish fd = false) fds /\
    prototype segmentFareMap = None /\
    (forall key,
       is_Some (own segmentFareMap !! key) <->
       exists fd, fd ∈ fds /\ ToPropertyKey (prop fd "segmentId") = Normal key) /\
    (forall key v,
       own segmentFareMap !! key = Some v ->
       exists fd, fd ∈ fds /\ ToPropertyKey (prop fd "segmentId") = Normal key /\
                  v = fareAttribution fd).
Proof.
  intros [Hplain _]%plain_identifiers_inv (fds & Hfds & Hrun)%segmentFareMapOf_inv.
  apply forEach_fareDetails_bindings in Hrun as (Hproto & _ & Hlisted & Hvals);
    [|by apply Hplain].
  exists fds. split; [done|]. split; [|split; [done|split]].
  - apply Forall_forall. intros fd Hin. by destruct (Hlisted fd Hin).
  - intros key. split.
    + intros [v [Hempty | (fd & Hin & Hkey & _)]%Hvals]; [|eauto].
      cbn in Hempty. by rewrite lookup_empty in Hempty.
    + intros (fd & Hin & Hkey). destruct (Hlisted fd Hin) as (_ & key' & Hkey' & Hsome).
      congruence.
  - intros key v [Hempty | Hfd]%Hvals; [|done].
    cbn in Hempty. by rewrite lookup_empty in Hempty.
Qed.

(** *** Fare members of an Option *)

Lemma or_else_null_defined a : nullish_else (or_else a VNull) VNull = or_else a VNull.
Proof. unfold or_else. destruct (truthy a) eqn:Ha; [|done]. by destruct a. Qed.

Lemma nullish_else_idem a : nullish_else (nullish_else a VNull) VNull = nullish_else a VNull.
Proof. by destruct a. Qed.

(** Under a plain key a lookup only consults the own properties. *)
Lemma fareLookup_plain m key :
  prototype m = None -> existsb (String.eqb key) inherited_names = false ->
  fareLookup m key = Value (default VUndef (own m !! key)).
Proof.
  intros Hproto Hplain. unfold fareLookup, objectPrototype_member.
  assert (Hkey : String.eqb key "__proto__" = false).
  { destruct (String.eqb key "__proto__") eqn:Hkey; [|done].
    apply String.eqb_eq in Hkey as ->. discriminate Hplain. }
  rewrite Hkey, Hproto, Hplain. by destruct (own m !! key).
Qed.

(** The member [f] of what the resolver holds under a plain [key], read the
    offer-level way ([?.f ?? null]) and the segment-level way
    ([(... || fallbackFare).f]). *)
Lemma fare_member_readings m key f :
  prototype m = None -> existsb (String.eqb key) inherited_names = false ->
  (forall v, own m !! key = Some v -> exists fd, v = fareAttribution fd) ->
  f ∈ segmentFareFields ->
  nullish_else (member_prop (fareLookup m key) f) VNull
  = member_prop (member_or_else (fareLookup m key) fallbackFare) f /\
  member_prop (member_or_else (fareLookup m key) fallbackFare) f <> VUndef.
Proof.
  intros Hproto Hplain Hvals Hf. rewrite fareLookup_plain by done.
  cbn [member_prop member_or_else].
  assert (Hcases : f = "cabin" \/ f = "class" \/ f = "brandedFare" \/
                   f = "fareBasis" \/ f = "checkedBags").
  { unfold segmentFareFields in Hf.
    repeat (apply elem_of_cons in Hf as [->|Hf]; [tauto|]).
    by apply elem_of_nil in Hf. }
  destruct (own m !! key) as [v|] eqn:Hkey; simpl.
  - destruct (Hvals v eq_refl) as [fd ->].
    destruct Hcases as [->|[->|[->|[->| ->]]]]; cbn;
      rewrite ?or_else_null_defined, ?nullish_else_idem; (split; [done|]).
    all: try (unfold or_else; destruct (truthy _) eqn:Ha; [|done];
              intros Hu; by rewrite Hu in Ha).
    unfold nullish_else. by destruct (prop _ "quantity").
  - by destruct Hcases as [->|[->|[->|[->| ->]]]].
Qed.

(** What the resolver yields on an offer with plain identifiers. *)
Lemma segmentFareMapOf_plain offer m :
  plain_identifiers offer = true ->
  segmentFareMapOf offer = Normal m ->
  prototype m = None /\
  forall key v, own m !! key = Some v -> exists fd, v = fareAttribution fd.
Proof.
  intros [Hplain _]%plain_identifiers_inv (fds & Hfds & Hrun)%segmentFareMapOf_inv.
  apply forEach_fareDetails_bindings in Hrun as (Hproto & _ & _ & Hvals);
    [|by apply Hplain].
  split; [done|]. intros key v Hkey.
  destruct (Hvals key v Hkey) as [Hempty | (fd & _ & _ & ->)]; [|eauto].
  cbn in Hempty. by rewrite lookup_empty in Hempty.
Qed.

(** X2.  On an offer with plain identifiers, the cabin, branded fare, fare
    basis and checked bags that the Option shows at offer level are those
    of its first segment. *)
Theorem offer_fare_is_first_segment_fare (offer option : JsVal) :
  plain_identifiers offer = true ->
  mapOfferToOption offer = Normal option ->
  exists first rest,
    prop option "segments" = VArr (first :: rest) /\
    same_fields offerFareFields first option.
Proof.
  intros Hplain
    (s0 & rest & m & t & key0 & segs' & Hitin & Hm & _ & _ & Hkey & Hsegs & ->)
    %mapOfferToOption_inv.
  destruct (segmentFareMapOf_plain _ _ Hplain Hm) as [Hproto Hvals].
  apply plain_identifiers_inv in Hplain as [_ Hids].
  specialize (Hids _ Hitin). apply Forall_cons in Hids as [Hid0 _].
  destruct (plain_key_inv _ _ Hid0 Hkey) as [Hkey0 _].
  apply Forall2_cons_inv_l in Hsegs as (first & rest' & Hfirst & _ & ->).
  apply mapSegment_inv in Hfirst as (key & _ & Hkey' & ->).
  assert (key = key0) as -> by congruence.
  exists (normalizedSegment m s0 key0), rest'. split; [done|].
  assert (Hfare : forall f, f ∈ segmentFareFields ->
            nullish_else (member_prop (fareLookup m key0) f) VNull
            = member_prop (member_or_else (fareLookup m key0) fallbackFare) f).
  { intros f Hf. eapply fare_member_readings; [done..| |done]. apply Hvals. }
  unfold same_fields, offerFareFields, normalizedSegment.
  repeat constructor; cbn; apply Hfare; unfold segmentFareFields; repeat constructor.
Qed.

(** X3.  An Option follows the first itinerary of its offer: one normalised
    segment per itinerary segment, in the same order, each copying the
    airports, times, carrier and flight number of its segment; the
    identifier, currency and duration are the offer's, the airline is the
    carrier of the first segment, and the price is the number that
    [parseFloat] reads in the total. *)
Theorem option_follows_first_itinerary (offer option : JsVal) :
  mapOfferToOption offer = Normal option ->
  exists segments segments' total,
    prop (prop (prop offer "itineraries") "0") "segments" = VArr segments /\
    prop option "segments" = VArr segments' /\
    Forall2 segment_copied segments segments' /\
    prop option "id" = prop offer "id" /\
    prop option "currency" = prop (prop offer "price") "currency" /\
    prop option "duration" = prop (prop (prop offer "itineraries") "0") "duration" /\
    prop option "airline" = prop (prop (VArr segments) "0") "carrierCode" /\
    ToString (prop (prop offer "price") "total") = Normal total /\
    prop option "price" = VNum (parseFloat_string total).
Proof.
  intros (s0 & rest & m & t & key0 & segs' & Hsegs & _ & _ & Ht & _ & Hmap & ->)
    %mapOfferToOption_inv.
  exists (s0 :: rest), segs', t. rewrite prop_index0.
  repeat split; try done.
  eapply Forall2_impl; [exact Hmap|]. intros s s' (key & _ & _ & ->)%mapSegment_inv.
  apply normalizedSegment_copied.
Qed.

(** X4.  On an offer with plain identifiers no fare member of the Option
    is [undefined]: the four at offer level and the five of every segment
    hold a value or [null], so that each of them appears in the JSON text
    of the response. *)
Theorem fare_members_never_undefined (offer option : JsVal) :
  plain_identifiers offer = true ->
  mapOfferToOption offer = Normal option ->
  Forall (fun f => prop option f <> VUndef) offerFareFields /\
  exists segments',
    prop option "segments" = VArr segments' /\
    Forall (fun s' => Forall (fun f => prop s' f <> VUndef) segmentFareFields)
           segments'.
Proof.
  intros Hplain
    (s0 & rest & m & t & key0 & segs' & Hitin & Hm & _ & _ & Hkey0 & Hsegs & ->)
    %mapOfferToOption_inv.
  destruct (segmentFareMapOf_plain _ _ Hplain Hm) as [Hproto Hvals].
  apply plain_identifiers_inv in Hplain as [_ Hids].
  specialize (Hids _ Hitin).
  assert (Hfare : forall s key f,
            s ∈ s0 :: rest -> ToPropertyKey (prop s "id") = Normal key ->
            f ∈ segmentFareFields ->
            nullish_else (member_prop (fareLookup m key) f) VNull
            = member_prop (member_or_else (fareLookup m key) fallbackFare) f /\
            member_prop (member_or_else (fareLookup m key) fallbackFare) f <> VUndef).
  { intros s key f Hin Hkey Hf.
    destruct (plain_key_inv _ _ (proj1 (Forall_forall _ _) Hids s Hin) Hkey)
      as [Hplain _].
    eapply fare_member_readings; [done..| |done]. apply Hvals. }
  split.
  - unfold offerFareFields. repeat constructor; cbn.
    all: match goal with
         | |- nullish_else (member_prop (fareLookup _ ?k) ?f) VNull <> VUndef =>
             destruct (Hfare s0 k f) as [-> Hdef];
               [left | done | unfold segmentFareFields; repeat constructor | done]
         end.
  - exists segs'. split; [done|].
    assert (Hgen : forall l l',
              Forall2 (fun s s' => mapSegment m s = Normal s') l l' ->
              (forall s, s ∈ l -> s ∈ s0 :: rest) ->
              Forall (fun s' => Forall (fun f => prop s' f <> VUndef) segmentFareFields)
                     l').
    { induction 1 as [|s s1 l l' Hs _ IH]; intros Hsub; constructor.
      - apply mapSegment_inv in Hs as (key & _ & Hkey & ->).
        unfold segmentFareFields, normalizedSegment.
        repeat constructor; cbn; apply (Hfare s key); try done;
          first [apply Hsub; left | unfold segmentFareFields; repeat constructor].
      - apply IH. intros s' Hin. apply Hsub. by right. }
    by apply (Hgen _ _ Hsegs).
Qed.

(** *** Fare details the resolver cannot walk *)

Lemma forEach_fareDetails_nullish fds m :
  existsb nullish fds = true -> exists e, forEach_fareDetails fds m = Throw e.
Proof.
  revert m. induction fds as [|fd fds IH]; intros m; simpl; [done|].
  unfold_monad. intros [Hfd|Hrest]%orb_true_iff.
  - destruct (Get_nullish fd "segmentId" Hfd) as [e ->]. eauto.
  - destruct (Get fd "segmentId") as [segId|]; [|eauto].
    destruct (ToPropertyKey segId) as [key|]; [|eauto]. by apply IH.
Qed.

(** X5.  When the fare details of the first traveler-pricing record are
    not an array, or are an array holding [null] or [undefined], the
    normaliser throws; a search answer listing such an offer cannot be
    normalised, whatever its other offers. *)
Theorem unusable_fare_details_fail (offer : JsVal) :
  fare_details_unusable (fareDetailsOf (prop offer "travelerPricings")) = true ->
  (exists e, mapOfferToOption offer = Throw e) /\
  (forall sh data offers,
     prop data "data" = VArr offers -> offer ∈ offers ->
     exists e, normalizeOffers sh data = Throw e).
Proof.
  intros Hbad.
  assert (Hthrow : exists e, mapOfferToOption offer = Throw e).
  { destruct (mapOfferToOption offer) as [option|e] eqn:Hrun; [|eauto].
    apply mapOfferToOption_inv in Hrun
      as (_ & _ & m & _ & _ & _ & _ & (fds & Hfds & Hrun)%segmentFareMapOf_inv & _).
    rewrite Hfds in Hbad. cbn in Hbad.
    destruct (forEach_fareDetails_nullish fds emptyFareMap Hbad). congruence. }
  split; [done|]. intros sh data offers Hdata Hin. by eapply normalizeOffers_throws.
Qed.

End NormalizerMore.

(** * The two revisions of the normaliser *)

Section Revisions.
Context `{NumericConversions}.

Lemma map_array_Forall2 {A} (f : JsVal -> Completion A) l l' :
  Forall2 (fun x y => f x = Normal y) l l' -> map_array f l = Normal l'.
Proof.
  induction 1 as [|x y l l' Hxy _ IH]; simpl; unfold_monad; [done|].
  by rewrite Hxy, IH.
Qed.

(** The segment callback of the earlier revision. *)
Lemma mapSegment_earlier m s s' :
  mapSegment m s = Normal s' ->
  exists s'',
    (from ← Get (prop s "departure") "iataCode";
     to ← Get (prop s "arrival") "iataCode";
     departureTime ← Get (prop s "departure") "at";
     arrivalTime ← Get (prop s "arrival") "at";
     Normal (VObj [ ("from", from); ("to", to);
                    ("departureTime", departureTime);
                    ("arrivalTime", arrivalTime);
                    ("carrier", prop s "carrierCode");
                    ("flightNumber", prop s "number") ])) = Normal s'' /\
    same_fields segmentFields s' s''.
Proof.
  unfold mapSegment. unfold_monad.
  destruct (Get s "id") as [id|]; [|done].
  destruct (ToPropertyKey id) as [key|]; [|done].
  destruct (Get (prop s "departure") "iataCode") as [from|]; [|done].
  destruct (Get (prop s "arrival") "iataCode") as [to|]; [|done].
  destruct (Get (prop s "departure") "at") as [dt|]; [|done].
  destruct (Get (prop s "arrival") "at") as [at'|]; [|done].
  intros [= <-]. eexists. split; [done|].
  unfold same_fields, segmentFields. by repeat constructor.
Qed.

Lemma segments_earlier m l l' :
  Forall2 (fun s s' => mapSegment m s = Normal s') l l' ->
  exists l'',
    map_array (fun s =>
      from ← Get (prop s "departure") "iataCode";
      to ← Get (prop s "arrival") "iataCode";
      departureTime ← Get (prop s "departure") "at";
      arrivalTime ← Get (prop s "arrival") "at";
      Normal (VObj [ ("from", from); ("to", to);
                     ("departureTime", departureTime);
                     ("arrivalTime", arrivalTime);
                     ("carrier", prop s "carrierCode");
                     ("flightNumber", prop s "number") ])) l = Normal l'' /\
    Forall2 (same_fields segmentFields) l' l''.
Proof.
  induction 1 as [|s s' l l' Hs _ IH].
  - exists []. by split.
  - destruct IH as (l'' & Hl & Hsame).
    destruct (mapSegment_earlier _ _ _ Hs) as (s'' & Hs'' & Hfields).
    exists (s'' :: l''). split; [|by constructor].
    simpl. unfold_monad. by rewrite Hs'', Hl.
Qed.

(** The earlier normaliser on an offer with a price and a first itinerary
    whose segments it can map. *)
Lemma mapOffer_run offer segs t segs'' :
  prop (prop (prop offer "itineraries") "0") "segments" = VArr segs ->
  nullish (prop offer "price") = false ->
  ToString (prop (prop offer "price") "total") = Normal t ->
  map_array (fun s =>
    from ← Get (prop s "departure") "iataCode";
    to ← Get (prop s "arrival") "iataCode";
    departureTime ← Get (prop s "departure") "at";
    arrivalTime ← Get (prop s "arrival") "at";
    Normal (VObj [ ("from", from); ("to", to);
                   ("departureTime", departureTime);
                   ("arrivalTime", arrivalTime);
                   ("carrier", prop s "carrierCode");
                   ("flightNumber", prop s "number") ])) segs = Normal segs'' ->
  AppJs.mapOffer offer
  = Normal (VObj [ ("id", prop offer "id");
                   ("price", VNum (parseFloat_string t));
                   ("currency", prop (prop offer "price") "currency");
                   ("duration", prop (prop (prop offer "itineraries") "0") "duration");
                   ("airline", prop (prop (VArr segs) "0") "carrierCode");
                   ("segments", VArr segs'') ]).
Proof.
  intros Hsegs Hprice Ht Hmap.
  assert (Hfirst : nullish (prop (prop offer "itineraries") "0") = false).
  { apply (prop_defined _ "segments"). by rewrite Hsegs. }
  assert (Hits : nullish (prop offer "itineraries") = false).
  { apply (prop_defined _ "0"). by destruct (prop (prop offer "itineraries") "0"). }
  assert (Hoffer : nullish offer = false).
  { apply (prop_defined _ "itineraries"). by destruct (prop offer "itineraries"). }
  unfold AppJs.mapOffer, parseFloat. unfold_monad.
  rewrite (Get_normal offer "price") by done. cbv beta iota.
  rewrite (Get_normal (prop offer "price") "total") by done. cbv beta iota.
  rewrite (Get_normal (prop offer "price") "currency") by done. cbv beta iota.
  rewrite (Get_normal offer "itineraries") by done. cbv beta iota.
  rewrite (Get_normal (prop offer "itineraries") "0") by done. cbv beta iota.
  rewrite (Get_normal (prop (prop offer "itineraries") "0") "segments") by done.
  cbv beta iota. rewrite Ht. cbv beta iota. rewrite Hsegs.
  rewrite (Get_normal (VArr segs) "0") by done. cbv beta iota.
  cbn [array_elements]. unfold_monad. by rewrite Hmap.
Qed.

(** What the two normalisers show in common of an offer. *)
Lemma mapOffer_summary offer option :
  mapOfferToOption offer = Normal option ->
  exists option',
    AppJs.mapOffer offer = Normal option' /\
    same_fields summaryFields option option'.
Proof.
  intros (s0 & rest & m & t & key0 & segs' & Hsegs & _ & Hprice & Ht & _ & Hmap & ->)
    %mapOfferToOption_inv.
  destruct (segments_earlier _ _ _ Hmap) as (segs'' & Hearlier & _).
  rewrite (mapOffer_run offer _ t segs'') by done.
  eexists. split; [done|]. rewrite prop_index0.
  unfold same_fields, summaryFields. by repeat constructor.
Qed.

(** X6.  Every offer that the current normaliser turns into an Option is
    also accepted by the normaliser of the earlier revision, and the two
    Options agree on the identifier, price, currency, duration and airline
    and, segment by segment, on the airports, times, carrier and flight
    number: the current revision only adds the fare members. *)
Theorem earlier_revision_normalises_too (offer option : JsVal) :
  mapOfferToOption offer = Normal option ->
  exists option',
    AppJs.mapOffer offer = Normal option' /\
    same_fields summaryFields option option' /\
    exists segments' segments'',
      prop option "segments" = VArr segments' /\
      prop option' "segments" = VArr segments'' /\
      Forall2 (same_fields segmentFields) segments' segments''.
Proof.
  intros (s0 & rest & m & t & key0 & segs' & Hsegs & _ & Hprice & Ht & _ & Hmap & ->)
    %mapOfferToOption_inv.
  destruct (segments_earlier _ _ _ Hmap) as (segs'' & Hearlier & Hsame).
  rewrite (mapOffer_run offer _ t segs'') by done.
  eexists. split; [done|]. rewrite prop_index0. split.
  - unfold same_fields, summaryFields. by repeat constructor.
  - by exists segs', segs''.
Qed.

(** X7.  The converse fails on an offer whose first itinerary has an empty
    segment list: the earlier revision turns it into an Option without
    airline and without segments, the current one throws. *)
Theorem empty_segments_accepted_by_earlier_revision (offer : JsVal) (total : string) :
  prop (prop (prop offer "itineraries") "0") "segments" = VArr [] ->
  nullish (prop offer "price") = false ->
  ToString (prop (prop offer "price") "total") = Normal total ->
  AppJs.mapOffer offer
  = Normal (VObj [ ("id", prop offer "id");
                   ("price", VNum (parseFloat_string total));
                   ("currency", prop (prop offer "price") "currency");
                   ("duration", prop (prop (prop offer "itineraries") "0") "duration");
                   ("airline", VUndef);
                   ("segments", VArr []) ]) /\
  exists e, mapOfferToOption offer = Throw e.
Proof.
  intros Hsegs Hprice Ht. split.
  - rewrite (mapOffer_run offer [] total []) by done.
    by rewrite prop_index0_nil.
  - apply mapOfferToOption_malformed. by right.
Qed.

End Revisions.

(** * Further properties of the handler *)

Section HandlerMore.
Context `{NumericConversions}.

Lemma destructure_throws req_body e :
  destructure req_body = Throw e -> nullish req_body = true.
Proof. unfold destructure, Get. unfold_monad. by destruct (nullish req_body). Qed.

(** X8.  A request with no body to destructure causes no call at all.  On
    any other request the run asks for one token, before anything else, and
    every flight-offer search of the run is authorised with that token. *)
Theorem one_token_for_every_search (up : Upstream) (req_body : JsVal) :
  let trace := (search_flights up req_body).1 in
  nullish req_body = true /\ trace = [] \/
  nullish req_body = false /\
  exists rest,
    trace = TokenRequest :: rest /\
    (rest = [] \/
     exists token t,
       token_ok up token t /\
       Forall (fun ev => exists params, ev = OfferSearch (bearer t) params) rest).
Proof.
  intros trace. subst trace.
  destruct (search_flights_run up req_body)
    as [e Hrq ->|rq e Hrq Htok ->|rq token Hrq Htok ->]; cbn [fst].
  - left. split; [by eapply destructure_throws|done].
  - right. split; [by apply destructure_inv in Hrq as [? _]|].
    exists []. split; [done|by left].
  - right. split; [by apply destructure_inv in Hrq as [? _]|].
    rewrite catch_errors_trace.
    destruct (dispatch rq token up [TokenRequest]) as [tr' c] eqn:Hrun. cbn [fst].
    apply dispatch_trace in Hrun
      as [[-> _] | [(_ & _ & t & Ht & ->) | (_ & _ & t & segs & k & Ht & _ & ->)]].
    + exists []. split; [done|by left].
    + eexists. split; [done|]. right. exists token, t. split; [done|].
      repeat constructor. eauto.
    + eexists. split; [done|]. right. exists token, t. split; [done|].
      apply Forall_fmap, Forall_forall. intros seg _. unfold searchEvent. simpl. eauto.
Qed.

(** *** What a success tells *)

Lemma dispatch_success rq token up tr tr' response :
  dispatch rq token up tr = (tr', Normal response) ->
  status response = 200 ->
  exists t,
    ToString token = Normal t /\
    ((is_single rq = true /\ single_valid rq = true /\
      tr' = tr ++ [OfferSearch (bearer t) (VObj (singleParams rq))] /\
      exists options,
        replyOptions up (shared rq) t (length (searches tr)) (singleParams rq)
        = Normal options /\
        response = res_json 200 (singleBody rq options))
     \/
     is_single rq = false /\
     exists segs legs,
       segments rq = VArr segs /\ segs <> [] /\
       Forall (fun seg => leg_valid seg = true) segs /\
       tr' = tr ++ (searchEvent t (shared rq) <$> segs) /\
       response = res_json 200 (multiBody rq legs) /\
       length legs = length segs /\
       forall j seg, segs !! j = Some seg ->
         exists legOptions,
           legs !! j = Some (legEntry j seg legOptions) /\
           replyOptions up (shared rq) t (length (searches tr) + j)
             (legParams (shared rq) seg) = Normal legOptions).
Proof.
  unfold dispatch. fold (is_single rq). destruct (is_single rq) eqn:Hs.
  - destruct (single_valid rq) eqn:Hv.
    + rewrite singleLeg_valid by done.
      destruct (ToString token) as [t|e] eqn:Ht.
      * rewrite (fetchOptions_run _ _ _ _ _ t) by done.
        destruct (replyOptions _ _ _ _ _) as [options|e] eqn:Hreply; [|done].
        intros [= <- <-] _. exists t. split; [done|]. left. eauto 10.
      * by rewrite (fetchOptions_no_header _ _ _ _ _ e).
    + destruct (singleLeg_invalid rq token up tr Hv) as [msg ->].
      by intros [= <- <-].
  - destruct (strict_eq_string (tripType rq) "multi").
    2:{ unfold_monad. by intros [= <- <-]. }
    rewrite multiCity_run.
    destruct (segments rq) as [| | | | |[|seg rest]|] eqn:Hsegs;
      try by intros [= <- <-].
    destruct (multiLegs token (shared rq) (seg :: rest) 0 [] up tr)
      as [tr1 [[early|legs]|e]] eqn:Hrun; [| |done].
    { apply multiLegs_early in Hrun as ->. by intros [= <- <-]. }
    intros [= <- <-] _.
    destruct (multiLegs_completed_valid _ _ _ _ _ _ _ _ _ Hrun)
      as [Hvalid [[=]|[t Ht]]].
    exists t. split; [done|]. right. split; [done|].
    destruct (multiLegs_all_valid _ _ t _ _ Ht Hvalid _ _ _ _ _ Hrun)
      as [[e [=]] | (news & [= ->] & -> & Hlen & Hnews)].
    exists (seg :: rest), news. repeat split; try done.
Qed.

(** X9.  A 200 answer is complete.  The token was granted; a single-leg
    request issued exactly one search, with its own query, and the options
    are what that search's answer normalises to; a multi-city request has
    only valid legs, issued exactly one search per leg, in order, and its
    [legs] holds one entry per leg, the j-th built from the j-th leg spec
    and from the answer to the j-th search. *)
Theorem success_means_every_leg_searched (up : Upstream) (req_body : JsVal) :
  let trace := (search_flights up req_body).1 in
  let response := (search_flights up req_body).2 in
  status response = 200 ->
  exists rq token t,
    destructure req_body = Normal rq /\ token_ok up token t /\
    ((is_single rq = true /\ single_valid rq = true /\
      trace = [TokenRequest; OfferSearch (bearer t) (VObj (singleParams rq))] /\
      exists options,
        replyOptions up (shared rq) t 0 (singleParams rq) = Normal options /\
        response = res_json 200 (singleBody rq options))
     \/
     is_single rq = false /\
     exists segs legs,
       segments rq = VArr segs /\ segs <> [] /\
       Forall (fun seg => leg_valid seg = true) segs /\
       trace = TokenRequest :: (searchEvent t (shared rq) <$> segs) /\
       response = res_json 200 (multiBody rq legs) /\
       length legs = length segs /\
       forall j seg, segs !! j = Some seg ->
         exists legOptions,
           legs !! j = Some (legEntry j seg legOptions) /\
           replyOptions up (shared rq) t j (legParams (shared rq) seg)
           = Normal legOptions).
Proof.
  intros trace response. subst trace response.
  destruct (search_flights_run up req_body)
    as [e Hrq ->|rq e Hrq Htok ->|rq token Hrq Htok ->]; cbn [fst snd]; [done..|].
  destruct (dispatch rq token up [TokenRequest]) as [tr' [response|e]] eqn:Hrun;
    cbn [catch_errors fst snd]; [|done].
  intros H200. destruct (dispatch_success _ _ _ _ _ _ Hrun H200) as (t & Ht & Hcases).
  exists rq, token, t. split; [done|]. split; [done|]. exact Hcases.
Qed.

(** *** Defaults *)

Lemma prop_with_prop k v body k' :
  prop (with_prop k v body) k'
  = match body with
    | VObj _ => if String.eqb k' k then v else prop body k'
    | _ => prop body k'
    end.
Proof.
  destruct body as [| | | | | |ps]; try done. cbn [with_prop prop].
  destruct (String.eqb k' k) eqn:Hk.
  - apply String.eqb_eq in Hk as ->. by rewrite lookup_set_prop_eq.
  - apply String.eqb_neq in Hk. by rewrite lookup_set_prop_ne.
Qed.

(** X10.  Leaving out [tripType], [adults], [currency] or [max] is the same
    as sending its default ('oneway', 1, 'KWD', 5): same provider calls,
    same response. *)
Theorem omitted_field_is_its_default (up : Upstream) (req_body : JsVal)
    (k : string) (d : JsVal) :
  (k, d) ∈ handlerDefaults ->
  prop req_body k = VUndef ->
  search_flights up (with_prop k d req_body) = search_flights up req_body.
Proof.
  intros Hk Habsent.
  destruct req_body as [| | | | | |ps]; try done.
  assert (Hrq : destructure (with_prop k d (VObj ps)) = destructure (VObj ps)).
  { unfold destructure, sharedFields. rewrite !Get_normal by done.
    unfold_monad. rewrite !prop_with_prop.
    unfold handlerDefaults in Hk.
    repeat (apply elem_of_cons in Hk as [[= -> ->]|Hk];
            [cbn [String.eqb Ascii.eqb Bool.eqb]; by rewrite Habsent|]).
    by apply elem_of_nil in Hk. }
  unfold search_flights, search_flights_try. unfold_monad. unfold liftC.
  by rewrite Hrq.
Qed.

(** *** A leg spec that is [null] *)

Lemma multiLegs_null_leg token sh up good bad rest :
  Forall (fun seg => leg_valid seg = true) good ->
  nullish bad = true ->
  forall i legs tr tr' c,
    multiLegs token sh (good ++ bad :: rest) i legs up tr = (tr', c) ->
    (exists e, c = Throw e) /\
    length (searches tr') <= length (searches tr) + length good /\
    (forall t,
       ToString token = Normal t ->
       (forall n params, is_normal (replyOptions up sh t n params) = true) ->
       length (searches tr') = length (searches tr) + length good /\
       exists message, c = Throw (TypeError message)).
Proof.
  intros Hgood Hbad. induction Hgood as [|seg good Hok _ IH];
    intros i legs tr tr' c Hrun; cbn [app] in Hrun.
  - cbn [multiLegs] in Hrun. unfold_monad. unfold Get in Hrun. rewrite Hbad in Hrun.
    injection Hrun as <- <-. simpl. split; [eauto|]. split; [lia|].
    intros t _ _. split; [lia|eauto].
  - destruct (ToString token) as [t|e] eqn:Ht.
    + rewrite (multiLegs_valid _ _ _ _ _ _ _ _ t) in Hrun by done.
      destruct (replyOptions up sh t _ _) as [opts|e] eqn:Hreply.
      * apply IH in Hrun as (Hc & Hle & Hall). unfold searchEvent in *.
        rewrite searches_snoc_search in *. simpl. split; [done|]. split; [lia|].
        intros t' Ht' Hreplies. destruct (Hall t' Ht' Hreplies) as [Hlen Hmsg].
        split; [lia|done].
      * injection Hrun as <- <-. unfold searchEvent.
        rewrite searches_snoc_search. simpl. split; [eauto|]. split; [lia|].
        intros t' [= <-] Hreplies. specialize (Hreplies (length (searches tr))
          (legParams sh seg)). by rewrite Hreply in Hreplies.
    + rewrite (multiLegs_no_header _ _ _ _ _ _ _ _ e) in Hrun by done.
      injection Hrun as <- <-. split; [eauto|]. split; [lia|]. by intros t [=].
Qed.

Lemma dispatch_multi req_body rq token up tr :
  prop req_body "tripType" = VStr "multi" ->
  destructure req_body = Normal rq ->
  dispatch rq token up tr = multiCity rq token up tr.
Proof.
  intros Htt (_ & Htt' & _)%destructure_inv. rewrite Htt in Htt'. cbn in Htt'.
  unfold dispatch. by rewrite Htt'.
Qed.

(** X11.  A multi-city request whose leg list holds [null] (or
    [undefined]) after the valid legs [good] is not answered by the
    validation error: reading the leg throws, and the answer is the failure
    (500), after at most one search per leg of [good]; when the token call
    and those searches succeed, every leg of [good] was searched and the
    failure reports a TypeError message. *)
Theorem null_leg_answers_500 (up : Upstream) (req_body : JsVal)
    (good : list JsVal) (bad : JsVal) (rest : list JsVal) :
  prop req_body "tripType" = VStr "multi" ->
  prop req_body "segments" = VArr (good ++ bad :: rest) ->
  Forall (fun seg => leg_valid seg = true) good ->
  nullish bad = true ->
  let trace := (search_flights up req_body).1 in
  let response := (search_flights up req_body).2 in
  status response = 500 /\
  length (searches trace) <= length good /\
  (forall token t,
     token_ok up token t ->
     (forall n params,
        is_normal (replyOptions up (sharedFields req_body) t n params) = true) ->
     length (searches trace) = length good /\
     exists message, response = on_error (TypeError message)).
Proof.
  intros Htt Hsegs Hgood Hbad trace response. subst trace response.
  destruct (search_flights_run up req_body)
    as [e Hrq ->|rq e Hrq Htok ->|rq token Hrq Htok ->]; cbn [fst snd].
  { apply destructure_throws in Hrq. by destruct req_body. }
  { split; [done|]. split; [simpl; lia|]. intros token t [Htok' _]. congruence. }
  rewrite (dispatch_multi req_body) by done.
  pose proof (destructure_shared _ _ Hrq) as Hsh.
  apply destructure_inv in Hrq as (_ & _ & _ & _ & _ & _ & Hsegs' & _).
  rewrite Hsegs in Hsegs'. rewrite multiCity_run, Hsegs'.
  assert (Hcons : exists seg0 rest0, good ++ bad :: rest = seg0 :: rest0).
  { destruct good; simpl; eauto. }
  destruct Hcons as (seg0 & rest0 & Hcons). rewrite Hcons, <- Hcons.
  destruct (multiLegs token (shared rq) (good ++ bad :: rest) 0 [] up [TokenRequest])
    as [tr' c] eqn:Hrun.
  destruct (multiLegs_null_leg token (shared rq) up good bad rest Hgood Hbad
              _ _ _ _ _ Hrun) as ([e ->] & Hle & Hall).
  cbn [catch_errors fst snd]. cbn [searches List.filter is_search length Nat.add] in *.
  split; [done|]. split; [done|].
  intros token' t [Htok' Ht] Hreplies.
  assert (token' = token) as -> by congruence. rewrite <- Hsh in Hreplies.
  destruct (Hall t Ht Hreplies) as [Hlen [message [= ->]]]. eauto.
Qed.

(** *** Failures of the provider *)

(** X12.  When the token call fails, the failure is what the request is
    answered with (500, with the provider's error data, or the error
    message when there is none, as details), whether the request is valid
    or not, and no flight-offer search is issued. *)
Theorem token_failure_is_forwarded (up : Upstream) (req_body : JsVal) (e : JsError) :
  nullish req_body = false ->
  token_response up = Throw e ->
  search_flights up req_body = ([TokenRequest], on_error e) /\
  prop (body (search_flights up req_body).2) "details" = error_details e.
Proof.
  intros Hbody Htoken.
  destruct (search_flights_run up req_body)
    as [e' Hrq Hrun|rq e' Hrq Htok Hrun|rq token Hrq Htok Hrun].
  - apply destructure_throws in Hrq. congruence.
  - rewrite Htoken in Htok. unfold_monad. injection Htok as <-. by rewrite Hrun.
  - rewrite Htoken in Htok. by unfold_monad.
Qed.

Lemma multiLegs_rejected token sh t up n e segs :
  ToString token = Normal t ->
  (forall params, replyOptions up sh t n params = Throw e) ->
  forall i legs tr tr' c,
    multiLegs token sh segs i legs up tr = (tr', c) ->
    length (searches tr) <= n < length (searches tr') ->
    c = Throw e /\ length (searches tr') = S n.
Proof.
  intros Ht Hbad. induction segs as [|seg rest IH]; intros i legs tr tr' c Hrun Hn.
  - simpl in Hrun. unfold_monad. injection Hrun as <- _. lia.
  - destruct (nullish seg) eqn:Hseg.
    { destruct (multiLegs_nullish token sh seg rest i legs up tr Hseg) as [e' He].
      rewrite He in Hrun. injection Hrun as <- _. lia. }
    destruct (leg_valid seg) eqn:Hok.
    2:{ rewrite multiLegs_invalid in Hrun by done. injection Hrun as <- _. lia. }
    rewrite (multiLegs_valid _ _ _ _ _ _ _ _ t) in Hrun by done.
    destruct (decide (length (searches tr) = n)) as [<- | Hne].
    + rewrite Hbad in Hrun. injection Hrun as <- <-. unfold searchEvent.
      by rewrite searches_snoc_search.
    + destruct (replyOptions up sh t _ _) as [opts|e'] eqn:Hreply.
      * eapply IH; [done|]. unfold searchEvent. rewrite searches_snoc_search. lia.
      * injection Hrun as <- _. unfold searchEvent in Hn.
        rewrite searches_snoc_search in Hn. lia.
Qed.

Lemma dispatch_rejected rq token up n e tr tr' c :
  (forall authorization params,
     (data ← search_response up n authorization params;
      normalizeOffers (shared rq) data) = Throw e) ->
  dispatch rq token up tr = (tr', c) ->
  length (searches tr) <= n < length (searches tr') ->
  c = Throw e /\ length (searches tr') = S n.
Proof.
  intros Hbad Hrun Hn.
  destruct (ToString token) as [t|e'] eqn:Ht.
  2:{ apply dispatch_trace in Hrun
        as [[-> _] | [(_ & _ & t & Ht' & _) | (_ & _ & t & ? & ? & Ht' & _)]];
        [lia|congruence..]. }
  unfold dispatch in Hrun. fold (is_single rq) in Hrun.
  destruct (is_single rq).
  - destruct (single_valid rq) eqn:Hv.
    + rewrite singleLeg_valid, (fetchOptions_run _ _ _ _ _ t) in Hrun by done.
      assert (tr' = tr ++ [OfferSearch (bearer t) (VObj (singleParams rq))]) as ->.
      { destruct (replyOptions _ _ _ _ _); by injection Hrun as <- _. }
      rewrite searches_snoc_search in Hn |- *.
      assert (length (searches tr) = n) as Hidx by lia. rewrite Hidx in Hrun.
      unfold replyOptions in Hrun. rewrite Hbad in Hrun. injection Hrun as <-.
      split; [done|lia].
    + destruct (singleLeg_invalid rq token up tr Hv) as [msg Hmsg].
      rewrite Hmsg in Hrun. injection Hrun as <- _. lia.
  - destruct (strict_eq_string (tripType rq) "multi").
    2:{ unfold_monad. injection Hrun as <- _. lia. }
    rewrite multiCity_run in Hrun.
    destruct (segments rq) as [| | | | |[|seg rest]|];
      try (injection Hrun as <- _; lia).
    destruct (multiLegs token (shared rq) (seg :: rest) 0 [] up tr)
      as [tr1 c1] eqn:Hloop.
    assert (tr1 = tr') as ->.
    { destruct c1 as [[early|legs]|e']; by injection Hrun as <- _. }
    destruct (multiLegs_rejected token (shared rq) t up n e _ Ht
                (fun params => Hbad (bearer t) (VObj params)) _ _ _ _ _ Hloop Hn)
      as [-> Hlen].
    injection Hrun as <-. by split.
Qed.

(** X13.  When the provider rejects the search of some leg, that search is
    the last call of the run: the legs after it are not searched, the
    results of the legs before it are dropped, and the answer is the
    failure (500) reporting that rejection. *)
Theorem rejected_search_ends_the_run (up : Upstream) (req_body : JsVal)
    (n : nat) (e : JsError) :
  (forall authorization params, search_response up n authorization params = Throw e) ->
  n < length (searches (search_flights up req_body).1) ->
  (search_flights up req_body).2 = on_error e /\
  length (searches (search_flights up req_body).1) = S n.
Proof.
  intros Hrejected.
  destruct (search_flights_run up req_body)
    as [e' Hrq ->|rq e' Hrq Htok ->|rq token Hrq Htok ->]; cbn [fst snd];
    [simpl; lia..|].
  rewrite catch_errors_trace.
  destruct (dispatch rq token up [TokenRequest]) as [tr' c] eqn:Hrun.
  cbn [fst]. intros Hn.
  assert (Hbad : forall authorization params,
             (data ← search_response up n authorization params;
              normalizeOffers (shared rq) data) = Throw e).
  { intros a params. by rewrite Hrejected. }
  destruct (dispatch_rejected rq token up n e _ _ _ Hbad Hrun) as [-> Hlen];
    [simpl; lia|].
  by split.
Qed.

(** *** A token answer without a token *)

(** X14.  The token is not checked: when the provider's token answer has no
    [access_token], every search of the run goes out authorised with
    'Bearer undefined', and a valid single-leg request issues its search
    all the same. *)
Theorem missing_access_token_goes_unnoticed (up : Upstream) (req_body data : JsVal) :
  token_response up = Normal data ->
  nullish data = false ->
  prop data "access_token" = VUndef ->
  let trace := (search_flights up req_body).1 in
  (forall authorization params,
     OfferSearch authorization params ∈ trace -> authorization = "Bearer undefined") /\
  (forall rq,
     destructure req_body = Normal rq ->
     is_single rq = true -> single_valid rq = true ->
     trace = [TokenRequest; OfferSearch "Bearer undefined" (VObj (singleParams rq))]).
Proof.
  intros Hdata Hnn Hmissing trace. subst trace.
  assert (Htoken : (data ← token_response up; Get data "access_token") = Normal VUndef).
  { rewrite Hdata. unfold_monad. by rewrite Get_normal, Hmissing. }
  destruct (search_flights_run up req_body)
    as [e Hrq ->|rq e Hrq Htok ->|rq token Hrq Htok ->]; cbn [fst].
  - split; [by intros a params []%elem_of_nil|]. congruence.
  - congruence.
  - assert (token = VUndef) as -> by congruence.
    rewrite catch_errors_trace.
    destruct (dispatch rq VUndef up [TokenRequest]) as [tr' c] eqn:Hrun. cbn [fst].
    apply dispatch_trace in Hrun
      as [[-> Hwhy] | [(_ & _ & t & [= <-] & ->)
                      | (Hmulti & _ & t & segs & k & [= <-] & _ & ->)]].
    + split; [by intros a params [=]%list_elem_of_singleton|].
      intros rq' Hrq' Hs Hv. assert (rq' = rq) as -> by congruence.
      by destruct (Hwhy Hs Hv).
    + split.
      * intros a params [[=]%list_elem_of_singleton | Hin%list_elem_of_singleton]
          %elem_of_app.
        by injection Hin as -> _.
      * intros rq' Hrq' _ _. by assert (rq' = rq) as -> by congruence.
    + split.
      * intros a params [[=]%list_elem_of_singleton | Hin]%elem_of_app.
        apply list_elem_of_fmap in Hin as (seg & Hev & _). unfold searchEvent in Hev.
        by injection Hev as -> _.
      * intros rq' Hrq' Hs _. assert (rq' = rq) as -> by congruence. congruence.
Qed.

(** *** A ceiling that is not a number *)

Lemma filter_nan options : List.filter (price_within NaN) options = [].
Proof.
  induction options as [|o options IH]; [done|]. simpl. rewrite IH.
  unfold price_within. destruct (prop o "price") as [| | |p| | |]; try done.
  by destruct p.
Qed.

(** X15.  A truthy ceiling that converts to no number (a word, say) is not
    turned down: the budget filter then drops every Option, so a success
    carries no option at all, on a single-leg request and on every leg of
    a multi-city one. *)
Theorem non_numeric_ceiling_empties_the_answer (up : Upstream) (req_body : JsVal) :
  truthy (prop req_body "maxPrice") = true ->
  ToNumber (prop req_body "maxPrice") = Normal NaN ->
  let response := (search_flights up req_body).2 in
  status response = 200 ->
  prop (body response) "options" = VArr [] \/
  exists legs,
    prop (body response) "legs" = VArr legs /\
    Forall (fun leg => prop leg "options" = VArr []) legs.
Proof.
  intros Hm Hnan response. subst response.
  destruct (search_flights_run up req_body)
    as [e Hrq ->|rq e Hrq Htok ->|rq token Hrq Htok ->]; cbn [fst snd]; [done..|].
  destruct (dispatch rq token up [TokenRequest]) as [tr' [response|e]] eqn:Hrun;
    cbn [catch_errors fst snd]; [|done].
  intros H200.
  apply destructure_inv in Hrq as (_ & _ & _ & _ & _ & _ & _ & Hmp & _).
  rewrite <- Hmp in Hm, Hnan.
  destruct (dispatch_success _ _ _ _ _ _ Hrun H200)
    as (t & Ht & [(_ & _ & _ & options & Hreply & ->)
                 |(_ & segs & legs & _ & _ & _ & _ & -> & Hlen & Hlegs)]).
  - left. apply (replyOptions_filtered _ _ _ _ _ NaN) in Hreply
      as (data & normalised & _ & _ & ->); [|done..].
    by rewrite filter_nan.
  - right. exists legs. split; [done|].
    apply Forall_forall. intros leg (j & Hj)%list_elem_of_lookup.
    assert (Hlt : j < length segs).
    { rewrite <- Hlen. by eapply lookup_lt_Some. }
    apply lookup_lt_is_Some in Hlt as [seg Hseg].
    destruct (Hlegs j seg Hseg) as (legOptions & Hleg & Hreply).
    assert (leg = legEntry j seg legOptions) as -> by congruence.
    apply (replyOptions_filtered _ _ _ _ _ NaN) in Hreply
      as (data & normalised & _ & _ & ->); [|done..].
    by rewrite filter_nan.
Qed.

(** *** Fields of the other branches *)

Lemma strict_eq_string_eq v k : strict_eq_string v k = true -> v = VStr k.
Proof. destruct v; try done. simpl. by intros ->%String.eqb_eq. Qed.

Lemma dispatch_unread rq rq' token up tr :
  tripType rq' = tripType rq -> shared rq' = shared rq ->
  (is_single rq = true ->
   origin rq' = origin rq /\ destination rq' = destination rq /\
   departureDate rq' = departureDate rq /\
   (strict_eq_string (tripType rq) "roundtrip" = true ->
    returnDate rq' = returnDate rq)) ->
  (is_single rq = false -> segments rq' = segments rq) ->
  dispatch rq' token up tr = dispatch rq token up tr.
Proof.
  destruct rq as [tt o d dd rd segs sh], rq' as [tt' o' d' dd' rd' segs' sh'].
  unfold is_single.
  cbn [tripType origin destination departureDate returnDate segments shared].
  intros -> -> Hsingle Hmulti. unfold dispatch, singleLeg, multiCity.
  cbn [tripType origin destination departureDate returnDate segments shared].
  destruct (strict_eq_string tt "oneway" || strict_eq_string tt "roundtrip").
  - destruct (Hsingle eq_refl) as (-> & -> & -> & Hrd).
    destruct (strict_eq_string tt "roundtrip"); [by rewrite Hrd|done].
  - by rewrite Hmulti.
Qed.

(** X18.  A field of another branch is not read at all: [returnDate] and
    [segments] on a one-way request, [segments] on a round trip, and
    [origin], [destination], [departureDate] and [returnDate] on a
    multi-city request change neither the provider calls nor the
    response. *)
Theorem unread_fields_change_nothing (up : Upstream) (req_body : JsVal) (k : string) :
  unread_field (with_default (prop req_body "tripType") (VStr "oneway")) k = true ->
  search_flights up (without_prop k req_body) = search_flights up req_body.
Proof.
  intros Hk. unfold search_flights, search_flights_try, getAccessToken, destructure, Get.
  unfold_monad. rewrite nullish_without.
  destruct (nullish req_body); [done|]. cbv beta iota.
  destruct (token_response up) as [data|e]; [|done].
  destruct (nullish data); [done|]. f_equal.
  unfold unread_field in Hk.
  assert (Hfields : forall k', k <> k' -> prop (without_prop k req_body) k' = prop req_body k').
  { intros k' Hne. by apply prop_without_ne. }
  destruct (strict_eq_string _ "oneway") eqn:Honeway;
    [|destruct (strict_eq_string _ "roundtrip") eqn:Hround;
      [|destruct (strict_eq_string _ "multi") eqn:Hmulti; [|done]]].
  - apply strict_eq_string_eq in Honeway.
    assert (Hcase : k = "returnDate" \/ k = "segments").
    { apply orb_true_iff in Hk as [->%String.eqb_eq | ->%String.eqb_eq]; eauto. }
    apply dispatch_unread;
      cbn [tripType origin destination departureDate returnDate segments shared];
      unfold sharedFields, is_single;
      cbn [tripType origin destination departureDate returnDate segments shared];
      destruct Hcase as [-> | ->]; rewrite ?Hfields by done; try done;
      rewrite Honeway; try done; intros _; by repeat split.
  - apply strict_eq_string_eq in Hround. apply String.eqb_eq in Hk as ->.
    apply dispatch_unread;
      cbn [tripType origin destination departureDate returnDate segments shared];
      unfold sharedFields, is_single;
      cbn [tripType origin destination departureDate returnDate segments shared];
      rewrite ?Hfields by done; try done; rewrite Hround; try done.
  - apply strict_eq_string_eq in Hmulti.
    assert (Hcase : k = "origin" \/ k = "destination" \/ k = "departureDate"
                    \/ k = "returnDate").
    { repeat (apply orb_true_iff in Hk as [Hk | Hk]);
        apply String.eqb_eq in Hk as ->; eauto. }
    apply dispatch_unread;
      cbn [tripType origin destination departureDate returnDate segments shared];
      unfold sharedFields, is_single;
      cbn [tripType origin destination departureDate returnDate segments shared];
      destruct Hcase as [-> | [-> | [-> | ->]]]; rewrite ?Hfields by done; try done;
      rewrite Hmulti; done.
Qed.

End HandlerMore.

(** * The earlier revision of the handler *)

Section AppJsMore.
Context `{NumericConversions}.

Lemma appJs_valid_not_nullish req_body :
  appJs_valid req_body = true -> nullish req_body = false.
Proof. by destruct req_body. Qed.

(** The run of the earlier revision on a request that passes validation. *)
Lemma AppJs_valid_run up req_body :
  appJs_valid req_body = true ->
  AppJs.search_flights up req_body
  = match (data ← token_response up; Get data "access_token") with
    | Throw e => ([TokenRequest], on_error e)
    | Normal token =>
        match ToString token with
        | Throw e => ([TokenRequest], on_error e)
        | Normal t =>
            ([TokenRequest; OfferSearch (bearer t) (VObj (appJs_params req_body))],
             match (data ← search_response up 0 (bearer t) (VObj (appJs_params req_body));
                    appJs_options data) with
             | Normal options => res_json 200 (VObj [("options", VArr options)])
             | Throw e => on_error e
             end)
        end
    end.
Proof.
  intros Hv. pose proof (appJs_valid_not_nullish _ Hv) as Hbody.
  unfold appJs_valid in Hv. apply andb_true_iff in Hv as [Hv Hd].
  apply andb_true_iff in Hv as [Ho Hdest].
  unfold AppJs.search_flights, AppJs.search_flights_try, getAccessToken, axios_get,
    appJs_options, appJs_params.
  unfold_monad. rewrite Get_normal by done. cbv beta iota.
  rewrite Ho, Hdest, Hd. cbn [negb orb]. cbv beta iota. cbn [app].
  destruct (token_response up) as [data|e]; [|done].
  destruct (Get data "access_token") as [token|e]; [|done].
  destruct (ToString token) as [t|e]; [|done]. fold (bearer t).
  cbn [searches List.filter is_search length app].
  destruct (search_response up 0 _ _) as [answer|e]; [|done].
  destruct (Get answer "data") as [offers|e]; [|done].
  destruct (array_elements _ _) as [l|e]; [|done].
  by destruct (map_array AppJs.mapOffer l).
Qed.

(** X16.  The earlier revision validates before it calls the provider: a
    request lacking a non-empty origin, destination or departure date is
    answered 400 (500 when it has no body) with no call at all; a request
    that passes asks for the token first and then issues at most one
    search, authorised with that token, whose query is the three required
    fields and adults, currency and max with their defaults. *)
Theorem appjs_calls_follow_validation (up : Upstream) (req_body : JsVal) :
  let trace := (AppJs.search_flights up req_body).1 in
  let response := (AppJs.search_flights up req_body).2 in
  (appJs_valid req_body = false ->
   trace = [] /\
   (nullish req_body = false /\ status response = 400 \/
    nullish req_body = true /\ status response = 500)) /\
  (appJs_valid req_body = true ->
   exists rest,
     trace = TokenRequest :: rest /\
     (rest = [] /\ status response = 500 \/
      exists token t,
        token_ok up token t /\
        rest = [OfferSearch (bearer t) (VObj (appJs_params req_body))] /\
        (status response = 200 \/ status response = 500))).
Proof.
  intros trace response. subst trace response. split.
  - intros Hv. destruct (nullish req_body) eqn:Hbody.
    + unfold AppJs.search_flights, AppJs.search_flights_try. unfold_monad.
      unfold Get. rewrite Hbody. cbn. split; [done|]. by right.
    + rewrite AppJs_validation_before_token by done. cbn. split; [done|]. by left.
  - intros Hv. rewrite AppJs_valid_run by done.
    destruct (data ← token_response up; Get data "access_token")
      as [token|e] eqn:Htoken; cbn [fst snd].
    2:{ exists []. split; [done|]. by left. }
    destruct (ToString token) as [t|e] eqn:Ht; cbn [fst snd].
    2:{ exists []. split; [done|]. by left. }
    eexists. split; [done|]. right. exists token, t. split; [done|]. split; [done|].
    destruct (data ← search_response up 0 _ _; appJs_options data); cbn; eauto.
Qed.

(** *** A one-way request under the two revisions *)

Lemma appJs_options_agree data options :
  normalizeUnfiltered data = Normal options ->
  exists options',
    appJs_options data = Normal options' /\
    Forall2 (same_fields summaryFields) options options'.
Proof.
  unfold normalizeUnfiltered, appJs_options. unfold_monad.
  destruct (Get data "data") as [offers|]; [|done].
  destruct (array_elements _ _) as [l|]; [|done].
  intros Hmap%map_array_inv.
  assert (Hearlier : exists options',
            Forall2 (fun x y => AppJs.mapOffer x = Normal y) l options' /\
            Forall2 (same_fields summaryFields) options options').
  { induction Hmap as [|offer option l l' Hoffer _ IH].
    - exists []. by split.
    - destruct IH as (l'' & Hl & Hsame).
      destruct (mapOffer_summary _ _ Hoffer) as (option' & Hoption' & Hfields).
      exists (option' :: l''). split; by constructor. }
  destruct Hearlier as (options' & Hrun & Hsame).
  exists options'. split; [by apply map_array_Forall2|done].
Qed.

(** X17.  On a request of the earlier revision's shape (a one-way trip, by
    name or by default, with its three required fields and no budget or
    travel class) the current revision issues exactly the calls the
    earlier one issued; and whenever it answers 200, so did the earlier
    one, with as many options, agreeing one by one on identifier, price,
    currency, duration and airline. *)
Theorem oneway_request_as_in_earlier_revision (up : Upstream) (req_body : JsVal) :
  prop req_body "tripType" = VUndef \/ prop req_body "tripType" = VStr "oneway" ->
  appJs_valid req_body = true ->
  truthy (prop req_body "maxPrice") = false ->
  truthy (prop req_body "travelClass") = false ->
  (search_flights up req_body).1 = (AppJs.search_flights up req_body).1 /\
  (status (search_flights up req_body).2 = 200 ->
   exists options options',
     prop (body (search_flights up req_body).2) "options" = VArr options /\
     (AppJs.search_flights up req_body).2
     = res_json 200 (VObj [("options", VArr options')]) /\
     Forall2 (same_fields summaryFields) options options').
Proof.
  intros Htt Hv Hm Htc.
  pose proof (appJs_valid_not_nullish _ Hv) as Hbody.
  rewrite (AppJs_valid_run up req_body Hv).
  destruct (search_flights_run up req_body)
    as [e Hrq ->|rq e Hrq Htok ->|rq token Hrq Htok ->].
  { apply destructure_throws in Hrq. congruence. }
  { rewrite Htok. by split. }
  rewrite Htok.
  pose proof (destructure_shared _ _ Hrq) as Hsh.
  apply destructure_inv in Hrq
    as (_ & Htt' & Ho & Hd & Hdd & _ & _ & Hmp & Htc').
  assert (Honeway : tripType rq = VStr "oneway").
  { rewrite Htt'. by destruct Htt as [-> | ->]. }
  assert (Hsingle : single_valid rq = true).
  { unfold single_valid. rewrite Honeway, Ho, Hd, Hdd. cbn.
    unfold appJs_valid in Hv. by rewrite Hv. }
  assert (Hparams : singleParams rq = appJs_params req_body).
  { unfold singleParams, add_optional, appJs_params.
    rewrite Honeway, Hmp, Htc', Hm, Htc, Ho, Hd, Hdd, Hsh. by cbn. }
  unfold dispatch. rewrite Honeway. cbn [strict_eq_string String.eqb Ascii.eqb Bool.eqb orb].
  rewrite singleLeg_valid by done.
  destruct (ToString token) as [t|e] eqn:Ht.
  2:{ rewrite (fetchOptions_no_header _ _ _ _ _ e) by done. by split. }
  rewrite (fetchOptions_run _ _ _ _ _ t) by done. rewrite Hparams.
  cbn [searches List.filter is_search length app].
  unfold replyOptions. unfold_monad.
  destruct (search_response up 0 _ _) as [data|e]; [|by split].
  rewrite normalizeOffers_unfiltered by (by rewrite Hmp).
  destruct (normalizeUnfiltered data) as [options|e] eqn:Hoptions; [|by split].
  destruct (appJs_options_agree _ _ Hoptions) as (options' & -> & Hsame).
  cbn [catch_errors fst snd]. split; [done|]. intros _.
  by exists options, options'.
Qed.

End AppJsMore.

(** * The properties at work

    Closed instances, evaluated with the reference conversions. *)

Section Scenarios.
#[local] Existing Instance Reference.conversions.
Import Samples.

(** Scenario C of the specification. *)
Example scenario_business_cabin :
  exists option s1 s2,
    mapOfferToOption offerWithFare = Normal option /\
    prop option "price" = VNum (Reference.parse_float "542.3") /\
    prop option "cabin" = VStr "BUSINESS" /\
    prop option "segments" = VArr [s1; s2] /\
    prop s2 "cabin" = VNull.
Proof. do 3 eexists. vm_compute. by repeat split. Qed.

(** Scenario D of the specification. *)
Example scenario_multi_budget :
  exists entry option,
    prop (body (search_flights (provider [offerPriced "250"; offerPriced "400"])
                  (multi [leg "A" "B" "2025-01-01"] (VNum (num_of_Z 300)))).2) "legs"
    = VArr [entry] /\
    prop entry "options" = VArr [option] /\
    prop option "price" = VNum (num_of_Z 250).
Proof. do 2 eexists. vm_compute. by repeat split. Qed.

(** Scenario A of the specification. *)
Example scenario_oneway_defaults :
  (search_flights (provider [])
     (VObj [ ("tripType", VStr "oneway"); ("origin", VStr "KWI");
             ("destination", VStr "DXB"); ("departureDate", VStr "2025-06-01") ])).1
  = [ TokenRequest;
      OfferSearch "Bearer tok"
        (VObj [ ("originLocationCode", VStr "KWI");
                ("destinationLocationCode", VStr "DXB");
                ("departureDate", VStr "2025-06-01");
                ("adults", VNum (num_of_Z 1));
                ("currencyCode", VStr "KWD");
                ("max", VNum (num_of_Z 5)) ]) ] /\
  status (search_flights (provider []) onewayNoDestination).2 = 400.
Proof. by vm_compute. Qed.

(** Scenario B of the specification. *)
Example scenario_roundtrip_without_returnDate :
  (search_flights (provider [])
     (VObj [ ("tripType", VStr "roundtrip"); ("origin", VStr "KWI");
             ("destination", VStr "LHR"); ("departureDate", VStr "2025-07-01") ])).2
  = res_json 400 (error_body "returnDate is required for roundtrip searches").
Proof. by vm_compute. Qed.

(** An answer listing an offer without segments fails the request. *)
Example scenario_offer_without_segments :
  status (search_flights (provider [offerPriced "250"; offerWithoutSegments])
            (oneway VUndef)).2 = 500.
Proof. by vm_compute. Qed.

Lemma resolver_maps_entry_fields_witness :
  (nullish offerWithFare = false /\
   fareDetailsOf (prop offerWithFare "travelerPricings") = VArr [businessFare]) /\
  is_normal (segmentFareMapOf offerWithFare) = true /\
  own MoreSamples.fareMapWithFare !! "1" = Some (specAttribution businessFare).
Proof.
  assert (H1 : nullish offerWithFare = false) by reflexivity.
  assert (H2 : fareDetailsOf (prop offerWithFare "travelerPricings")
               = VArr [businessFare]) by reflexivity.
  assert (H3 : forallb usable_entry [businessFare] = true) by reflexivity.
  assert (H4 : segmentFareMapOf offerWithFare = Normal MoreSamples.fareMapWithFare)
    by reflexivity.
  assert (H5 : [businessFare] = [] ++ businessFare :: []) by reflexivity.
  assert (H6 : ToPropertyKey (prop businessFare "segmentId") = Normal "1")
    by reflexivity.
  assert (H7 : Forall (fun fd' => ToPropertyKey (prop fd' "segmentId") <> Normal "1") [])
    by constructor.
  assert (H8 : "1" <> "__proto__") by discriminate.
  split; [by split|].
  destruct (resolver_maps_entry_fields offerWithFare [businessFare] H1 H2)
    as [Hcompletes Hmaps].
  split; [exact (proj2 Hcompletes H3)|].
  exact (proj1 (proj2 (Hmaps MoreSamples.fareMapWithFare H4)
                  [] businessFare [] "1" H5 H6 H7 H8)).
Defined.

(** C1 fails as worded.  With [null] after the entry for segment 1 the
    resolver throws; a cabin that the entry holds as the empty string is
    not taken ([null] is stored); of two entries for segment 1 the first is
    lost; and the identifier [__proto__] of an entry is no key of the
    mapping. *)
Lemma resolver_departs_from_entry :
  (fareDetailsOf (prop (offerWithDetails "1" [businessFare; VNull]) "travelerPricings")
   = VArr [businessFare; VNull] /\
   prop businessFare "segmentId" = VStr "1" /\
   is_normal (segmentFareMapOf (offerWithDetails "1" [businessFare; VNull])) = false) /\
  (exists m v,
     segmentFareMapOf (offerWithDetails "1" [emptyCabinFare]) = Normal m /\
     own m !! "1" = Some v /\ prop v "cabin" = VNull /\
     prop (claimedAttribution emptyCabinFare) "cabin" = VStr EmptyString) /\
  (exists m v,
     segmentFareMapOf (offerWithDetails "1" [businessFare; economyFare]) = Normal m /\
     own m !! "1" = Some v /\ prop v "cabin" = VStr "ECONOMY" /\
     prop (claimedAttribution businessFare) "cabin" = VStr "BUSINESS") /\
  (exists m,
     segmentFareMapOf (offerWithDetails "1" [protoFare]) = Normal m /\
     prop protoFare "segmentId" = VStr "__proto__" /\
     own m !! "__proto__" = None).
Proof.
  split; [by vm_compute|]. split; [|split].
  - do 2 eexists. vm_compute. by repeat split.
  - do 2 eexists. vm_compute. by repeat split.
  - eexists. vm_compute. by repeat split.
Qed.

Lemma no_fare_details_all_null_witness :
  (itinerary_ok (offerPriced "250") = true /\
   lacks_fare_details (prop (offerPriced "250") "travelerPricings")) /\
  segmentFareMapOf (offerPriced "250") = Normal emptyFareMap.
Proof.
  assert (H1 : itinerary_ok (offerPriced "250") = true) by reflexivity.
  assert (H2 : lacks_fare_details (prop (offerPriced "250") "travelerPricings"))
    by (left; reflexivity).
  split; [by split|].
  exact (proj1 (no_fare_details_all_null (offerPriced "250") H1 H2)).
Defined.

(** C7 fails as worded.  An offer without traveler pricing whose segment is
    identified by [toString] is normalised, but the five fare members of
    its segment are missing, not [null]: the lookup finds the method that
    the mapping inherits and the fallback is not taken.  The offer-level
    members are [null] all the same, except the class, which an Option
    never has. *)
Lemma inherited_segment_id_leaves_fare_undefined :
  itinerary_ok (offerWithSegmentId "toString") = true /\
  lacks_fare_details (prop (offerWithSegmentId "toString") "travelerPricings") /\
  exists option s',
    mapOfferToOption (offerWithSegmentId "toString") = Normal option /\
    prop option "segments" = VArr [s'] /\
    all_undefined_fare s' /\
    prop option "cabin" = VNull /\
    prop option "class" = VUndef.
Proof.
  split; [reflexivity|]. split; [by left|].
  do 2 eexists. vm_compute. by repeat split.
Qed.

Lemma offer_without_segments_fails_witness :
  lacks_segments offerWithoutSegments /\
  exists e, mapOfferToOption offerWithoutSegments = Throw e.
Proof.
  assert (H1 : lacks_segments offerWithoutSegments) by (right; reflexivity).
  split; [done|].
  exact (proj1 (offer_without_segments_fails offerWithoutSegments H1)).
Defined.

Lemma multi_city_legs_witness :
  (prop (multi twoLegs VUndef) "tripType" = VStr "multi" /\
   prop (multi twoLegs VUndef) "segments" = VArr twoLegs /\
   twoLegs <> [] /\
   Forall (fun seg => leg_valid seg = true) twoLegs) /\
  exists legs,
    prop (body (search_flights (provider []) (multi twoLegs VUndef)).2) "legs"
    = VArr legs /\
    length legs = length twoLegs /\
    forall i seg, twoLegs !! i = Some seg ->
      exists entry, legs !! i = Some entry /\ leg_matches (i + 1) seg entry.
Proof.
  assert (H1 : prop (multi twoLegs VUndef) "tripType" = VStr "multi") by reflexivity.
  assert (H2 : prop (multi twoLegs VUndef) "segments" = VArr twoLegs) by reflexivity.
  assert (H3 : twoLegs <> []) by discriminate.
  assert (H4 : Forall (fun seg => leg_valid seg = true) twoLegs)
    by (repeat constructor).
  split; [by repeat split|].
  refine (proj1 (proj2 (multi_city_legs (provider []) (multi twoLegs VUndef) twoLegs
                          H1 H2 H3 H4)) _).
  vm_compute. reflexivity.
Defined.

Lemma optional_fields_and_roundtrip_query_witness :
  exists ps,
    searches (search_flights (provider []) roundtrip).1
    = [OfferSearch (bearer "tok") (VObj ps)] /\
    lookup_prop "returnDate" ps = Some (prop roundtrip "returnDate").
Proof.
  refine (proj2 (proj2 (optional_fields_and_roundtrip_query (provider []) roundtrip))
            (VStr "tok") "tok" _ _ _ _ _ _); try reflexivity.
  split; reflexivity.
Defined.

Lemma falsy_maxPrice_as_absent_witness :
  truthy (prop (oneway (VNum (num_of_Z 0))) "maxPrice") = false /\
  search_flights (provider [offerPriced "250"]) (oneway (VNum (num_of_Z 0)))
  = search_flights (provider [offerPriced "250"])
      (without_prop "maxPrice" (oneway (VNum (num_of_Z 0)))).
Proof.
  assert (H1 : truthy (prop (oneway (VNum (num_of_Z 0))) "maxPrice") = false)
    by reflexivity.
  split; [done|].
  exact (proj1 (falsy_maxPrice_as_absent (provider [offerPriced "250"])
                  (oneway (VNum (num_of_Z 0))) H1)).
Defined.

Lemma budget_filter_under_truthy_ceiling_witness :
  exists kept,
    budgetFilter (VNum (num_of_Z 300)) [pricedOption 250; pricedOption 400; pricedOption 300]
    = Normal kept /\
    kept `sublist_of` [pricedOption 250; pricedOption 400; pricedOption 300] /\
    (forall o, o ∈ kept <->
               o ∈ [pricedOption 250; pricedOption 400; pricedOption 300] /\
               price_within (num_of_Z 300) o = true) /\
    (forall l, l `sublist_of` [pricedOption 250; pricedOption 400; pricedOption 300] ->
               Forall (fun o => price_within (num_of_Z 300) o = true) l ->
               l `sublist_of` kept).
Proof.
  refine (proj1 budget_filter_under_truthy_ceiling (VNum (num_of_Z 300))
            (num_of_Z 300) _ _ _); [reflexivity|repeat constructor].
Defined.

(** C2 fails as stated: the request supplies the ceiling 0, and the option
    priced 250 is returned all the same. *)
Lemma zero_ceiling_is_not_applied :
  prop (oneway (VNum (num_of_Z 0))) "maxPrice" = VNum (num_of_Z 0) /\
  ~ (forall options o,
       prop (body (search_flights (provider [offerPriced "250"])
                     (oneway (VNum (num_of_Z 0)))).2) "options" = VArr options ->
       o ∈ options -> price_within (num_of_Z 0) o = true).
Proof.
  split; [reflexivity|]. intros Hall.
  destruct (mapOfferToOption (offerPriced "250")) as [option|e] eqn:Hopt;
    [|by vm_compute in Hopt].
  specialize (Hall [option] option).
  assert (Hfalse : price_within (num_of_Z 0) option = false).
  { vm_compute in Hopt. injection Hopt as <-. by vm_compute. }
  rewrite Hall in Hfalse; [done| |apply list_elem_of_singleton; done].
  vm_compute in Hopt. injection Hopt as <-. by vm_compute.
Qed.

Lemma unparsable_price_is_emitted_witness :
  (well_formed_offer (offerPriced "abc") = true /\
   prop (prop (offerPriced "abc") "price") "total" = VStr "abc" /\
   parseFloat_string "abc" = NaN) /\
  exists option,
    mapOfferToOption (offerPriced "abc") = Normal option /\
    prop option "price" = VNum NaN.
Proof.
  assert (H1 : well_formed_offer (offerPriced "abc") = true) by reflexivity.
  assert (H2 : prop (prop (offerPriced "abc") "price") "total" = VStr "abc")
    by reflexivity.
  assert (H3 : parseFloat_string "abc" = NaN) by reflexivity.
  split; [by repeat split|].
  destruct (unparsable_price_is_emitted (offerPriced "abc") "abc" H1 H2 H3)
    as (option & Hopt & Hprice & _).
  exists option. by split.
Defined.

(** C3 fails as stated: the provider returns an offer whose price is "abc",
    and the request is answered 200, not 500, the Option carrying NaN. *)
Lemma unparsable_price_answered_200 :
  parseFloat_string "abc" = NaN /\
  status (search_flights (provider [offerPriced "abc"]) (oneway VUndef)).2 = 200 /\
  exists option,
    prop (body (search_flights (provider [offerPriced "abc"]) (oneway VUndef)).2)
         "options" = VArr [option] /\
    prop option "price" = VNum NaN.
Proof. split; [reflexivity|]. split; [reflexivity|]. eexists. by vm_compute. Qed.

Lemma first_invalid_leg_aborts_witness :
  (prop (multi [leg "KWI" "DXB" "2025-01-01"; legWithoutDate] VUndef) "tripType"
   = VStr "multi" /\
   prop (multi [leg "KWI" "DXB" "2025-01-01"; legWithoutDate] VUndef) "segments"
   = VArr ([leg "KWI" "DXB" "2025-01-01"] ++ legWithoutDate :: []) /\
   Forall (fun seg => leg_valid seg = true) [leg "KWI" "DXB" "2025-01-01"] /\
   nullish legWithoutDate = false /\ leg_valid legWithoutDate = false) /\
  length (searches (search_flights (provider [])
                      (multi [leg "KWI" "DXB" "2025-01-01"; legWithoutDate] VUndef)).1)
  <= length [leg "KWI" "DXB" "2025-01-01"].
Proof.
  assert (H1 : prop (multi [leg "KWI" "DXB" "2025-01-01"; legWithoutDate] VUndef)
                 "tripType" = VStr "multi") by reflexivity.
  assert (H2 : prop (multi [leg "KWI" "DXB" "2025-01-01"; legWithoutDate] VUndef)
                 "segments"
               = VArr ([leg "KWI" "DXB" "2025-01-01"] ++ legWithoutDate :: []))
    by reflexivity.
  assert (H3 : Forall (fun seg => leg_valid seg = true) [leg "KWI" "DXB" "2025-01-01"])
    by (repeat constructor).
  assert (H4 : nullish legWithoutDate = false) by reflexivity.
  assert (H5 : leg_valid legWithoutDate = false) by reflexivity.
  split; [by repeat split|].
  destruct (proj1 (first_invalid_leg_aborts (provider []) _ _ _ [] H1 H2 H3 H4 H5))
    as (k & t & Hk & Hsearches & _).
  rewrite Hsearches, length_fmap, length_take. lia.
Defined.

(** C5 fails as stated: the second leg is the invalid one, yet the provider
    has been searched for the first leg when the validation error is sent;
    and the error is the same whether the first or the second leg is the
    invalid one, so the failing index cannot be read from it. *)
Lemma leg_searched_before_validation_error :
  (search_flights (provider [])
     (multi [leg "KWI" "DXB" "2025-01-01"; legWithoutDate] VUndef)).2
  = res_json 400 (error_body segment_error) /\
  length (searches (search_flights (provider [])
                      (multi [leg "KWI" "DXB" "2025-01-01"; legWithoutDate] VUndef)).1)
  = 1 /\
  (search_flights (provider [])
     (multi [legWithoutDate; leg "KWI" "DXB" "2025-01-01"] VUndef)).2
  = (search_flights (provider [])
       (multi [leg "KWI" "DXB" "2025-01-01"; legWithoutDate] VUndef)).2.
Proof. by vm_compute. Qed.

(** C4 fails on the code: a one-way request without destination is turned
    down (400) only after the token call has been issued, and is answered
    500 when that call fails; the earlier revision of the handler issues no
    call for the same request. *)
Theorem missing_destination_after_token_request :
  search_flights (provider []) onewayNoDestination
  = ([TokenRequest],
     res_json 400 (error_body "origin, destination, and departureDate are required")) /\
  status (search_flights providerDown onewayNoDestination).2 = 500 /\
  AppJs.search_flights (provider []) onewayNoDestination
  = ([], res_json 400
           (error_body "origin, destination, and departureDate are required")).
Proof. by vm_compute. Qed.

End Scenarios.

(** * The further properties at work *)

Section MoreScenarios.
#[local] Existing Instance Reference.conversions.
Import Samples MoreSamples.

Lemma resolver_keys_and_values_witness :
  (plain_identifiers offerWithFare = true /\
   segmentFareMapOf offerWithFare = Normal fareMapWithFare) /\
  exists fds,
    fareDetailsOf (prop offerWithFare "travelerPricings") = VArr fds /\
    Forall (fun fd => nullish fd = false) fds /\
    prototype fareMapWithFare = None /\
    (forall key,
       is_Some (own fareMapWithFare !! key) <->
       exists fd, fd ∈ fds /\ ToPropertyKey (prop fd "segmentId") = Normal key) /\
    (forall key v,
       own fareMapWithFare !! key = Some v ->
       exists fd, fd ∈ fds /\ ToPropertyKey (prop fd "segmentId") = Normal key /\
                  v = fareAttribution fd).
Proof.
  assert (H0 : plain_identifiers offerWithFare = true) by reflexivity.
  assert (H1 : segmentFareMapOf offerWithFare = Normal fareMapWithFare)
    by reflexivity.
  split; [by split|].
  exact (resolver_keys_and_values offerWithFare fareMapWithFare H0 H1).
Defined.

Lemma offer_fare_is_first_segment_fare_witness :
  (plain_identifiers offerWithFare = true /\
   mapOfferToOption offerWithFare = Normal optionWithFare) /\
  exists first rest,
    prop optionWithFare "segments" = VArr (first :: rest) /\
    same_fields offerFareFields first optionWithFare.
Proof.
  assert (H0 : plain_identifiers offerWithFare = true) by reflexivity.
  assert (H1 : mapOfferToOption offerWithFare = Normal optionWithFare)
    by reflexivity.
  split; [by split|].
  exact (offer_fare_is_first_segment_fare offerWithFare optionWithFare H0 H1).
Defined.

Lemma option_follows_first_itinerary_witness :
  mapOfferToOption offerWithFare = Normal optionWithFare /\
  exists segments',
    prop optionWithFare "segments" = VArr segments' /\
    Forall2 segment_copied [segment "1" "KWI" "DXB"; segment "2" "DXB" "LHR"] segments' /\
    prop optionWithFare "airline" = VStr "KU".
Proof.
  assert (H1 : mapOfferToOption offerWithFare = Normal optionWithFare)
    by reflexivity.
  split; [done|].
  destruct (option_follows_first_itinerary offerWithFare optionWithFare H1)
    as (segments & segments' & total & Hsegs & Hsegs' & Hcopied & _ & _ & _ & Hair & _).
  injection Hsegs as <-. exists segments'. by repeat split.
Defined.

Lemma fare_members_never_undefined_witness :
  (plain_identifiers offerWithFare = true /\
   mapOfferToOption offerWithFare = Normal optionWithFare) /\
  Forall (fun f => prop optionWithFare f <> VUndef) offerFareFields.
Proof.
  assert (H0 : plain_identifiers offerWithFare = true) by reflexivity.
  assert (H1 : mapOfferToOption offerWithFare = Normal optionWithFare)
    by reflexivity.
  split; [by split|].
  exact (proj1 (fare_members_never_undefined offerWithFare optionWithFare H0 H1)).
Defined.

Lemma unusable_fare_details_fail_witness :
  fare_details_unusable (fareDetailsOf (prop offerWithNullFare "travelerPricings"))
  = true /\
  exists e, mapOfferToOption offerWithNullFare = Throw e.
Proof.
  assert (H1 : fare_details_unusable
                 (fareDetailsOf (prop offerWithNullFare "travelerPricings")) = true)
    by reflexivity.
  split; [done|].
  exact (proj1 (unusable_fare_details_fail offerWithNullFare H1)).
Defined.

Lemma earlier_revision_normalises_too_witness :
  mapOfferToOption offerWithFare = Normal optionWithFare /\
  exists option',
    AppJs.mapOffer offerWithFare = Normal option' /\
    same_fields summaryFields optionWithFare option'.
Proof.
  assert (H1 : mapOfferToOption offerWithFare = Normal optionWithFare)
    by reflexivity.
  split; [done|].
  destruct (earlier_revision_normalises_too offerWithFare optionWithFare H1)
    as (option' & Hrun & Hsame & _).
  by exists option'.
Defined.

Lemma empty_segments_accepted_by_earlier_revision_witness :
  (prop (prop (prop offerWithoutSegments "itineraries") "0") "segments" = VArr [] /\
   nullish (prop offerWithoutSegments "price") = false /\
   ToString (prop (prop offerWithoutSegments "price") "total") = Normal "100") /\
  is_normal (AppJs.mapOffer offerWithoutSegments) = true /\
  exists e, mapOfferToOption offerWithoutSegments = Throw e.
Proof.
  assert (H1 : prop (prop (prop offerWithoutSegments "itineraries") "0") "segments"
               = VArr []) by reflexivity.
  assert (H2 : nullish (prop offerWithoutSegments "price") = false) by reflexivity.
  assert (H3 : ToString (prop (prop offerWithoutSegments "price") "total")
               = Normal "100") by reflexivity.
  split; [by repeat split|].
  destruct (empty_segments_accepted_by_earlier_revision offerWithoutSegments "100"
              H1 H2 H3) as [Hearlier Hcurrent].
  split; [by rewrite Hearlier|done].
Defined.

Lemma success_means_every_leg_searched_witness :
  status (search_flights (provider [offerPriced "250"]) (multi twoLegs VUndef)).2 = 200 /\
  exists rq token t,
    destructure (multi twoLegs VUndef) = Normal rq /\
    token_ok (provider [offerPriced "250"]) token t /\
    (search_flights (provider [offerPriced "250"]) (multi twoLegs VUndef)).1
    = TokenRequest :: (searchEvent t (shared rq) <$> twoLegs).
Proof.
  assert (H1 : status (search_flights (provider [offerPriced "250"])
                         (multi twoLegs VUndef)).2 = 200) by reflexivity.
  split; [done|].
  destruct (success_means_every_leg_searched (provider [offerPriced "250"])
              (multi twoLegs VUndef) H1)
    as (rq & token & t & Hrq & Htok
        & [(Hs & _) | (_ & segs & legs & Hsegs & _ & _ & Htrace & _)]).
  - apply destructure_inv in Hrq as (_ & Htt & _). unfold is_single in Hs.
    rewrite Htt in Hs. discriminate Hs.
  - exists rq, token, t. split; [done|]. split; [done|].
    pose proof Hrq as Hrq'.
    apply destructure_inv in Hrq' as (_ & _ & _ & _ & _ & _ & Hsegs' & _).
    rewrite Hsegs in Hsegs'. injection Hsegs' as ->. exact Htrace.
Defined.

Lemma omitted_field_is_its_default_witness :
  (("adults", VNum (num_of_Z 1)) ∈ handlerDefaults /\
   prop onewayPlain "adults" = VUndef) /\
  search_flights (provider [offerPriced "250"])
    (with_prop "adults" (VNum (num_of_Z 1)) onewayPlain)
  = search_flights (provider [offerPriced "250"]) onewayPlain.
Proof.
  assert (H1 : ("adults", VNum (num_of_Z 1)) ∈ handlerDefaults)
    by (unfold handlerDefaults; repeat constructor).
  assert (H2 : prop onewayPlain "adults" = VUndef) by reflexivity.
  split; [by split|].
  exact (omitted_field_is_its_default (provider [offerPriced "250"]) onewayPlain
           "adults" (VNum (num_of_Z 1)) H1 H2).
Defined.

Lemma null_leg_answers_500_witness :
  (prop (multi [leg "KWI" "DXB" "2025-01-01"; VNull] VUndef) "tripType" = VStr "multi" /\
   prop (multi [leg "KWI" "DXB" "2025-01-01"; VNull] VUndef) "segments"
   = VArr ([leg "KWI" "DXB" "2025-01-01"] ++ VNull :: []) /\
   Forall (fun seg => leg_valid seg = true) [leg "KWI" "DXB" "2025-01-01"] /\
   nullish VNull = true) /\
  status (search_flights (provider [])
            (multi [leg "KWI" "DXB" "2025-01-01"; VNull] VUndef)).2 = 500.
Proof.
  assert (H1 : prop (multi [leg "KWI" "DXB" "2025-01-01"; VNull] VUndef) "tripType"
               = VStr "multi") by reflexivity.
  assert (H2 : prop (multi [leg "KWI" "DXB" "2025-01-01"; VNull] VUndef) "segments"
               = VArr ([leg "KWI" "DXB" "2025-01-01"] ++ VNull :: []))
    by reflexivity.
  assert (H3 : Forall (fun seg => leg_valid seg = true) [leg "KWI" "DXB" "2025-01-01"])
    by (repeat constructor).
  assert (H4 : nullish VNull = true) by reflexivity.
  split; [by repeat split|].
  exact (proj1 (null_leg_answers_500 (provider [])
                  (multi [leg "KWI" "DXB" "2025-01-01"; VNull] VUndef)
                  [leg "KWI" "DXB" "2025-01-01"] VNull [] H1 H2 H3 H4)).
Defined.

Lemma token_failure_is_forwarded_witness :
  (nullish onewayNoDestination = false /\
   token_response providerDown
   = Throw (RequestError (VObj [("error", VStr "invalid_client")])
                         "Request failed with status code 401")) /\
  prop (body (search_flights providerDown onewayNoDestination).2) "details"
  = VObj [("error", VStr "invalid_client")].
Proof.
  assert (H1 : nullish onewayNoDestination = false) by reflexivity.
  assert (H2 : token_response providerDown
               = Throw (RequestError (VObj [("error", VStr "invalid_client")])
                                     "Request failed with status code 401"))
    by reflexivity.
  split; [by split|].
  exact (proj2 (token_failure_is_forwarded providerDown onewayNoDestination _ H1 H2)).
Defined.

Lemma rejected_search_ends_the_run_witness :
  ((forall authorization params,
      search_response providerRejecting 0 authorization params = Throw quotaExceeded) /\
   0 < length (searches (search_flights providerRejecting (multi twoLegs VUndef)).1)) /\
  (search_flights providerRejecting (multi twoLegs VUndef)).2 = on_error quotaExceeded /\
  length (searches (search_flights providerRejecting (multi twoLegs VUndef)).1) = 1.
Proof.
  assert (H1 : forall authorization params,
             search_response providerRejecting 0 authorization params
             = Throw quotaExceeded) by reflexivity.
  assert (H2 : 0 < length (searches (search_flights providerRejecting
                                       (multi twoLegs VUndef)).1))
    by (vm_compute; lia).
  split; [by split|].
  exact (rejected_search_ends_the_run providerRejecting (multi twoLegs VUndef) 0
           quotaExceeded H1 H2).
Defined.

Lemma missing_access_token_goes_unnoticed_witness :
  (token_response providerWithoutToken = Normal (VObj [("token_type", VStr "Bearer")]) /\
   nullish (VObj [("token_type", VStr "Bearer")]) = false /\
   prop (VObj [("token_type", VStr "Bearer")]) "access_token" = VUndef) /\
  forall authorization params,
    OfferSearch authorization params
      ∈ (search_flights providerWithoutToken (oneway VUndef)).1 ->
    authorization = "Bearer undefined".
Proof.
  assert (H1 : token_response providerWithoutToken
               = Normal (VObj [("token_type", VStr "Bearer")])) by reflexivity.
  assert (H2 : nullish (VObj [("token_type", VStr "Bearer")]) = false) by reflexivity.
  assert (H3 : prop (VObj [("token_type", VStr "Bearer")]) "access_token" = VUndef)
    by reflexivity.
  split; [by repeat split|].
  exact (proj1 (missing_access_token_goes_unnoticed providerWithoutToken
                  (oneway VUndef) _ H1 H2 H3)).
Defined.

Lemma non_numeric_ceiling_empties_the_answer_witness :
  (truthy (prop (oneway (VStr "cheap")) "maxPrice") = true /\
   ToNumber (prop (oneway (VStr "cheap")) "maxPrice") = Normal NaN /\
   status (search_flights (provider [offerPriced "250"]) (oneway (VStr "cheap"))).2
   = 200) /\
  prop (body (search_flights (provider [offerPriced "250"]) (oneway (VStr "cheap"))).2)
    "options" = VArr [].
Proof.
  assert (H1 : truthy (prop (oneway (VStr "cheap")) "maxPrice") = true)
    by reflexivity.
  assert (H2 : ToNumber (prop (oneway (VStr "cheap")) "maxPrice") = Normal NaN)
    by (vm_compute; reflexivity).
  assert (H3 : status (search_flights (provider [offerPriced "250"])
                         (oneway (VStr "cheap"))).2 = 200)
    by (vm_compute; reflexivity).
  split; [by repeat split|].
  destruct (non_numeric_ceiling_empties_the_answer (provider [offerPriced "250"])
              (oneway (VStr "cheap")) H1 H2 H3) as [Hnone | (legs & Hlegs & _)];
    [exact Hnone|].
  vm_compute in Hlegs. discriminate Hlegs.
Defined.

Lemma appjs_calls_follow_validation_witness :
  appJs_valid onewayPlain = true /\
  exists rest,
    (AppJs.search_flights (provider [offerPriced "250"]) onewayPlain).1
    = TokenRequest :: rest.
Proof.
  assert (H1 : appJs_valid onewayPlain = true) by reflexivity.
  split; [done|].
  destruct (proj2 (appjs_calls_follow_validation (provider [offerPriced "250"])
                     onewayPlain) H1) as (rest & Htrace & _).
  by exists rest.
Defined.

Lemma oneway_request_as_in_earlier_revision_witness :
  ((prop onewayPlain "tripType" = VUndef \/ prop onewayPlain "tripType" = VStr "oneway") /\
   appJs_valid onewayPlain = true /\
   truthy (prop onewayPlain "maxPrice") = false /\
   truthy (prop onewayPlain "travelClass") = false) /\
  (search_flights (provider [offerWithFare]) onewayPlain).1
  = (AppJs.search_flights (provider [offerWithFare]) onewayPlain).1.
Proof.
  assert (H1 : prop onewayPlain "tripType" = VUndef
               \/ prop onewayPlain "tripType" = VStr "oneway") by (left; reflexivity).
  assert (H2 : appJs_valid onewayPlain = true) by reflexivity.
  assert (H3 : truthy (prop onewayPlain "maxPrice") = false) by reflexivity.
  assert (H4 : truthy (prop onewayPlain "travelClass") = false) by reflexivity.
  split; [by repeat split|].
  exact (proj1 (oneway_request_as_in_earlier_revision (provider [offerWithFare])
                  onewayPlain H1 H2 H3 H4)).
Defined.

Lemma unread_fields_change_nothing_witness :
  unread_field
    (with_default
       (prop (with_prop "returnDate" (VStr "2025-06-09") (oneway VUndef)) "tripType")
       (VStr "oneway")) "returnDate" = true /\
  search_flights (provider [offerPriced "250"])
    (without_prop "returnDate"
       (with_prop "returnDate" (VStr "2025-06-09") (oneway VUndef)))
  = search_flights (provider [offerPriced "250"])
      (with_prop "returnDate" (VStr "2025-06-09") (oneway VUndef)).
Proof.
  assert (H1 : unread_field
                 (with_default
                    (prop (with_prop "returnDate" (VStr "2025-06-09") (oneway VUndef))
                       "tripType") (VStr "oneway")) "returnDate" = true)
    by reflexivity.
  split; [done|].
  exact (unread_fields_change_nothing (provider [offerPriced "250"])
           (with_prop "returnDate" (VStr "2025-06-09") (oneway VUndef))
           "returnDate" H1).
Defined.

(** The earlier revision makes an Option of an offer without segments; the
    current one answers 500. *)
Example scenario_revisions_on_empty_segments :
  status (AppJs.search_flights (provider [offerWithoutSegments]) onewayPlain).2 = 200 /\
  status (search_flights (provider [offerWithoutSegments]) onewayPlain).2 = 500.
Proof. by vm_compute. Qed.

End MoreScenarios.
